(** * Invoice intake pipeline: validation, template learning, job queue

    A shallow embedding of the services of the repository that take an
    invoice from extraction to approval:

    - [GstValidation]: [validateGSTINFormat], [calculateGST],
      [extractStateCode] and [processInvoiceGST];
    - [Ocr]: [validateInvoiceData], [checkDuplicateInvoice] and
      [generateCorrectionSuggestions] of the OCR service;
    - [TemplateService]: the methods of class [InvoiceTemplateService]
      ([learnFromInvoice], [getTemplate], [saveTemplate],
      [validateAgainstTemplate], [updateCommonValues],
      [getSupplierInsights], ...);
    - [InvoiceQueue]: the methods of class [InvoiceQueue], each up to its
      first [await], and [QueueRuntime]: the queue in the course of time,
      one segment between two [await]s after the other;
    - [AutoReorder]: [determinePriority] and [optimizeWithinBudget].

    Conventions of the embedding.

    - A JavaScript [number] is a value of a type [num] carrying the
      operations of class [JsNumber].  Two instances are given: IEEE
      binary64 ([float], what the program runs on) and exact rationals
      ([Q], to compare with exact arithmetic).  Numbers that the code
      only ever sets to integer constants or counts up by one (field
      scores, match score, progress, counters) are [Z].
    - A string is a [string] over ASCII code units; [toUpperCase],
      [toLowerCase] and the regular expressions of the source are written
      out on that alphabet.
    - Mutated locals ([errors], [warnings], [fieldConfidence], ...) are
      threaded as a record; the template store and the queue object are
      passed explicitly.  Job objects are shared by reference, so the queue
      keeps them in a heap.
    - An [async] function runs synchronously up to its first [await]; what
      is suspended there is recorded in the state.  A promise is
      fulfilled or rejected: see [Outcome]; a function that throws
      rejects its promise.
    - What the code reads from its surroundings (the clock, the time
      zone, [process.env], [Math.random], the answers of Redis and of the
      database) is an explicit argument, and the facilities of the
      JavaScript host that are not written out ([Date], number
      formatting, the regular-expression engine, [Array.prototype.sort])
      are fields of a host record. *)

From Stdlib Require Import ZArith QArith Qabs Qround Qfield Lqa Floats String Ascii List Sorted Lia.
From stdpp Require Import gmap strings list pretty.

#[local] Open Scope string_scope.
#[local] Open Scope Z_scope.

(** ** JavaScript numbers *)

(** The operations on [number] that the three services use. *)
Class JsNumber (num : Type) := {
  of_Z : Z -> num;                (* an integer literal or an integer-valued number *)
  nadd : num -> num -> num;       (* a + b *)
  nsub : num -> num -> num;       (* a - b *)
  nmul : num -> num -> num;       (* a * b *)
  ndiv : num -> num -> num;       (* a / b *)
  nabs : num -> num;              (* Math.abs(a) *)
  nltb : num -> num -> bool;      (* a < b *)
  nleb : num -> num -> bool;      (* a <= b *)
  truthy : num -> bool;           (* ToBoolean(a): false on 0 and NaN *)
  Math_round : num -> Z;          (* Math.round(a), for finite a *)
  Math_round_number : num -> num; (* Math.round(a), as a number *)
  JSON_number : num -> option num (* a, as read back from JSON.stringify(a): [None] is null *)
}.

Declare Scope num_scope.
Delimit Scope num_scope with num.
Infix "+" := nadd : num_scope.
Infix "-" := nsub : num_scope.
Infix "*" := nmul : num_scope.
Infix "/" := ndiv : num_scope.
Infix "<?" := nltb : num_scope.
Infix "<=?" := nleb : num_scope.
Notation "a >? b" := (nltb b a) (at level 70, no associativity) : num_scope.
Notation "a >=? b" := (nleb b a) (at level 70, no associativity) : num_scope.

Section NumberHelpers.
Context {num : Type} `{JsNumber num}.

(** A decimal literal [n/d], e.g. [0.35] is [decimal 35 100]. *)
Definition decimal (n d : Z) : num := (of_Z n / of_Z d)%num.

(** [x || 0] *)
Definition or0 (x : num) : num := if truthy x then x else of_Z 0.

(** A [number] that has been through JSON is a number or [null], which
    arithmetic and comparisons read as [0]. *)
Definition ToNumber (x : option num) : num :=
  match x with
  | Some v => v
  | None => of_Z 0
  end.

(** [(x || 0)] for an optional field [x?: number] *)
Definition opt_or0 (x : option num) : num :=
  match x with
  | Some v => or0 v
  | None => of_Z 0
  end.
End NumberHelpers.

(** *** IEEE binary64 *)

(** The number nearest to an integer (ties to even): exact below [2^53],
    and above it the 53 leading bits, rounded, times a power of two. *)
Definition float_of_Z (z : Z) : float :=
  let a := Z.abs z in
  let x :=
    if a <? 2 ^ 53 then PrimFloat.of_uint63 (Uint63.of_Z a)
    else
      let e := Z.log2 a - 52 in
      let q := a / 2 ^ e in
      let r := a mod 2 ^ e in
      let half := 2 ^ (e - 1) in
      let q := if (r <? half) || ((r =? half) && Z.even q) then q else q + 1 in
      Z.ldexp (PrimFloat.of_uint63 (Uint63.of_Z q)) e in
  if z <? 0 then PrimFloat.opp x else x.

(** [Math.round]: the integer [floor(x + 1/2)], computed exactly from the
    mantissa and exponent of [x] (value [m * 2^e]). *)
Definition float_round (x : float) : Z :=
  match Prim2SF x with
  | S754_finite s m e =>
      let v := if s then Z.neg m else Z.pos m in
      if 0 <=? e then v * 2 ^ e else (2 * v + 2 ^ (- e)) / 2 ^ (1 - e)
  | _ => 0
  end.

(** [Math.round] as a number: NaN, the infinities and the zeros are
    kept, and a number of [[-0.5, 0)] gives [-0]. *)
Definition float_Math_round (x : float) : float :=
  match Prim2SF x with
  | S754_finite s _ _ =>
      let z := float_round x in
      if z =? 0 then (if s then PrimFloat.neg_zero else PrimFloat.zero) else float_of_Z z
  | _ => x
  end.

Definition float_truthy (x : float) : bool :=
  negb (PrimFloat.is_nan x || PrimFloat.is_zero x).

(** [JSON.stringify] writes a finite number in full ([-0] as [0]) and
    NaN and the infinities as [null]. *)
Definition float_JSON (x : float) : option float :=
  match Prim2SF x with
  | S754_finite _ _ _ => Some x
  | S754_zero _ => Some PrimFloat.zero
  | _ => None
  end.

#[export] Instance float_JsNumber : JsNumber float := {|
  of_Z := float_of_Z;
  nadd := PrimFloat.add;
  nsub := PrimFloat.sub;
  nmul := PrimFloat.mul;
  ndiv := PrimFloat.div;
  nabs := PrimFloat.abs;
  nltb := PrimFloat.ltb;
  nleb := PrimFloat.leb;
  truthy := float_truthy;
  Math_round := float_round;
  Math_round_number := float_Math_round;
  JSON_number := float_JSON
|}.

(** *** Exact rationals *)

Definition Q_leb (a b : Q) : bool := Qle_bool a b.
Definition Q_ltb (a b : Q) : bool := negb (Qle_bool b a).

#[export] Instance Q_JsNumber : JsNumber Q := {|
  of_Z := inject_Z;
  nadd := Qplus;
  nsub := Qminus;
  nmul := Qmult;
  ndiv := Qdiv;
  nabs := Qabs;
  nltb := Q_ltb;
  nleb := Q_leb;
  truthy := fun q => negb (Qeq_bool q 0);
  Math_round := fun q => Qfloor (q + (1 # 2));
  Math_round_number := fun q => inject_Z (Qfloor (q + (1 # 2)));
  JSON_number := Some
|}.

(** The value of a finite binary64 number. *)
Definition float_value (x : float) : option Q :=
  match Prim2SF x with
  | S754_zero _ => Some 0%Q
  | S754_finite s m e =>
      let v := if s then Z.neg m else Z.pos m in
      Some (if 0 <=? e then inject_Z (v * 2 ^ e) else v # Z.to_pos (2 ^ (- e)))
  | _ => None
  end.

(** ** Promises *)

(** The outcome of an awaited promise, or of a call that may throw. *)
Inductive Outcome {A : Type} :=
| Resolved (value : A)
| Rejected (message : string).
Arguments Outcome : clear implicits.

(** ** Strings *)

Definition code (c : ascii) : Z := Z.of_nat (nat_of_ascii c).

Definition is_digit (c : ascii) : bool := (48 <=? code c) && (code c <=? 57).
Definition is_upper (c : ascii) : bool := (65 <=? code c) && (code c <=? 90).
Definition is_lower (c : ascii) : bool := (97 <=? code c) && (code c <=? 122).

(** The class [\s] on ASCII: tab, line feed, vertical tab, form feed,
    carriage return, space. *)
Definition is_space (c : ascii) : bool :=
  ((9 <=? code c) && (code c <=? 13)) || (code c =? 32).

Definition upper_char (c : ascii) : ascii :=
  if is_lower c then ascii_of_nat (nat_of_ascii c - 32)%nat else c.
Definition lower_char (c : ascii) : ascii :=
  if is_upper c then ascii_of_nat (nat_of_ascii c + 32)%nat else c.

Fixpoint string_map (f : ascii -> ascii) (s : string) : string :=
  match s with
  | EmptyString => EmptyString
  | String c s' => String (f c) (string_map f s')
  end.

Fixpoint string_filter (p : ascii -> bool) (s : string) : string :=
  match s with
  | EmptyString => EmptyString
  | String c s' => if p c then String c (string_filter p s') else string_filter p s'
  end.

Fixpoint string_forallb (p : ascii -> bool) (s : string) : bool :=
  match s with
  | EmptyString => true
  | String c s' => p c && string_forallb p s'
  end.

Definition toUpperCase : string -> string := string_map upper_char.
Definition toLowerCase : string -> string := string_map lower_char.

(** [s.length] *)
Definition strlen (s : string) : Z := Z.of_nat (String.length s).

(** [!s] is [true] exactly on the empty string. *)
Definition str_truthy (s : string) : bool :=
  match s with
  | EmptyString => false
  | _ => true
  end.

(** Truthiness of an optional string field. *)
Definition opt_truthy (s : option string) : bool :=
  match s with
  | Some v => str_truthy v
  | None => false
  end.

(** [s.includes(t)] *)
Fixpoint includes (s t : string) : bool :=
  String.prefix t s ||
  match s with
  | EmptyString => false
  | String _ s' => includes s' t
  end.

(** [s.substring(a, b)] for [0 <= a <= b]. *)
Definition substring (a b : nat) (s : string) : string :=
  String.substring a (b - a)%nat s.

(** The value of a string of decimal digits. *)
Definition digit_val (c : ascii) : Z := code c - 48.

Fixpoint digits_val (acc : Z) (s : string) : Z :=
  match s with
  | EmptyString => acc
  | String c s' => digits_val (acc * 10 + digit_val c) s'
  end.

(** Matching a string against a sequence of one-character classes
    anchored at both ends, as in [/^[0-9]{2}[A-Z]{5}...$/]. *)
Fixpoint match_classes (cls : list (ascii -> bool)) (s : string) : bool :=
  match cls, s with
  | [], EmptyString => true
  | p :: cls', String c s' => p c && match_classes cls' s'
  | _, _ => false
  end.

(** ** GSTIN validation (utils/gstValidation) *)

Module GstValidation.

(** State codes mapping. *)
Definition STATE_CODES : gmap string string :=
  list_to_map
    [ ("01", "Jammu and Kashmir"); ("02", "Himachal Pradesh"); ("03", "Punjab");
      ("04", "Chandigarh"); ("05", "Uttarakhand"); ("06", "Haryana");
      ("07", "Delhi"); ("08", "Rajasthan"); ("09", "Uttar Pradesh");
      ("10", "Bihar"); ("11", "Sikkim"); ("12", "Arunachal Pradesh");
      ("13", "Nagaland"); ("14", "Manipur"); ("15", "Mizoram");
      ("16", "Tripura"); ("17", "Meghalaya"); ("18", "Assam");
      ("19", "West Bengal"); ("20", "Jharkhand"); ("21", "Odisha");
      ("22", "Chhattisgarh"); ("23", "Madhya Pradesh"); ("24", "Gujarat");
      ("25", "Daman and Diu"); ("26", "Dadra and Nagar Haveli");
      ("27", "Maharashtra"); ("28", "Andhra Pradesh (Old)"); ("29", "Karnataka");
      ("30", "Goa"); ("31", "Lakshadweep"); ("32", "Kerala");
      ("33", "Tamil Nadu"); ("34", "Puducherry");
      ("35", "Andaman and Nicobar Islands"); ("36", "Telangana");
      ("37", "Andhra Pradesh"); ("38", "Ladakh") ].

Record Details := {
  stateCode : string;
  stateName : string;
  pan : string;
  entityNumber : string;
  checksum : string
}.

Record Result := {
  valid : bool;
  error : option string;
  details : option Details
}.

Definition invalid (msg : string) : Result :=
  {| valid := false; error := Some msg; details := None |}.

Definition rep (n : nat) (p : ascii -> bool) : list (ascii -> bool) := replicate n p.

Definition is_Z_char (c : ascii) : bool := code c =? 90.

(** [/^[0-9]{2}[A-Z]{5}[0-9]{4}[A-Z]{1}[1-9A-Z]{1}Z[0-9A-Z]{1}$/] *)
Definition gstinRegex (s : string) : bool :=
  match_classes
    (rep 2 is_digit ++ rep 5 is_upper ++ rep 4 is_digit ++ rep 1 is_upper
     ++ [fun c => ((49 <=? code c) && (code c <=? 57)) || is_upper c]
     ++ [is_Z_char]
     ++ [fun c => is_digit c || is_upper c]) s.

(** [/^[A-Z]{5}[0-9]{4}[A-Z]{1}$/] *)
Definition panRegex (s : string) : bool :=
  match_classes (rep 5 is_upper ++ rep 4 is_digit ++ rep 1 is_upper) s.

Definition validateGSTINFormat (gstin : string) : Result :=
  if negb (str_truthy gstin) then invalid "GSTIN is required"
  else
    (* Remove spaces and convert to uppercase *)
    let cleanGSTIN := toUpperCase (string_filter (fun c => negb (is_space c)) gstin) in
    if negb (strlen cleanGSTIN =? 15) then invalid "GSTIN must be 15 characters long"
    else if negb (gstinRegex cleanGSTIN) then invalid "Invalid GSTIN format"
    else
      let stateCode := substring 0 2 cleanGSTIN in
      let pan := substring 2 12 cleanGSTIN in
      let entityNumber := substring 12 13 cleanGSTIN in
      let checksum := substring 14 15 cleanGSTIN in
      match STATE_CODES !! stateCode with
      | None => invalid ("Invalid state code: " ++ stateCode)
      | Some stateName =>
          if negb (panRegex pan) then invalid "Invalid PAN in GSTIN"
          else
            {| valid := true;
               error := None;
               details := Some {| stateCode := stateCode; stateName := stateName;
                                  pan := pan; entityNumber := entityNumber;
                                  checksum := checksum |} |}
      end.

(** *** GST breakdown and invoice GST *)

(** The value of [calculateGST]. *)
Record GstBreakdown {num : Type} := mkBreakdown {
  cgst : num;
  sgst : num;
  igst : num;
  totalGST : num;
  totalAmount : num;
  isSameState : bool
}.
Arguments GstBreakdown : clear implicits.
Arguments mkBreakdown {num}.

(** The value of [processInvoiceGST]. *)
Record InvoiceGst {num : Type} := mkInvoiceGst {
  gst_valid : bool;
  gst_error : option string;
  gstBreakdown : option (GstBreakdown num);
  supplierState : option string;
  buyerState : option string
}.
Arguments InvoiceGst : clear implicits.
Arguments mkInvoiceGst {num}.

(** The text of [${validation.error}]. *)
Definition show_error (e : option string) : string :=
  match e with
  | Some s => s
  | None => "undefined"
  end.

(** Extract state code from GSTIN *)
Definition extractStateCode (gstin : string) : option string :=
  if negb (str_truthy gstin) || (strlen gstin <? 2) then None
  else Some (substring 0 2 gstin).

(** The cleaning step of [validateGSTINFormat]:
    [gstin.replace(/\s/g, '').toUpperCase()]. *)
Definition clean (gstin : string) : string :=
  toUpperCase (string_filter (fun c => negb (is_space c)) gstin).

Section Breakdown.
Context {num : Type} `{JsNumber num}.

#[local] Open Scope num_scope.

(** [Math.round(x * 100) / 100] *)
Definition round2 (x : num) : num :=
  Math_round_number (x * of_Z 100) / of_Z 100.

(** Calculate GST breakdown based on supplier and buyer locations *)
Definition calculateGST (amount gstRate : num) (supplierStateCode buyerStateCode : string)
  : GstBreakdown num :=
  let gstAmount := (amount * gstRate) / of_Z 100 in
  let isSameState := String.eqb supplierStateCode buyerStateCode in
  if isSameState then
    (* Intra-state: CGST + SGST *)
    let cgst := gstAmount / of_Z 2 in
    let sgst := gstAmount / of_Z 2 in
    mkBreakdown (round2 cgst) (round2 sgst) (of_Z 0) (round2 gstAmount)
                (round2 (amount + gstAmount)) true
  else
    (* Inter-state: IGST only *)
    mkBreakdown (of_Z 0) (of_Z 0) (round2 gstAmount) (round2 gstAmount)
                (round2 (amount + gstAmount)) false.

(** The default of the parameter [buyerGSTIN]:
    [process.env.COMPANY_GSTIN || '29AAAAA0000A1Z5']. *)
Definition default_buyerGSTIN (COMPANY_GSTIN : option string) : string :=
  match COMPANY_GSTIN with
  | Some s => if str_truthy s then s else "29AAAAA0000A1Z5"
  | None => "29AAAAA0000A1Z5"
  end.

(** Validate and calculate GST for invoice.  [buyerGSTIN] is [None] when
    the argument is left out. *)
Definition processInvoiceGST (COMPANY_GSTIN : option string)
    (subtotal gstRate : num) (supplierGSTIN : string) (buyerGSTIN : option string)
  : InvoiceGst num :=
  let buyerGSTIN :=
    match buyerGSTIN with
    | Some b => b
    | None => default_buyerGSTIN COMPANY_GSTIN
    end in
  (* Validate supplier GSTIN *)
  let supplierValidation := validateGSTINFormat supplierGSTIN in
  if negb (valid supplierValidation) then
    mkInvoiceGst false
      (Some ("Invalid supplier GSTIN: " ++ show_error (error supplierValidation)))
      None None None
  else
    (* Validate buyer GSTIN *)
    let buyerValidation := validateGSTINFormat buyerGSTIN in
    if negb (valid buyerValidation) then
      mkInvoiceGst false
        (Some ("Invalid buyer GSTIN: " ++ show_error (error buyerValidation)))
        None None None
    else
      match extractStateCode supplierGSTIN, extractStateCode buyerGSTIN,
            details supplierValidation, details buyerValidation with
      | Some supplierStateCode, Some buyerStateCode, Some ds, Some db =>
          let gstBreakdown := calculateGST subtotal gstRate supplierStateCode buyerStateCode in
          mkInvoiceGst true None (Some gstBreakdown)
                       (Some (stateName ds)) (Some (stateName db))
      | _, _, _, _ =>
          (* a non-null assertion on a missing prefix or missing details *)
          mkInvoiceGst false None None None None
      end.

End Breakdown.

End GstValidation.

(** ** The OCR service: validation with field-level confidence *)

Module Ocr.

Record Item {num : Type} := mkItem {
  name : string;
  hsnCode : option string;
  quantity : num;
  unitPrice : num;
  gstRate : num;
  amount : num
}.
Arguments Item : clear implicits.
Arguments mkItem {num}.

Record ExtractedInvoiceData {num : Type} := mkData {
  invoiceNumber : string;
  invoiceDate : string;
  supplierName : string;
  supplierGSTIN : option string;
  supplierAddress : option string;
  subtotal : num;
  cgst : option num;
  sgst : option num;
  igst : option num;
  totalAmount : num;
  items : list (Item num);
  confidence : num;
  rawText : option string
}.
Arguments ExtractedInvoiceData : clear implicits.
Arguments mkData {num}.

(** [fieldConfidence] *)
Module FC.
Record t := mk {
  invoiceNumber : Z;
  amounts : Z;
  items : Z;
  gstin : Z
}.
End FC.

Record ValidationResult := mkResult {
  valid : bool;
  errors : list string;
  warnings : list string;
  suggestions : list string;
  canAutoApprove : bool;
  confidenceScore : Z;
  fieldConfidence : FC.t
}.

(** The host's [Date] under the time zone of the process:
    [Date_parse s] is the time value of [new Date(s)], [None] when it is
    [NaN]; [Date_getFullYear t] is the year of [t] in local time;
    [Date_setFullYear t y] is the time value after [setFullYear(y)], which
    keeps the local month, day and time of day. *)
Record Zone := mkZone {
  Date_parse : string -> option Z;
  Date_getFullYear : Z -> Z;
  Date_setFullYear : Z -> Z -> Z
}.

(** What [validateInvoiceData] reads from its surroundings: two readings
    of the clock ([today] and the [new Date()] from which [oneYearAgo]
    is made), in milliseconds, [process.env.COMPANY_STATE_CODE], and the
    time zone of the process, through the [Date] of the host. *)
Record Ambient := mkAmbient {
  today : Z;
  oneYearAgo_base : Z;
  COMPANY_STATE_CODE : option string;
  zone : Zone
}.

(** The host's [Number.prototype.toFixed], which reads nothing from the
    surroundings. *)
Record Host {num : Type} := mkHost {
  toFixed2 : num -> string
}.
Arguments Host : clear implicits.
Arguments mkHost {num}.

(** The locals that the function mutates. *)
Module Locals.
Record state := make {
  errors : list string;
  warnings : list string;
  suggestions : list string;
  fieldConfidence : FC.t
}.
End Locals.

Definition push_error (msg : string) (st : Locals.state) : Locals.state :=
  Locals.make (Locals.errors st ++ [msg]) (Locals.warnings st)
            (Locals.suggestions st) (Locals.fieldConfidence st).
Definition push_warning (msg : string) (st : Locals.state) : Locals.state :=
  Locals.make (Locals.errors st) (Locals.warnings st ++ [msg])
            (Locals.suggestions st) (Locals.fieldConfidence st).
Definition push_suggestion (msg : string) (st : Locals.state) : Locals.state :=
  Locals.make (Locals.errors st) (Locals.warnings st)
            (Locals.suggestions st ++ [msg]) (Locals.fieldConfidence st).
Definition set_fc (f : FC.t -> FC.t) (st : Locals.state) : Locals.state :=
  Locals.make (Locals.errors st) (Locals.warnings st)
            (Locals.suggestions st) (f (Locals.fieldConfidence st)).

Definition set_invoiceNumber (v : Z) : Locals.state -> Locals.state :=
  set_fc (fun fc => FC.mk v (FC.amounts fc) (FC.items fc) (FC.gstin fc)).
Definition set_amounts (v : Z) : Locals.state -> Locals.state :=
  set_fc (fun fc => FC.mk (FC.invoiceNumber fc) v (FC.items fc) (FC.gstin fc)).
Definition set_items (v : Z) : Locals.state -> Locals.state :=
  set_fc (fun fc => FC.mk (FC.invoiceNumber fc) (FC.amounts fc) v (FC.gstin fc)).
Definition set_gstin (v : Z) : Locals.state -> Locals.state :=
  set_fc (fun fc => FC.mk (FC.invoiceNumber fc) (FC.amounts fc) (FC.items fc) v).

Definition empty_locals : Locals.state := Locals.make [] [] [] (FC.mk 0 0 0 0).

(** [/^[A-Z0-9\-\/]{3,30}$/i] *)
Definition invoiceNumberRegex (s : string) : bool :=
  (3 <=? strlen s) && (strlen s <=? 30) &&
  string_forallb
    (fun c => is_upper c || is_lower c || is_digit c
              || (code c =? 45) || (code c =? 47)) s.

(** The text of [${x}] for an optional string. *)
Definition show_opt (x : option string) : string :=
  match x with
  | Some s => s
  | None => "undefined"
  end.

Section Validate.
Context {num : Type} `{JsNumber num}.
Variable host : Host num.
Variable amb : Ambient.

#[local] Open Scope num_scope.

(* Invoice Number Validation *)
Definition check_invoiceNumber (data : ExtractedInvoiceData num) (st : Locals.state) : Locals.state :=
  if negb (str_truthy (invoiceNumber data)) then
    set_invoiceNumber 0 (push_error "Invoice number is missing" st)
  else if invoiceNumberRegex (invoiceNumber data) then
    set_invoiceNumber 95 st
  else
    push_warning "Invoice number format is unusual - please verify"
      (set_invoiceNumber 60 st).

(* Date Validation *)
Definition check_date (data : ExtractedInvoiceData num) (st : Locals.state) : Locals.state :=
  if negb (str_truthy (invoiceDate data)) then
    push_error "Invoice date is missing" st
  else
    let invoiceDate := Date_parse (zone amb) (invoiceDate data) in
    let today := today amb in
    let oneYearAgo :=
      Date_setFullYear (zone amb) (oneYearAgo_base amb)
                       (Date_getFullYear (zone amb) today - 1)%Z in
    match invoiceDate with
    | None => push_error "Invalid invoice date format" st
    | Some t =>
        if (today <? t)%Z then push_warning "Invoice date is in the future" st
        else if (t <? oneYearAgo)%Z then push_warning "Invoice is more than 1 year old" st
        else st
    end.

(* Supplier Validation *)
Definition check_supplier (data : ExtractedInvoiceData num) (st : Locals.state) : Locals.state :=
  if negb (str_truthy (supplierName data)) then
    push_error "Supplier name is missing" st
  else if (strlen (supplierName data) <? 3)%Z then
    push_warning "Supplier name seems too short" st
  else st.

Definition calculatedSubtotal (data : ExtractedInvoiceData num) : num :=
  fold_left (fun sum item => sum + or0 (amount item)) (items data) (of_Z 0).

Definition gstTotal (data : ExtractedInvoiceData num) : num :=
  opt_or0 (cgst data) + opt_or0 (sgst data) + opt_or0 (igst data).

Definition calculatedTotal (data : ExtractedInvoiceData num) : num :=
  calculatedSubtotal data + gstTotal data.

Definition subtotalDiff (data : ExtractedInvoiceData num) : num :=
  nabs (calculatedSubtotal data - subtotal data).

Definition totalDiff (data : ExtractedInvoiceData num) : num :=
  nabs (calculatedTotal data - totalAmount data).

Definition subtotal_warning (data : ExtractedInvoiceData num) : string :=
  "Subtotal mismatch: Calculated ₹" ++ toFixed2 host (calculatedSubtotal data)
    ++ ", Found ₹" ++ toFixed2 host (subtotal data).

Definition subtotal_error (data : ExtractedInvoiceData num) : string :=
  "Significant subtotal mismatch (₹" ++ toFixed2 host (subtotalDiff data)
    ++ " difference)".

Definition total_warning (data : ExtractedInvoiceData num) : string :=
  "Total amount mismatch: Calculated ₹" ++ toFixed2 host (calculatedTotal data)
    ++ ", Found ₹" ++ toFixed2 host (totalAmount data).

(** The guard [!data.totalAmount || data.totalAmount <= 0]. *)
Definition invalid_total (data : ExtractedInvoiceData num) : bool :=
  negb (truthy (totalAmount data)) || (totalAmount data <=? of_Z 0).

(* Amount Validation with precision *)
Definition check_amounts (data : ExtractedInvoiceData num) (st : Locals.state) : Locals.state :=
  if invalid_total data then
    set_amounts 0 (push_error "Invalid total amount" st)
  else
    let st1 :=
      if subtotalDiff data <=? of_Z 1 then
        set_amounts 95 st
      else if subtotalDiff data <=? of_Z 10 then
        push_warning (subtotal_warning data) (set_amounts 75 st)
      else
        push_error (subtotal_error data) (set_amounts 40 st) in
    if totalDiff data <=? of_Z 1 then
      set_amounts (Z.max (FC.amounts (Locals.fieldConfidence st1)) 90) st1
    else if totalDiff data >? of_Z 10 then
      push_warning (total_warning data) st1
    else st1.

Definition item_label (index : nat) : string :=
  "Item " ++ pretty (index + 1)%nat.

(** [if (cond) { push(msg); itemScore -= points; }] on the pair of
    [itemScore] and the locals. *)
Definition deduct (cond : bool) (points : Z) (push : Locals.state -> Locals.state)
    (acc : Z * Locals.state) : Z * Locals.state :=
  if cond then ((fst acc - points)%Z, push (snd acc)) else acc.

(** The body of [data.items.forEach((item, index) => ...)]. *)
Definition check_item (index : nat) (item : Item num) (acc : Z * Locals.state) : Z * Locals.state :=
  let acc :=
    deduct (negb (str_truthy (name item))) 20
           (push_error (item_label index ++ ": Name is missing")) acc in
  let acc :=
    deduct (negb (truthy (quantity item)) || (quantity item <=? of_Z 0)) 15
           (push_error (item_label index ++ ": Invalid quantity")) acc in
  let acc :=
    deduct (negb (truthy (unitPrice item)) || (unitPrice item <? of_Z 0)) 15
           (push_error (item_label index ++ ": Invalid unit price")) acc in
  let acc :=
    deduct (negb (opt_truthy (hsnCode item))) 5
           (push_warning (item_label index ++ ": HSN code missing")) acc in
  (* Verify item amount calculation *)
  let expectedAmount := quantity item * unitPrice item in
  deduct (nabs (expectedAmount - amount item) >? of_Z 1) 10
         (push_warning (item_label index ++ ": Amount calculation mismatch")) acc.

Fixpoint forEach_item (index : nat) (l : list (Item num)) (acc : Z * Locals.state) : Z * Locals.state :=
  match l with
  | [] => acc
  | item :: rest => forEach_item (S index) rest (check_item index item acc)
  end.

(* Items Validation *)
Definition check_items (data : ExtractedInvoiceData num) (st : Locals.state) : Locals.state :=
  if (Z.of_nat (length (items data)) =? 0)%Z then
    set_items 0 (push_error "No line items found" st)
  else
    let '(itemScore, st1) := forEach_item 0 (items data) (100%Z, st) in
    set_items (Z.max 0 itemScore) st1.

Definition hasGST (data : ExtractedInvoiceData num) : bool :=
  opt_or0 (cgst data) + opt_or0 (sgst data) + opt_or0 (igst data) >? of_Z 0.
Definition hasCGSTSGST (data : ExtractedInvoiceData num) : bool :=
  (opt_or0 (cgst data) >? of_Z 0) || (opt_or0 (sgst data) >? of_Z 0).
Definition hasIGST (data : ExtractedInvoiceData num) : bool :=
  opt_or0 (igst data) >? of_Z 0.

(* GST Validation *)
Definition check_gst (data : ExtractedInvoiceData num) (st : Locals.state) : Locals.state :=
  let st :=
    if negb (hasGST data) then
      push_suggestion
        "If this is a GST invoice, check if GST amounts were clearly visible in the image"
        (push_warning "No GST amount found - verify if this is a GST invoice" st)
    else st in
  (* CGST + SGST should equal IGST (only one type should be present) *)
  if hasCGSTSGST data && hasIGST data then
    push_suggestion "For intra-state: Use CGST+SGST. For inter-state: Use IGST only"
      (push_warning "Both CGST/SGST and IGST present - should be one or the other" st)
  else st.

(** [process.env.COMPANY_STATE_CODE || '29'] *)
Definition companyStateCode : string :=
  if opt_truthy (COMPANY_STATE_CODE amb) then show_opt (COMPANY_STATE_CODE amb)
  else "29".

(* GSTIN validation *)
Definition check_gstin (data : ExtractedInvoiceData num) (st : Locals.state) : Locals.state :=
  if opt_truthy (supplierGSTIN data) then
    let gstinValidation :=
      GstValidation.validateGSTINFormat (show_opt (supplierGSTIN data)) in
    if GstValidation.valid gstinValidation then
      let st := set_gstin 95 st in
      (* Cross-verify GST type with state codes *)
      match GstValidation.details gstinValidation with
      | Some details =>
          let supplierStateCode := GstValidation.stateCode details in
          let isSameState := String.eqb companyStateCode supplierStateCode in
          if isSameState && hasIGST data && negb (hasCGSTSGST data) then
            push_warning "Intra-state transaction should use CGST+SGST, not IGST" st
          else if negb isSameState && hasCGSTSGST data && negb (hasIGST data) then
            push_warning "Inter-state transaction should use IGST, not CGST+SGST" st
          else st
      | None => st
      end
    else
      push_suggestion
        "Verify GSTIN manually or request corrected invoice from supplier"
        (push_warning
           ("Invalid GSTIN format: " ++ show_opt (GstValidation.error gstinValidation))
           (set_gstin 30 st))
  else
    push_suggestion
      "GSTIN is required for GST compliance - contact supplier for details"
      (push_warning "Supplier GSTIN not found" (set_gstin 0 st)).

(** The locals after all field checks, in source order. *)
Definition run_checks (data : ExtractedInvoiceData num) : Locals.state :=
  check_gstin data
    (check_gst data
       (check_items data
          (check_amounts data
             (check_supplier data
                (check_date data
                   (check_invoiceNumber data empty_locals)))))).

(* Overall confidence calculation *)
Definition weighted_sum (fc : FC.t) : num :=
  of_Z (FC.invoiceNumber fc) * decimal 2 10
  + of_Z (FC.amounts fc) * decimal 35 100
  + of_Z (FC.items fc) * decimal 3 10
  + of_Z (FC.gstin fc) * decimal 15 100.

Definition overallConfidence (fc : FC.t) : Z := Math_round (weighted_sum fc).

(* Auto-approval decision *)
Definition auto_approval (data : ExtractedInvoiceData num) (st : Locals.state) : bool :=
  (Z.of_nat (length (Locals.errors st)) =? 0)%Z
  && (85 <=? overallConfidence (Locals.fieldConfidence st))%Z
  && (confidence data >=? of_Z 85)
  && (90 <=? FC.amounts (Locals.fieldConfidence st))%Z
  && (80 <=? FC.items (Locals.fieldConfidence st))%Z.

Definition validateInvoiceData (data : ExtractedInvoiceData num) : ValidationResult :=
  let st := run_checks data in
  let overallConfidence := overallConfidence (Locals.fieldConfidence st) in
  let canAutoApprove := auto_approval data st in
  let st' :=
    if canAutoApprove then
      push_suggestion "This invoice meets criteria for auto-approval" st
    else if (Z.of_nat (length (Locals.errors st)) =? 0)%Z then
      push_suggestion "Manual review recommended before approval" st
    else st in
  {| valid := (Z.of_nat (length (Locals.errors st')) =? 0)%Z;
     errors := Locals.errors st';
     warnings := Locals.warnings st';
     suggestions := Locals.suggestions st';
     canAutoApprove := canAutoApprove;
     confidenceScore := overallConfidence;
     fieldConfidence := Locals.fieldConfidence st' |}.

End Validate.

(** *** Vocabulary for the statements about validation *)

(** Messages are only appended. *)
Definition grows (st st' : Locals.state) : Prop :=
  (forall m, In m (Locals.errors st) -> In m (Locals.errors st'))
  /\ (forall m, In m (Locals.warnings st) -> In m (Locals.warnings st')).

(** Two surroundings in which [new Date(data.invoiceDate)] is a date,
    or in which it is none. *)
Definition same_reading {num} (amb1 amb2 : Ambient) (data : ExtractedInvoiceData num) : Prop :=
  is_Some (Date_parse (zone amb1) (invoiceDate data))
  <-> is_Some (Date_parse (zone amb2) (invoiceDate data)).

(** The locals without the warnings. *)
Definition core (st : Locals.state) : list string * list string * FC.t :=
  (Locals.errors st, Locals.suggestions st, Locals.fieldConfidence st).

(** 100 times the exact weighted sum of the four scores. *)
Definition exact_weight (fc : FC.t) : Z :=
  20 * FC.invoiceNumber fc + 35 * FC.amounts fc + 30 * FC.items fc + 15 * FC.gstin fc.

(** On binary64, the score of [fc] is an integer at most one half away
    from the exact weighted sum, between 0 and 100. *)
Definition score_ok (fc : FC.t) : bool :=
  let s := overallConfidence (num := float) fc in
  (Z.abs (100 * s - exact_weight fc) <=? 50) && (0 <=? s) && (s <=? 100).

(** Every combination of field scores that the checks can produce. *)
Definition score_table : list FC.t :=
  flat_map (fun a =>
    flat_map (fun b =>
      flat_map (fun c =>
        map (fun d => FC.mk a b c d) [0; 30; 95])
        (map Z.of_nat (seq 0 101)))
      [0; 40; 75; 90; 95])
    [0; 60; 95].

(** *** Correction suggestions and the duplicate check *)

(** A value of type [any] of a suggestion. *)
Inductive Value {num : Type} :=
| VString (s : string)
| VNumber (n : num)
| VNull.
Arguments Value : clear implicits.

Module Correction.
Record t {num : Type} := mk {
  field : string;
  originalValue : Value num;
  suggestedValue : Value num;
  reason : string;
  confidence : Z
}.
Arguments t : clear implicits.
Arguments mk {num}.
End Correction.

(** The answer of the database to the query of [checkDuplicateInvoice],
    which is handed its [prisma]: [purchaseBill_findFirst] for the bill
    with an invoice number and a supplier whose name contains a text. *)
Record Prisma {Bill : Type} := mkPrisma {
  purchaseBill_findFirst : string -> string -> option Bill
}.
Arguments Prisma : clear implicits.
Arguments mkPrisma {Bill}.

Record DuplicateCheck {Bill : Type} := mkDuplicateCheck {
  isDuplicate : bool;
  existingInvoice : option Bill
}.
Arguments DuplicateCheck : clear implicits.
Arguments mkDuplicateCheck {Bill}.

(** In [generateCorrectionSuggestions] the name [prisma] is not bound:
    the module neither imports nor declares it, and the function has no
    such parameter.  Evaluating it throws this [ReferenceError], which
    rejects the promise of the [async] function. *)
Definition prisma_is_not_defined : string := "prisma is not defined".

Section Corrections.
Context {num : Type} `{JsNumber num} {Bill : Type}.

#[local] Open Scope num_scope.

(* Detect duplicate invoices *)
Definition checkDuplicateInvoice (invoiceNumber supplierName : string)
    (prisma : Prisma Bill) : DuplicateCheck Bill :=
  let existing := purchaseBill_findFirst prisma invoiceNumber supplierName in
  mkDuplicateCheck (bool_decide (is_Some existing)) existing.

(* Suggest GSTIN correction if invalid *)
Definition suggest_gstin (data : ExtractedInvoiceData num) (validation : ValidationResult)
    (suggestions : list (Correction.t num)) : Outcome (list (Correction.t num)) :=
  let gstin := FC.gstin (fieldConfidence validation) in
  if opt_truthy (supplierGSTIN data) && negb (gstin =? 0)%Z && (gstin <? 80)%Z then
    (* Try to find similar valid GSTIN from existing suppliers:
       [prisma.supplier.findMany] is never reached *)
    Rejected prisma_is_not_defined
  else Resolved suggestions.

(** The total that [generateCorrectionSuggestions] computes: the line
    amounts are added as they are, without [|| 0]. *)
Definition suggested_total (data : ExtractedInvoiceData num) : num :=
  let calculatedSubtotal :=
    fold_left (fun sum item => sum + amount item) (items data) (of_Z 0) in
  let gstTotal := opt_or0 (cgst data) + opt_or0 (sgst data) + opt_or0 (igst data) in
  calculatedSubtotal + gstTotal.

(* Suggest amount corrections *)
Definition suggest_amounts (data : ExtractedInvoiceData num) (validation : ValidationResult)
    (suggestions : list (Correction.t num)) : list (Correction.t num) :=
  let amounts := FC.amounts (fieldConfidence validation) in
  if negb (amounts =? 0)%Z && (amounts <? 90)%Z then
    let calculatedTotal := suggested_total data in
    if nabs (calculatedTotal - totalAmount data) >? of_Z 1 then
      suggestions ++
      [Correction.mk "totalAmount"
         (VNumber (totalAmount data))
         (VNumber calculatedTotal)
         "Calculated from line items and GST amounts"
         85]
    else suggestions
  else suggestions.

(** The loop over [data.items]: the first item without an HSN code
    brings the loop to [prisma.product.findFirst], which is never
    reached. *)
Fixpoint suggest_hsn (l : list (Item num))
    (suggestions : list (Correction.t num)) : Outcome (list (Correction.t num)) :=
  match l with
  | [] => Resolved suggestions
  | item :: rest =>
      if negb (opt_truthy (hsnCode item)) then Rejected prisma_is_not_defined
      else suggest_hsn rest suggestions
  end.

(* Generate intelligent correction suggestions *)
Definition generateCorrectionSuggestions (data : ExtractedInvoiceData num)
    (validation : ValidationResult) : Outcome (list (Correction.t num)) :=
  match suggest_gstin data validation [] with
  | Resolved suggestions =>
      suggest_hsn (items data) (suggest_amounts data validation suggestions)
  | Rejected message => Rejected message
  end.

End Corrections.

(** *** Vocabulary for the statements about the suggestions *)

(** The record sends the function to the database: its GSTIN is given
    and malformed, or one of its items has no HSN code. *)
Definition needs_database {num} (data : ExtractedInvoiceData num) : bool :=
  (opt_truthy (supplierGSTIN data)
   && negb (GstValidation.valid
              (GstValidation.validateGSTINFormat (show_opt (supplierGSTIN data)))))
  || existsb (fun item => negb (opt_truthy (hsnCode item))) (items data).

(** The declared total passes the guard of the amounts check, and the
    subtotals, the totals and the total recomputed without [|| 0] are
    all off by more than 1. *)
Definition total_is_off {num} `{JsNumber num} (data : ExtractedInvoiceData num) : bool :=
  negb (invalid_total data)
  && negb (subtotalDiff data <=? of_Z 1)%num
  && negb (totalDiff data <=? of_Z 1)%num
  && (nabs (suggested_total data - totalAmount data) >? of_Z 1)%num.

(** The suggestion for the total. *)
Definition total_correction {num} `{JsNumber num} (data : ExtractedInvoiceData num)
  : Correction.t num :=
  Correction.mk "totalAmount" (VNumber (totalAmount data)) (VNumber (suggested_total data))
                "Calculated from line items and GST amounts" 85.

End Ocr.

(** ** A concrete host for binary64: [toFixed(2)], and dates in zones
    without daylight saving *)

Module UtcHost.

Definition pad2 (n : Z) : string :=
  if n <? 10 then "0" ++ pretty n else pretty n.

(** [x.toFixed(2)] for [|x| < 1e21]: the integer [n] nearest to
    [|x| * 100] (the larger one on a tie), printed with two decimals. *)
Definition float_toFixed2 (x : float) : string :=
  match Prim2SF x with
  | S754_nan => "NaN"
  | S754_infinity s => if s then "-Infinity" else "Infinity"
  | S754_zero _ => "0.00"
  | S754_finite s m e =>
      let n :=
        if 0 <=? e then Z.pos m * 2 ^ e * 100
        else (2 * (Z.pos m * 100) + 2 ^ (- e)) / 2 ^ (1 - e) in
      (if s then "-" else "") ++ pretty (n / 100) ++ "." ++ pad2 (n mod 100)
  end.

(** Days since 1970-01-01 of a proleptic Gregorian date. *)
Definition days_from_civil (y m d : Z) : Z :=
  let y' := if m <=? 2 then y - 1 else y in
  let era := y' / 400 in
  let yoe := y' - era * 400 in
  let doy := (153 * (m + (if 2 <? m then -3 else 9)) + 2) / 5 + d - 1 in
  let doe := yoe * 365 + yoe / 4 - yoe / 100 + doy in
  era * 146097 + doe - 719468.

(** Year, month and day of a number of days since 1970-01-01. *)
Definition civil_from_days (z : Z) : Z * Z * Z :=
  let z := z + 719468 in
  let era := z / 146097 in
  let doe := z - era * 146097 in
  let yoe := (doe - doe / 1460 + doe / 36524 - doe / 146096) / 365 in
  let doy := doe - (365 * yoe + yoe / 4 - yoe / 100) in
  let mp := (5 * doy + 2) / 153 in
  let d := doy - (153 * mp + 2) / 5 + 1 in
  let m := mp + (if mp <? 10 then 3 else -9) in
  let y := yoe + era * 400 + (if m <=? 2 then 1 else 0) in
  (y, m, d).

Definition msPerDay : Z := 86400000.

Definition is_dash (c : ascii) : bool := code c =? 45.

(** [new Date(s)] for a date-only string [YYYY-MM-DD], which is read as
    midnight UTC in every zone; a day up to 31 beyond the end of its
    month runs over into the next month.  Anything else is an invalid
    date for this host. *)
Definition parse (s : string) : option Z :=
  if match_classes
       (replicate 4 is_digit ++ [is_dash] ++ replicate 2 is_digit
        ++ [is_dash] ++ replicate 2 is_digit) s
  then
    let y := digits_val 0 (substring 0 4 s) in
    let m := digits_val 0 (substring 5 7 s) in
    let d := digits_val 0 (substring 8 10 s) in
    if (1 <=? m) && (m <=? 12) && (1 <=? d) && (d <=? 31)
    then Some (days_from_civil y m d * msPerDay)
    else None
  else None.

(** Local time in a zone that is always [offset] milliseconds ahead of
    UTC. *)
Definition getFullYear (offset t : Z) : Z :=
  let '(y, _, _) := civil_from_days ((t + offset) / msPerDay) in y.

Definition setFullYear (offset t y : Z) : Z :=
  let '(_, m, d) := civil_from_days ((t + offset) / msPerDay) in
  days_from_civil y m d * msPerDay + (t + offset) mod msPerDay - offset.

Definition fixed_zone (offset : Z) : Ocr.Zone :=
  Ocr.mkZone parse (getFullYear offset) (setFullYear offset).

(** [TZ=UTC], and [TZ=Asia/Kolkata], five and a half hours ahead. *)
Definition utc : Ocr.Zone := fixed_zone 0.
Definition kolkata : Ocr.Zone := fixed_zone 19800000.

Definition host : Ocr.Host float := Ocr.mkHost float_toFixed2.

End UtcHost.

(** ** The template service (class [InvoiceTemplateService]) *)

Module TemplateService.

Inductive GstType := CGST_SGST | IGST | BOTH.

Definition GstType_eqb (a b : GstType) : bool :=
  match a, b with
  | CGST_SGST, CGST_SGST | IGST, IGST | BOTH, BOTH => true
  | _, _ => false
  end.

Definition show_GstType (g : GstType) : string :=
  match g with
  | CGST_SGST => "CGST_SGST"
  | IGST => "IGST"
  | BOTH => "BOTH"
  end.

Record Patterns {num : Type} := mkPatterns {
  invoiceNumberFormat : option string;
  dateFormats : list string;
  commonHSNCodes : list string;
  commonItemNames : list string;
  avgItemCount : option num;     (* a number, or null *)
  avgTotalAmount : option num;
  gstType : GstType
}.
Arguments Patterns : clear implicits.
Arguments mkPatterns {num}.

Record Statistics {num : Type} := mkStatistics {
  totalInvoicesProcessed : Z;
  lastUpdated : Z;
  accuracyRate : option num
}.
Arguments Statistics : clear implicits.
Arguments mkStatistics {num}.

Record InvoiceTemplate {num : Type} := mkTemplate {
  supplierId : string;
  supplierName : string;
  patterns : Patterns num;
  statistics : Statistics num
}.
Arguments InvoiceTemplate : clear implicits.
Arguments mkTemplate {num}.

(** The two places a template lives in: the Redis cache, keyed by
    [cachePrefix + supplierId], and the [metadata.invoiceTemplate] of a
    row of the supplier table ([Some None]: a row without a template).
    Both hold JSON: see [JSON_template] below. *)
Record Store {num : Type} := mkStore {
  redis : gmap string (InvoiceTemplate num);
  suppliers : gmap string (option (InvoiceTemplate num))
}.
Arguments Store : clear implicits.
Arguments mkStore {num}.

(** What the surroundings decide for the requests of one call of
    [getTemplate] or [saveTemplate]: the keys of the cache that have run
    out (they are set for 24 hours) since the call before, whether the
    Redis client answers [get] and [setex] (without a connection it
    rejects, and the mock client of config/redis has no [setex] at all),
    and whether the database answers the requests on the [metadata] of
    a supplier (it rejects them when the table has no such column, as
    the table that the first migration creates). *)
Record Conditions := mkConditions {
  expired : list string;
  get_answers : bool;
  setex_answers : bool;
  database_answers : bool
}.

(** A count in the table of [updateCommonValues]: a number, or the text
    that [+ 1] makes of a function inherited from [Object.prototype],
    which is not a numeral. *)
Inductive Count :=
| Number (n : Z)
| Text.

(** The host's regular-expression engine, number formatting and
    [Array.prototype.sort]: [RegExp_test p s] is [new RegExp(p).test(s)];
    [Array_sort cmp l] is [l.sort(cmp)] for a comparator that gives
    [None] where the function of the source gives NaN. *)
Record Engine {num : Type} := mkEngine {
  RegExp_test : string -> string -> bool;
  toLocaleString_en_IN : num -> string;
  Array_sort : (string * Count -> string * Count -> option Z)
               -> list (string * Count) -> list (string * Count)
}.
Arguments Engine : clear implicits.
Arguments mkEngine {num}.

Record Report := mkReport {
  matches : bool;
  anomalies : list string;
  suggestions : list string;
  confidence : Z
}.

Definition cachePrefix : string := "invoice:template:".

(** *** [updateCommonValues] *)

(** A [Record<string, number>] made by [{}]: own properties in creation
    order. *)
Definition Frequency := list (string * Count).

(** What [Object.prototype] holds under a key: nothing, one of its
    methods, or the accessor [__proto__]. *)
Inductive Inherited := Absent | Method | Accessor.

Definition Object_prototype (key : string) : Inherited :=
  if String.eqb key "__proto__" then Accessor
  else if existsb (String.eqb key)
            [ "constructor"; "hasOwnProperty"; "isPrototypeOf"; "propertyIsEnumerable";
              "toLocaleString"; "toString"; "valueOf"; "__defineGetter__";
              "__defineSetter__"; "__lookupGetter__"; "__lookupSetter__" ]
  then Method
  else Absent.

(** [(c || 0) + 1] for an own property [c]: a text stays a text. *)
Definition increment (c : Count) : Count :=
  match c with
  | Number n => Number ((if n =? 0 then 0 else n) + 1)
  | Text => Text
  end.

(** [frequency[val] = (frequency[val] || 0) + 1].  A key that is not an
    own property is looked up in [Object.prototype]: a method there gives
    a text, which is stored; the getter of [__proto__] gives an object,
    and its setter ignores the text that is assigned. *)
Fixpoint bump (val : string) (frequency : Frequency) : Frequency :=
  match frequency with
  | [] =>
      match Object_prototype val with
      | Absent => [(val, Number 1)]
      | Method => [(val, Text)]
      | Accessor => []
      end
  | (k, c) :: rest =>
      if String.eqb k val then (k, increment c) :: rest
      else (k, c) :: bump val rest
  end.

(** Stable insertion sort: [before x y] says that [x] does not have to
    move behind [y]. *)
Section Sort.
Context {A : Type} (before : A -> A -> bool).

Fixpoint insert (x : A) (l : list A) : list A :=
  match l with
  | [] => [x]
  | y :: ys => if before x y then x :: y :: ys else y :: insert x ys
  end.

Fixpoint stable_sort (l : list A) : list A :=
  match l with
  | [] => []
  | x :: xs => insert x (stable_sort xs)
  end.
End Sort.

(** The stable sort by a comparator: [x] stays before [y] unless the
    comparator is positive on them. *)
Definition stable_sort_by {A : Type} (cmp : A -> A -> option Z) : list A -> list A :=
  stable_sort (fun x y => match cmp x y with Some v => v <=? 0 | None => true end).

(** A consistent comparator on the elements of [l], as ECMAScript
    defines it: never NaN, and such that [=], [<] and [>] by it are
    reflexive, symmetric and transitive as they should be. *)
Definition consistent {A : Type} (cmp : A -> A -> option Z) (l : list A) : Prop :=
  (forall a b, In a l -> In b l -> is_Some (cmp a b))
  /\ (forall a, In a l -> cmp a a = Some 0)
  /\ (forall a b, In a l -> In b l -> cmp a b = Some 0 -> cmp b a = Some 0)
  /\ (forall a b c u v w, In a l -> In b l -> In c l ->
        cmp a b = Some u -> cmp b c = Some v -> cmp a c = Some w ->
        (u = 0 -> v = 0 -> w = 0) /\ (u < 0 -> v < 0 -> w < 0) /\ (0 < u -> 0 < v -> 0 < w)).

(** What ECMAScript (since 2019) asks of [Array.prototype.sort]: with a
    consistent comparator the array is sorted, and stably.  With another
    comparator the order is left to the engine. *)
Definition sorts {num} (host : Engine num) : Prop :=
  forall cmp l, consistent cmp l -> Array_sort host cmp l = stable_sort_by cmp l.

(** The array index a property key denotes, if any: a canonical decimal
    numeral not above [2^32 - 2]. *)
Definition array_index (k : string) : option Z :=
  let v := digits_val 0 k in
  if str_truthy k && string_forallb is_digit k
     && (String.eqb k "0" || negb (String.prefix "0" k))
     && (v <=? 4294967294)
  then Some v else None.

Definition index_or_0 (e : string * Count) : Z :=
  match array_index (fst e) with
  | Some v => v
  | None => 0
  end.

(** [Object.entries(frequency)]: array-index keys in ascending numeric
    order, then the other keys in creation order. *)
Definition Object_entries (frequency : Frequency) : list (string * Count) :=
  stable_sort (fun x y => index_or_0 x <=? index_or_0 y)
    (List.filter (fun e => bool_decide (is_Some (array_index (fst e)))) frequency)
  ++ List.filter (fun e => negb (bool_decide (is_Some (array_index (fst e))))) frequency.

(** The table after "Count existing" and "Count new". *)
Definition count_values (existing newValues : list string) : Frequency :=
  let frequency := fold_left (fun fr val => bump val fr) existing [] in
  fold_left (fun fr val => if str_truthy val then bump val fr else fr)
            newValues frequency.

(** [([, a], [, b]) => b - a], which is NaN when one of the two is a
    text. *)
Definition by_frequency (x y : string * Count) : option Z :=
  match snd x, snd y with
  | Number a, Number b => Some (b - a)
  | _, _ => None
  end.

Section Common.
Context {num : Type} (host : Engine num).

(* Update common values list (keep most frequent) *)
Definition updateCommonValues (existing newValues : list string) (maxSize : nat) : list string :=
  map fst
      (take maxSize
            (Array_sort host by_frequency (Object_entries (count_values existing newValues)))).

End Common.

(** *** [extractInvoiceNumberPattern] *)

Definition flush_run (run : nat) : string :=
  match run with
  | O => ""
  | _ => "\d{" ++ pretty run ++ "}"
  end.

(** [.replace(/\d+/g, (match) => `\\d{${match.length}}`)] *)
Fixpoint replace_digit_runs (run : nat) (s : string) : string :=
  match s with
  | EmptyString => flush_run run
  | String c s' =>
      if is_digit c then replace_digit_runs (S run) s'
      else flush_run run ++ String c (replace_digit_runs 0 s')
  end.

(** The class [[.*+?^${}()|[\]\\]]. *)
Definition is_special (c : ascii) : bool :=
  existsb (fun k => code c =? k) [46; 42; 43; 63; 94; 36; 123; 125; 40; 41; 124; 91; 93; 92].

(** [.replace(/[.*+?^${}()|[\]\\]/g, '\\$&')] *)
Fixpoint escape_special (s : string) : string :=
  match s with
  | EmptyString => EmptyString
  | String c s' =>
      if is_special c then String "\"%char (String c (escape_special s'))
      else String c (escape_special s')
  end.

Definition extractInvoiceNumberPattern (invoiceNumber : string) : string :=
  escape_special (replace_digit_runs 0 invoiceNumber).

Section Service.
Context {num : Type} `{JsNumber num}.
Variable host : Engine num.

#[local] Open Scope num_scope.

(* Detect GST type from invoice data *)
Definition detectGSTType (data : Ocr.ExtractedInvoiceData num) : GstType :=
  let hasCGSTSGST :=
    (opt_or0 (Ocr.cgst data) >? of_Z 0) || (opt_or0 (Ocr.sgst data) >? of_Z 0) in
  let hasIGST := opt_or0 (Ocr.igst data) >? of_Z 0 in
  if hasCGSTSGST && hasIGST then BOTH
  else if hasCGSTSGST then CGST_SGST
  else if hasIGST then IGST
  else CGST_SGST.

(** What [JSON.stringify] keeps of a template: a number that is not
    finite becomes [null] (see [JSON_number]), texts and the integer
    count are kept, and the date becomes a text, which nothing reads. *)
Definition JSON_template (t : InvoiceTemplate num) : InvoiceTemplate num :=
  let p := patterns t in
  mkTemplate (supplierId t) (supplierName t)
    (mkPatterns (invoiceNumberFormat p) (dateFormats p) (commonHSNCodes p)
                (commonItemNames p) (avgItemCount p ≫= JSON_number)
                (avgTotalAmount p ≫= JSON_number) (gstType p))
    (mkStatistics (totalInvoicesProcessed (statistics t)) (lastUpdated (statistics t))
                  (accuracyRate (statistics t) ≫= JSON_number)).

(** The keys that have run out are gone. *)
Definition expire (c : Conditions) (st : Store num) : Store num :=
  mkStore (fold_right delete (redis st) (expired c)) (suppliers st).

(* Get template for supplier (from cache or DB) *)
Definition getTemplate (c : Conditions) (supplierId : string) (st : Store num)
  : option (InvoiceTemplate num) * Store num :=
  let st := expire c st in
  (* Try cache first *)
  if negb (get_answers c) then (None, st)   (* caught: a warning is logged *)
  else
    match redis st !! (cachePrefix ++ supplierId) with
    | Some cached => (Some cached, st)
    | None =>
        (* Fetch from database - stored as JSON in Supplier model *)
        if negb (database_answers c) then (None, st)
        else
          match suppliers st !! supplierId with
          | Some (Some template) =>
              (* Cache it *)
              if setex_answers c then
                (Some template,
                 mkStore (<[cachePrefix ++ supplierId := template]> (redis st))
                         (suppliers st))
              else (None, st)   (* caught as well: the template is not returned *)
          | _ => (None, st)
          end
    end.

(* Save template to database and cache *)
Definition saveTemplate (c : Conditions) (supplierId : string)
    (template : InvoiceTemplate num) (st : Store num) : Store num :=
  let st := expire c st in
  (* Save to database *)
  if negb (database_answers c) then st
  else
    match suppliers st !! supplierId with
    | Some _ =>
        let st :=
          mkStore (redis st) (<[supplierId := Some (JSON_template template)]> (suppliers st)) in
        (* Update cache *)
        if setex_answers c then
          mkStore (<[cachePrefix ++ supplierId := JSON_template template]> (redis st))
                  (suppliers st)
        else st   (* caught: the cache keeps what it had *)
    | None => st   (* no such row: the update throws, the error is logged *)
    end.

(** [invoiceData.items.map(i => i.hsnCode).filter(Boolean)] *)
Definition hsnCodes (data : Ocr.ExtractedInvoiceData num) : list string :=
  omap (fun i => if opt_truthy (Ocr.hsnCode i) then Ocr.hsnCode i else None)
       (Ocr.items data).

Definition itemCount (data : Ocr.ExtractedInvoiceData num) : num :=
  of_Z (Z.of_nat (length (Ocr.items data))).

(** The template made from the first invoice of a supplier. *)
Definition newTemplate (now : Z) (data : Ocr.ExtractedInvoiceData num)
    (supplierId : string) (wasAccurate : bool) : InvoiceTemplate num :=
  mkTemplate supplierId (Ocr.supplierName data)
    (mkPatterns
       (Some (extractInvoiceNumberPattern (Ocr.invoiceNumber data)))
       [] [] []
       (Some (itemCount data))
       (Some (Ocr.totalAmount data))
       (detectGSTType data))
    (mkStatistics 1 now (Some (if wasAccurate then of_Z 100 else of_Z 0))).

(** The update of an existing template. *)
Definition updateTemplate (now : Z) (data : Ocr.ExtractedInvoiceData num)
    (wasAccurate : bool) (template : InvoiceTemplate num) : InvoiceTemplate num :=
  let p := patterns template in
  let commonHSNCodes := updateCommonValues host (commonHSNCodes p) (hsnCodes data) 20 in
  let commonItemNames :=
    updateCommonValues host (commonItemNames p) (map Ocr.name (Ocr.items data)) 20 in
  (* Update averages (moving average) *)
  let count := totalInvoicesProcessed (statistics template) in
  let avgItemCount :=
    (ToNumber (avgItemCount p) * of_Z count + itemCount data) / of_Z (count + 1)%Z in
  let avgTotalAmount :=
    (ToNumber (avgTotalAmount p) * of_Z count + Ocr.totalAmount data)
    / of_Z (count + 1)%Z in
  (* Update accuracy rate *)
  let accuracyRate :=
    (ToNumber (accuracyRate (statistics template)) * of_Z count
     + (if wasAccurate then of_Z 100 else of_Z 0)) / of_Z (count + 1)%Z in
  mkTemplate (supplierId template) (supplierName template)
    (mkPatterns (invoiceNumberFormat p) (dateFormats p)
                commonHSNCodes commonItemNames (Some avgItemCount) (Some avgTotalAmount)
                (gstType p))
    (mkStatistics (count + 1)%Z now (Some accuracyRate)).

(* Learn from processed invoice to improve future extractions *)
Definition learnFromInvoice (reading writing : Conditions) (now : Z)
    (data : Ocr.ExtractedInvoiceData num) (supplierId : string) (wasAccurate : bool)
    (st : Store num) : Store num :=
  let '(found, st) := getTemplate reading supplierId st in
  let template :=
    match found with
    | None => newTemplate now data supplierId wasAccurate
    | Some template => updateTemplate now data wasAccurate template
    end in
  saveTemplate writing supplierId template st.

(** The locals of [validateAgainstTemplate]. *)
Record Locals := mkLocals {
  l_anomalies : list string;
  l_suggestions : list string;
  matchScore : Z
}.

Definition anomaly (msg : string) (penalty : Z) (st : Locals) : Locals :=
  mkLocals (l_anomalies st ++ [msg]) (l_suggestions st) (matchScore st - penalty)%Z.
Definition suggest (msg : string) (st : Locals) : Locals :=
  mkLocals (l_anomalies st) (l_suggestions st ++ [msg]) (matchScore st).

(* Check invoice number format *)
Definition check_format (template : InvoiceTemplate num)
    (data : Ocr.ExtractedInvoiceData num) (st : Locals) : Locals :=
  if opt_truthy (invoiceNumberFormat (patterns template)) then
    if negb (RegExp_test host (Ocr.show_opt (invoiceNumberFormat (patterns template)))
                         (Ocr.invoiceNumber data))
    then anomaly "Invoice number format differs from usual pattern" 10 st
    else st
  else st.

(* Check item count *)
Definition check_itemCount (template : InvoiceTemplate num)
    (data : Ocr.ExtractedInvoiceData num) (st : Locals) : Locals :=
  let avg := ToNumber (avgItemCount (patterns template)) in
  let itemCountDiff := nabs (itemCount data - avg) in
  if itemCountDiff >? avg * decimal 5 10 then
    anomaly ("Unusual item count: " ++ pretty (Z.of_nat (length (Ocr.items data)))
             ++ " items (avg: " ++ pretty (Math_round avg) ++ ")") 5 st
  else st.

(** [template.patterns.avgTotalAmount.toLocaleString] on [null]: a
    [TypeError], which rejects the promise of the function. *)
Definition toLocaleString_of_null : string :=
  "Cannot read properties of null (reading 'toLocaleString')".

(* Check total amount *)
Definition check_totalAmount (template : InvoiceTemplate num)
    (data : Ocr.ExtractedInvoiceData num) (st : Locals) : Outcome Locals :=
  let avg := ToNumber (avgTotalAmount (patterns template)) in
  let amountDiff := nabs (Ocr.totalAmount data - avg) in
  let amountPercent := amountDiff / avg * of_Z 100 in
  if amountPercent >? of_Z 50 then
    match avgTotalAmount (patterns template) with
    | Some avg =>
        Resolved
          (suggest "Verify the total amount - it differs significantly from past invoices"
             (anomaly ("Unusual total amount: ₹"
                       ++ toLocaleString_en_IN host (Ocr.totalAmount data)
                       ++ " (avg: ₹" ++ toLocaleString_en_IN host avg ++ ")") 15 st))
    | None => Rejected toLocaleString_of_null
    end
  else Resolved st.

(* Check GST type consistency *)
Definition check_gstType (template : InvoiceTemplate num)
    (data : Ocr.ExtractedInvoiceData num) (st : Locals) : Locals :=
  let currentGSTType := detectGSTType data in
  let expected := gstType (patterns template) in
  if negb (GstType_eqb expected BOTH) && negb (GstType_eqb currentGSTType expected) then
    suggest "Verify GST type - supplier location may have changed"
      (anomaly ("GST type changed: Expected " ++ show_GstType expected
                ++ ", found " ++ show_GstType currentGSTType) 10 st)
  else st.

(* Check for common HSN codes *)
Definition check_hsn (template : InvoiceTemplate num)
    (data : Ocr.ExtractedInvoiceData num) (st : Locals) : Locals :=
  let invoiceHSNCodes := hsnCodes data in
  let knownHSNs := commonHSNCodes (patterns template) in
  let hasCommonHSN :=
    existsb (fun code => existsb (String.eqb code) knownHSNs) invoiceHSNCodes in
  if (0 <? Z.of_nat (length knownHSNs))%Z && negb hasCommonHSN then
    suggest "This may be a new product category from this supplier"
      (anomaly "None of the HSN codes match previously seen codes from this supplier" 10 st)
  else st.

(* Check for common item names *)
Definition check_names (template : InvoiceTemplate num)
    (data : Ocr.ExtractedInvoiceData num) (st : Locals) : Locals :=
  let invoiceItemNames := map (fun i => toLowerCase (Ocr.name i)) (Ocr.items data) in
  let knownItems := map toLowerCase (commonItemNames (patterns template)) in
  let hasCommonItem :=
    existsb (fun name =>
               existsb (fun known => includes name known || includes known name) knownItems)
            invoiceItemNames in
  if (0 <? Z.of_nat (length knownItems))%Z && negb hasCommonItem then
    anomaly "Item names do not match typical products from this supplier" 15 st
  else st.

(* Generate suggestions based on template *)
Definition final_suggestions (template : InvoiceTemplate num) (st : Locals) : Locals :=
  let st :=
    if ToNumber (accuracyRate (statistics template)) <? of_Z 70 then
      suggest ("This supplier has "
               ++ pretty (Math_round (ToNumber (accuracyRate (statistics template))))
               ++ "% OCR accuracy - review carefully") st
    else st in
  if (Z.of_nat (length (l_anomalies st)) =? 0)%Z then
    suggest "Invoice matches expected patterns from this supplier" st
  else st.

(** The checks after the one of the total amount. *)
Definition later_checks (template : InvoiceTemplate num)
    (data : Ocr.ExtractedInvoiceData num) (st : Locals) : Locals :=
  final_suggestions template
    (check_names template data (check_hsn template data (check_gstType template data st))).

(** The locals after every check, in source order, from [matchScore = 100]. *)
Definition run_template_checks (template : InvoiceTemplate num)
    (data : Ocr.ExtractedInvoiceData num) : Outcome Locals :=
  let st := check_itemCount template data (check_format template data (mkLocals [] [] 100)) in
  match check_totalAmount template data st with
  | Resolved st => Resolved (later_checks template data st)
  | Rejected message => Rejected message
  end.

(* Predict and validate invoice data using learned templates *)
Definition validateAgainstTemplate (c : Conditions) (data : Ocr.ExtractedInvoiceData num)
    (supplierId : string) (st : Store num) : Outcome Report * Store num :=
  let '(found, st) := getTemplate c supplierId st in
  match found with
  | None =>
      (Resolved
         (mkReport true []
            ["No template available for this supplier - this is the first invoice"] 50),
       st)
  | Some template =>
      match run_template_checks template data with
      | Resolved l =>
          (Resolved
             (mkReport (Z.of_nat (length (l_anomalies l)) =? 0)%Z
                       (l_anomalies l) (l_suggestions l)
                       (Z.max 0 (Z.min 100 (matchScore l)))),
           st)
      | Rejected message => (Rejected message, st)
      end
  end.

End Service.

(** *** Vocabulary for the statements about templates *)

(** Every request of a call is answered. *)
Definition reliable (c : Conditions) : bool :=
  get_answers c && setex_answers c && database_answers c.

(** Nothing has run out and every request is answered. *)
Definition all_well : Conditions := mkConditions [] true true true.

(** No connection to Redis: the client rejects every request. *)
Definition redis_down : Conditions := mkConditions [] false false true.

(** A call of [learnFromInvoice]: the conditions under which it reads
    and writes the template, the time, the invoice and the accuracy
    flag. *)
Record Call {num : Type} := mkCall {
  call_reading : Conditions;
  call_writing : Conditions;
  call_now : Z;
  call_data : Ocr.ExtractedInvoiceData num;
  call_accurate : bool
}.
Arguments Call : clear implicits.
Arguments mkCall {num}.

Definition reliable_call {num} (c : Call num) : bool :=
  reliable (call_reading c) && reliable (call_writing c).

(** No template yet for the supplier, whose row exists. *)
Definition fresh {num} (sid : string) (st : Store num) : Prop :=
  redis st !! (cachePrefix ++ sid) = None /\ suppliers st !! sid = Some None.

Definition learn {num} `{JsNumber num} (host : Engine num) (sid : string) (c : Call num)
    (st : Store num) : Store num :=
  learnFromInvoice host (call_reading c) (call_writing c) (call_now c) (call_data c) sid
                   (call_accurate c) st.

(** Learning a sequence of invoices of one supplier, in order. *)
Definition replay {num} `{JsNumber num} (host : Engine num) (sid : string)
    (calls : list (Call num)) (st : Store num) : Store num :=
  fold_left (fun st c => learn host sid c st) calls st.

(** Any sequence of [learnFromInvoice] calls, each with its supplier. *)
Definition learn_all {num} `{JsNumber num} (host : Engine num)
    (calls : list (string * Call num)) (st : Store num) : Store num :=
  fold_left (fun st c => learn host (fst c) (snd c) st) calls st.

(** The moving average of the source, as the store keeps it:
    [(avg * n + v) / (n + 1)] from the average [avg] of [n] values. *)
Definition online_step {num} `{JsNumber num} (avg : option num) (n : Z) (v : num)
  : option num :=
  JSON_number ((ToNumber avg * of_Z n + v) / of_Z (n + 1))%num.

Fixpoint online_from {num} `{JsNumber num} (avg : option num) (n : Z) (vs : list num)
  : option num :=
  match vs with
  | [] => avg
  | v :: vs => online_from (online_step avg n v) (n + 1) vs
  end.

(** The moving average of [v1, ..., vk] from the first value on. *)
Definition online_mean {num} `{JsNumber num} (vs : list num) : option num :=
  match vs with
  | [] => None
  | v :: vs => online_from (JSON_number v) 1 vs
  end.

Definition Qsum (vs : list Q) : Q := fold_right Qplus 0%Q vs.


(** The total, the number of items and the accuracy (100 or 0) that a
    call brings to the averages. *)
Definition total_of {num} (c : Call num) : num := Ocr.totalAmount (call_data c).
Definition count_of {num} `{JsNumber num} (c : Call num) : num :=
  of_Z (Z.of_nat (length (Ocr.items (call_data c)))).
Definition accuracy_of {num} `{JsNumber num} (c : Call num) : num :=
  if call_accurate c then of_Z 100 else of_Z 0.

(** [l] is in descending order of [f]. *)
Definition ranked (f : string -> Z) (l : list string) : Prop :=
  StronglySorted (fun a b => f b <= f a) l.

(** How many times [v] occurs in [l]. *)
Definition occurrences (v : string) (l : list string) : Z :=
  Z.of_nat (length (List.filter (String.eqb v) l)).

(** The count that one call of [updateCommonValues] gives to [v]: its
    occurrences in the previous list plus its occurrences among the new
    (non-empty) values. *)
Definition merged_count (existing newValues : list string) (v : string) : Z :=
  occurrences v existing + occurrences v (List.filter str_truthy newValues).

(** A value that names no property of [Object.prototype]. *)
Definition plain (v : string) : bool :=
  match Object_prototype v with
  | Absent => true
  | _ => false
  end.

(** The number that a count is, [0] for a text. *)
Definition number_of (c : Count) : Z :=
  match c with
  | Number n => n
  | Text => 0
  end.

(** A table of numbers only. *)
Definition numeric (fr : Frequency) : Prop :=
  forall e, In e fr -> exists n, snd e = Number n.

(** The count of [key] in a frequency table. *)
Definition frequency_of (frequency : Frequency) (key : string) : Z :=
  match List.find (fun e => String.eqb (fst e) key) frequency with
  | Some e => number_of (snd e)
  | None => 0
  end.

(** How often an item name occurs in the invoices learned from. *)
Definition observed_names {num} (calls : list (Call num)) (v : string) : Z :=
  occurrences v (concat (map (fun c => map Ocr.name (Ocr.items (call_data c))) calls)).

Definition bounded {num} (t : InvoiceTemplate num) : Prop :=
  (length (commonHSNCodes (patterns t)) <= 20)%nat
  /\ (length (commonItemNames (patterns t)) <= 20)%nat.

(** Every stored template has frequency lists of at most 20 entries. *)
Definition store_bounded {num} (st : Store num) : Prop :=
  (forall k t, redis st !! k = Some t -> bounded t)
  /\ (forall k t, suppliers st !! k = Some (Some t) -> bounded t).

(** *** Supplier insights *)

Inductive Reliability := HIGH | MEDIUM | LOW.

Record Insights := mkInsights {
  reliability : Reliability;
  predictability : Z;
  recommendations : list string
}.

Section InsightsService.
Context {num : Type} `{JsNumber num}.

#[local] Open Scope num_scope.

(** The branch "Determine reliability". *)
Definition determine_reliability (template : InvoiceTemplate num) : Reliability * list string :=
  if ToNumber (accuracyRate (statistics template)) >=? of_Z 90 then
    (HIGH, ["High OCR accuracy - invoices from this supplier can be auto-approved"])
  else if ToNumber (accuracyRate (statistics template)) >=? of_Z 70 then
    (MEDIUM, ["Moderate accuracy - quick review recommended"])
  else
    (LOW, ["Low accuracy - thorough manual review required"]).

(** Predictability score; [Math.min(100, n * 5)] is taken on the integer
    [n]. *)
Definition predictability_score (template : InvoiceTemplate num) : Z :=
  Math_round
    (ToNumber (accuracyRate (statistics template)) * decimal 6 10
     + of_Z (Z.min 100 (totalInvoicesProcessed (statistics template) * 5)) * decimal 4 10).

(* Get supplier insights based on learned templates *)
Definition getSupplierInsights (c : Conditions) (supplierId : string) (st : Store num)
  : Insights * Store num :=
  let '(found, st) := getTemplate c supplierId st in
  match found with
  | None =>
      (mkInsights LOW 0
         ["Insufficient data - process more invoices to build supplier profile"],
       st)
  | Some template =>
      let '(reliability, recommendations) := determine_reliability template in
      let predictability := predictability_score template in
      let recommendations :=
        if (totalInvoicesProcessed (statistics template) <? 5)%Z then
          (recommendations ++ ["Limited history - insights will improve with more invoices"])%list
        else recommendations in
      (mkInsights reliability predictability recommendations, st)
  end.

End InsightsService.

(** *** Vocabulary for the statements about the cache and the learned format *)

(** The cache holds nothing but what the supplier table holds: for one
    supplier, and for all. *)
Definition coherent_at {num} (sid : string) (st : Store num) : Prop :=
  forall t, redis st !! (cachePrefix ++ sid) = Some t -> suppliers st !! sid = Some (Some t).

Definition coherent {num} (st : Store num) : Prop :=
  forall sid, coherent_at sid st.

(** A writing that does not update the table without the cache. *)
Definition whole (writing : Conditions) : bool :=
  negb (database_answers writing) || setex_answers writing.

(** The table is updated and the cache is not. *)
Definition table_only : Conditions := mkConditions [] true false true.

(** What the supplier table holds for a supplier. *)
Definition stored {num} (sid : string) (st : Store num) : option (InvoiceTemplate num) :=
  match suppliers st !! sid with
  | Some (Some t) => Some t
  | _ => None
  end.

(** What a call of [learnFromInvoice] saves when it has found [found]. *)
Definition learned_template {num} `{JsNumber num} (host : Engine num) (sid : string)
    (c : Call num) (found : option (InvoiceTemplate num)) : InvoiceTemplate num :=
  JSON_template
    match found with
    | None => newTemplate (call_now c) (call_data c) sid (call_accurate c)
    | Some t => updateTemplate host (call_now c) (call_data c) (call_accurate c) t
    end.


(** An engine that reads a text in which every special character is
    escaped as that text: the pattern [escape_special lit] is found in
    [s] exactly when [lit] occurs in [s]. *)
Definition literal_engine {num} (host : Engine num) : Prop :=
  forall lit s, RegExp_test host (escape_special lit) s = includes s lit.

(** The text that an escaped pattern stands for. *)
Fixpoint unescape (p : string) : string :=
  match p with
  | EmptyString => EmptyString
  | String c q =>
      match q with
      | EmptyString => p
      | String d p' => if code c =? 92 then String d (unescape p') else String c (unescape q)
      end
  end.

Definition has_digit (s : string) : bool :=
  negb (string_forallb (fun c => negb (is_digit c)) s).

Definition no_backslash (s : string) : bool :=
  string_forallb (fun c => negb (code c =? 92)) s.

(** The number of calls flagged as accurate. *)
Definition accurate_count {num} (calls : list (Call num)) : Z :=
  Z.of_nat (length (List.filter call_accurate calls)).

(** The number of characters of [s] that are not digits. *)
Fixpoint nondigits (s : string) : nat :=
  match s with
  | EmptyString => 0
  | String c s' => if is_digit c then nondigits s' else S (nondigits s')
  end.

End TemplateService.

(** ** The invoice queue (class [InvoiceQueue]) *)

Module InvoiceQueue.

Inductive Status := PENDING | PROCESSING | COMPLETED | FAILED.

Definition Status_eqb (a b : Status) : bool :=
  match a, b with
  | PENDING, PENDING | PROCESSING, PROCESSING
  | COMPLETED, COMPLETED | FAILED, FAILED => true
  | _, _ => false
  end.

(** A job; [R] is the type of [result]. *)
Record QueueJob {R : Type} := mkJob {
  id : string;
  filePath : string;
  fileName : string;
  userId : string;
  status : Status;
  progress : Z;
  result : option R;
  error : option string;
  createdAt : Z;
  completedAt : option Z
}.
Arguments QueueJob : clear implicits.
Arguments mkJob {R}.

(** A suspended [async] call: [processJob] waiting for
    [processInvoice(job.filePath, true)], [processQueue] waiting for
    [Promise.allSettled] of a batch, or for its 500 ms timer. *)
Inductive Await :=
| AwaitExtraction (job : nat)
| AwaitBatch (jobs : list nat)
| AwaitTimer.

(** The queue object and what it acts on.  Jobs are objects shared
    between [this.queue] and the arrays and closures of [processQueue] and
    [processJob]: [heap] holds them by reference, [queue] is the array of
    references.  [files] is the set of paths in the upload directory. *)
Record State {R : Type} := mkState {
  heap : gmap nat (QueueJob R);
  next_ref : nat;
  queue : list nat;
  processing : bool;
  maxConcurrent : Z;
  activeJobs : Z;
  files : gset string;
  awaiting : list Await
}.
Arguments State : clear implicits.
Arguments mkState {R}.

Section Queue.
Context {R : Type}.

(** [new InvoiceQueue()] over the files [fs]. *)
Definition init (fs : gset string) : State R :=
  mkState ∅ 0 [] false 3 0 fs [].

(** Modelled from the spec: [deleteFile] of [config/upload], which is
    not among the sources; it "delete[s] the temp upload". *)
Definition deleteFile (path : string) (st : State R) : State R :=
  mkState (heap st) (next_ref st) (queue st) (processing st) (maxConcurrent st)
          (activeJobs st) (files st ∖ {[path]}) (awaiting st).

(** Assignment to fields of the job object at [ref]. *)
Definition update_job (ref : nat) (f : QueueJob R -> QueueJob R) (st : State R) : State R :=
  mkState (alter f ref (heap st)) (next_ref st) (queue st) (processing st)
          (maxConcurrent st) (activeJobs st) (files st) (awaiting st).

Definition set_status (s : Status) (j : QueueJob R) : QueueJob R :=
  mkJob (id j) (filePath j) (fileName j) (userId j) s (progress j)
        (result j) (error j) (createdAt j) (completedAt j).
Definition set_progress (p : Z) (j : QueueJob R) : QueueJob R :=
  mkJob (id j) (filePath j) (fileName j) (userId j) (status j) p
        (result j) (error j) (createdAt j) (completedAt j).
Definition set_error (e : option string) (j : QueueJob R) : QueueJob R :=
  mkJob (id j) (filePath j) (fileName j) (userId j) (status j) (progress j)
        (result j) e (createdAt j) (completedAt j).
Definition set_completedAt (t : option Z) (j : QueueJob R) : QueueJob R :=
  mkJob (id j) (filePath j) (fileName j) (userId j) (status j) (progress j)
        (result j) (error j) (createdAt j) t.

Definition set_processing (b : bool) (st : State R) : State R :=
  mkState (heap st) (next_ref st) (queue st) b (maxConcurrent st)
          (activeJobs st) (files st) (awaiting st).
Definition set_activeJobs (n : Z) (st : State R) : State R :=
  mkState (heap st) (next_ref st) (queue st) (processing st) (maxConcurrent st)
          n (files st) (awaiting st).
Definition suspend (a : Await) (st : State R) : State R :=
  mkState (heap st) (next_ref st) (queue st) (processing st) (maxConcurrent st)
          (activeJobs st) (files st) (awaiting st ++ [a]).

(** [job.status === s] for the job at [ref]. *)
Definition has_status (st : State R) (s : Status) (ref : nat) : bool :=
  match heap st !! ref with
  | Some j => Status_eqb (status j) s
  | None => false
  end.

Definition has_id (st : State R) (jobId : string) (ref : nat) : bool :=
  match heap st !! ref with
  | Some j => String.eqb (id j) jobId
  | None => false
  end.

(** [l.slice(0, e)] *)
Definition slice0 {A : Type} (e : Z) (l : list A) : list A :=
  let len := Z.of_nat (length l) in
  take (Z.to_nat (if e <? 0 then Z.max (len + e) 0 else Z.min e len)) l.

(** [processJob(job)] up to its first [await]. *)
Definition processJob (ref : nat) (st : State R) : State R :=
  let st := set_activeJobs (activeJobs st + 1) st in
  let st := update_job ref (set_status PROCESSING) st in
  let st := update_job ref (set_progress 10) st in
  (* Step 1: OCR extraction *)
  let st := update_job ref (set_progress 20) st in
  suspend (AwaitExtraction ref) st.

(** [processQueue()] up to its first [await]. *)
Definition processQueue (st : State R) : State R :=
  let st := set_processing true st in
  if existsb (has_status st PENDING) (queue st) || (0 <? activeJobs st) then
    (* Find pending jobs up to max concurrent limit *)
    let pendingJobs :=
      slice0 (maxConcurrent st - activeJobs st)
             (List.filter (has_status st PENDING) (queue st)) in
    if Z.of_nat (length pendingJobs) =? 0 then
      (* Wait a bit before checking again *)
      suspend AwaitTimer st
    else
      (* Process jobs concurrently *)
      let st := fold_left (fun st ref => processJob ref st) pendingJobs st in
      suspend (AwaitBatch pendingJobs) st
  else
    set_processing false st.

(** The job id made from [Date.now()] and
    [Math.random().toString(36).substring(7)]. *)
Definition make_id (now : Z) (rnd : string) : string :=
  "job_" ++ pretty now ++ "_" ++ rnd.

(* Add invoice to processing queue *)
Definition addJob (now : Z) (rnd : string) (created : Z)
    (filePath fileName userId : string) (st : State R) : string * State R :=
  let jobId := make_id now rnd in
  let job := mkJob jobId filePath fileName userId PENDING 0 None None created None in
  let ref := next_ref st in
  let st :=
    mkState (<[ref := job]> (heap st)) (S ref) (queue st ++ [ref]) (processing st)
            (maxConcurrent st) (activeJobs st) (files st) (awaiting st) in
  (* Start processing if not already running *)
  let st := if negb (processing st) then processQueue st else st in
  (jobId, st).

(** [this.queue.find(j => j.id === jobId)], as a reference. *)
Definition find_ref (jobId : string) (st : State R) : option nat :=
  List.find (has_id st jobId) (queue st).

(* Get job status *)
Definition getJob (jobId : string) (st : State R) : option (QueueJob R) :=
  match find_ref jobId st with
  | Some ref => heap st !! ref
  | None => None
  end.

(* Get all jobs for a user *)
Definition getUserJobs (user : string) (st : State R) : list (QueueJob R) :=
  omap (fun ref =>
          match heap st !! ref with
          | Some j => if String.eqb (userId j) user then Some j else None
          | None => None
          end) (queue st).

(* Cancel a job *)
Definition cancelJob (now : Z) (jobId : string) (st : State R) : bool * State R :=
  match find_ref jobId st with
  | None => (false, st)
  | Some ref =>
      match heap st !! ref with
      | None => (false, st)
      | Some job =>
          if Status_eqb (status job) PENDING then
            let st := update_job ref (set_status FAILED) st in
            let st := update_job ref (set_error (Some "Cancelled by user")) st in
            let st := update_job ref (set_completedAt (Some now)) st in
            let st := deleteFile (filePath job) st in
            (true, st)
          else (false, st)
      end
  end.

(* Retry a failed job *)
Definition retryJob (jobId : string) (st : State R) : bool * State R :=
  match find_ref jobId st with
  | None => (false, st)
  | Some ref =>
      if negb (has_status st FAILED ref) then (false, st)
      else
        let st := update_job ref (set_status PENDING) st in
        let st := update_job ref (set_progress 0) st in
        let st := update_job ref (set_error None) st in
        let st := update_job ref (set_completedAt None) st in
        let st := if negb (processing st) then processQueue st else st in
        (true, st)
  end.

(** References of the queue are allocated ones. *)
Definition wf (st : State R) : Prop :=
  forall ref, In ref (queue st) -> (ref < next_ref st)%nat.

End Queue.

(** *** Vocabulary for the statements about the queue *)

(** The job as [cancelJob] leaves it. *)
Definition cancelled {R} (now : Z) (job : QueueJob R) : QueueJob R :=
  mkJob (id job) (filePath job) (fileName job) (userId job) FAILED (progress job)
        (result job) (Some "Cancelled by user") (createdAt job) (Some now).

(** The number of pending jobs of the queue. *)
Definition pending_count {R} (st : State R) : Z :=
  Z.of_nat (length (List.filter (has_status st PENDING) (queue st))).

(** Whether [addJob] starts the new job before it returns: no
    [processQueue] loop is running and a worker slot is left after the
    jobs already pending. *)
Definition starts_at_once {R} (st : State R) : bool :=
  negb (processing st) && (pending_count st <? maxConcurrent st - activeJobs st).

(** *** Batches, statistics and clean-up *)

(** The value of [getQueueStats]. *)
Module Stats.
Record t := mk {
  total : Z;
  pending : Z;
  processing : Z;
  completed : Z;
  failed : Z;
  activeJobs : Z
}.
End Stats.

(** A file of a batch, with the readings of [Date.now()],
    [Math.random()] and [new Date()] that [addJob] takes for it. *)
Record BatchFile := mkBatchFile {
  read_now : Z;
  read_random : string;
  read_created : Z;
  path : string;
  filename : string
}.

Section Maintenance.
Context {R : Type}.

(* Add multiple jobs (batch) *)
Definition addBatchJobs (files : list BatchFile) (userId : string) (st : State R)
  : list string * State R :=
  fold_left
    (fun acc file =>
       let '(jobId, st) :=
         addJob (read_now file) (read_random file) (read_created file)
                (path file) (filename file) userId (snd acc) in
       ((fst acc ++ [jobId])%list, st))
    files ([], st).

(** [this.queue.filter(j => j.status === s).length] *)
Definition count_status (s : Status) (st : State R) : Z :=
  Z.of_nat (length (List.filter (has_status st s) (queue st))).

(* Get queue statistics *)
Definition getQueueStats (st : State R) : Stats.t :=
  Stats.mk (Z.of_nat (length (queue st)))
           (count_status PENDING st)
           (count_status PROCESSING st)
           (count_status COMPLETED st)
           (count_status FAILED st)
           (activeJobs st).

(** The predicate of the filter in [cleanupOldJobs]. *)
Definition keep_job (oneHourAgo : Z) (st : State R) (ref : nat) : bool :=
  match heap st !! ref with
  | Some job =>
      match completedAt job with
      | Some t =>
          if Status_eqb (status job) COMPLETED || Status_eqb (status job) FAILED
          then oneHourAgo <? t
          else true
      | None => true
      end
  | None => true
  end.

(* Remove old jobs from queue *)
Definition cleanupOldJobs (now : Z) (st : State R) : State R :=
  let oneHourAgo := now - 3600000 in
  mkState (heap st) (next_ref st) (List.filter (keep_job oneHourAgo st) (queue st))
          (processing st) (maxConcurrent st) (activeJobs st) (files st) (awaiting st).

End Maintenance.

End InvoiceQueue.

(** ** The queue at run time: suspended calls and their resumption *)

(** [processJob] and [processQueue] past their first [await].  A call
    that is suspended at an [await] is a task; an event is either a call
    of a method of the queue from outside or the resumption of a task
    with the outcome of what it awaits.  Between two [await]s a call runs
    without interruption, so a step of the model is one such segment.
    Any event may come between two segments of a call. *)

Module QueueRuntime.
Import InvoiceQueue.

Section Runtime.
Context {num : Type} `{JsNumber num} {Bill : Type}.
Variable host : Ocr.Host num.

(** What [processInvoice] resolves with.  The text that the model
    answered is parsed as JSON and returned without a check: [Typed] is a
    value of type [ExtractedInvoiceData]; [Untyped] is a value that is
    not, on which [validateInvoiceData] throws (without [items], a
    [TypeError] at [data.items.reduce] or at [data.items.length]) with
    the [message] given.  A value that is not of the type and on which
    the validation returns all the same has no counterpart here. *)
Inductive Extracted :=
| Typed (data : Ocr.ExtractedInvoiceData num)
| Untyped (message : string).

(** [job.result] *)
Record JobResult := mkJobResult {
  extractedData : Ocr.ExtractedInvoiceData num;
  validation : Ocr.ValidationResult;
  duplicateCheck : Ocr.DuplicateCheck Bill;
  corrections : list (Ocr.Correction.t num);
  result_filePath : string
}.

(** A suspended call: [processJob] at one of its four [await]s, with the
    locals it holds, or [processQueue] at one of its two.  At the second
    [await] the promise of [validateInvoiceData] is fulfilled, or
    rejected with what the function has thrown. *)
Inductive Task :=
| AtExtraction (job : nat)
| AtValidation (job : nat) (extractedData : Ocr.ExtractedInvoiceData num)
               (validation : Ocr.ValidationResult)
| AtRejection (job : nat) (message : string)
| AtDuplicateCheck (job : nat) (extractedData : Ocr.ExtractedInvoiceData num)
                   (validation : Ocr.ValidationResult)
| AtCorrections (job : nat) (extractedData : Ocr.ExtractedInvoiceData num)
                (validation : Ocr.ValidationResult)
                (duplicateCheck : Ocr.DuplicateCheck Bill)
| AtBatch (jobs : list nat)
| AtTimer.

Record Runtime := mkRuntime {
  this : State JobResult;
  tasks : list Task
}.

(** What comes in from outside.  A resumption names the task by its
    position; it carries the outcome of the awaited promise and the
    readings of the clock that the segment takes ([new Date()] for
    [completedAt], [Date.now()] in [cleanupOldJobs], the clock and the
    environment of [validateInvoiceData]). *)
Inductive Event :=
| Call_addJob (now : Z) (rnd : string) (created : Z) (filePath fileName userId : string)
| Call_cancelJob (now : Z) (jobId : string)
| Call_retryJob (jobId : string)
| Extraction_done (k : nat) (outcome : Outcome Extracted)
                  (amb : Ocr.Ambient) (now cleanup : Z)
| Validation_done (k : nat)
| Validation_rejected (k : nat) (now cleanup : Z)
| DuplicateCheck_done (k : nat) (outcome : Outcome (Ocr.Prisma Bill)) (now cleanup : Z)
| Corrections_done (k : nat) (now cleanup : Z)
| Batch_settled (k : nat)
| Timer_fired (k : nat).

(** The job that a [processJob] task works on. *)
Definition task_job (t : Task) : option nat :=
  match t with
  | AtExtraction job | AtValidation job _ _ | AtRejection job _
  | AtDuplicateCheck job _ _ | AtCorrections job _ _ _ => Some job
  | AtBatch _ | AtTimer => None
  end.

Definition job_refs (ts : list Task) : list nat := omap task_job ts.

Definition is_loop (t : Task) : bool :=
  match t with
  | AtBatch _ | AtTimer => true
  | _ => false
  end.

(** The suspensions that the synchronous part of a call has recorded
    become tasks. *)
Definition task_of (a : Await) : Task :=
  match a with
  | AwaitExtraction job => AtExtraction job
  | AwaitBatch jobs => AtBatch jobs
  | AwaitTimer => AtTimer
  end.

Definition adopt (st : State JobResult) (ts : list Task) : Runtime :=
  mkRuntime
    (mkState (heap st) (next_ref st) (queue st) (processing st) (maxConcurrent st)
             (activeJobs st) (files st) [])
    (ts ++ map task_of (awaiting st)).

Definition set_result (r : JobResult) (j : QueueJob JobResult) : QueueJob JobResult :=
  mkJob (id j) (filePath j) (fileName j) (userId j) (status j) (progress j)
        (Some r) (error j) (createdAt j) (completedAt j).

(** The [finally] block of [processJob]. *)
Definition finally (cleanup : Z) (st : State JobResult) : State JobResult :=
  let st := set_activeJobs (activeJobs st - 1) st in
  (* Clean up old completed/failed jobs (keep for 1 hour) *)
  cleanupOldJobs cleanup st.

(** The [catch] block of [processJob], then [finally]. *)
Definition catch (ref : nat) (message : string) (now cleanup : Z)
    (st : State JobResult) : State JobResult :=
  let st := update_job ref (set_status FAILED) st in
  let st := update_job ref (set_error (Some message)) st in
  let st := update_job ref (set_completedAt (Some now)) st in
  (* Clean up file on error *)
  let st :=
    match heap st !! ref with
    | Some job => deleteFile (filePath job) st
    | None => st
    end in
  finally cleanup st.

(** "Complete job", then [finally]. *)
Definition complete (ref : nat) (extractedData : Ocr.ExtractedInvoiceData num)
    (validation : Ocr.ValidationResult) (duplicateCheck : Ocr.DuplicateCheck Bill)
    (corrections : list (Ocr.Correction.t num)) (now cleanup : Z)
    (st : State JobResult) : State JobResult :=
  let st := update_job ref (set_progress 95) st in
  let st := update_job ref (set_status COMPLETED) st in
  let st := update_job ref (set_progress 100) st in
  let st := update_job ref (set_completedAt (Some now)) st in
  let st :=
    match heap st !! ref with
    | Some job =>
        update_job ref
          (set_result (mkJobResult extractedData validation duplicateCheck corrections
                                   (fileName job))) st
    | None => st
    end in
  finally cleanup st.

(** All promises of a batch are settled: no [processJob] call on one of
    its jobs is suspended. *)
Definition settled (jobs : list nat) (ts : list Task) : bool :=
  forallb (fun ref => negb (existsb (Nat.eqb ref) (job_refs ts))) jobs.

(** One segment.  [None]: the event cannot happen in this state. *)
Definition step (e : Event) (rt : Runtime) : option Runtime :=
  let st := this rt in
  let ts := tasks rt in
  match e with
  | Call_addJob now rnd created filePath fileName userId =>
      Some (adopt (snd (addJob now rnd created filePath fileName userId st)) ts)
  | Call_cancelJob now jobId =>
      Some (adopt (snd (cancelJob now jobId st)) ts)
  | Call_retryJob jobId =>
      Some (adopt (snd (retryJob jobId st)) ts)
  | Extraction_done k outcome amb now cleanup =>
      match ts !! k, outcome with
      | Some (AtExtraction ref), Resolved (Typed extractedData) =>
          let st := update_job ref (set_progress 50) st in
          (* Step 2: Validation *)
          let validation := Ocr.validateInvoiceData host amb extractedData in
          Some (adopt st (<[k := AtValidation ref extractedData validation]> ts))
      | Some (AtExtraction ref), Resolved (Untyped message) =>
          let st := update_job ref (set_progress 50) st in
          (* Step 2: Validation, which throws *)
          Some (adopt st (<[k := AtRejection ref message]> ts))
      | Some (AtExtraction ref), Rejected message =>
          Some (adopt (catch ref message now cleanup st) (delete k ts))
      | _, _ => None
      end
  | Validation_done k =>
      match ts !! k with
      | Some (AtValidation ref extractedData validation) =>
          let st := update_job ref (set_progress 70) st in
          (* Step 3: Duplicate check *)
          Some (adopt st (<[k := AtDuplicateCheck ref extractedData validation]> ts))
      | _ => None
      end
  | Validation_rejected k now cleanup =>
      match ts !! k with
      | Some (AtRejection ref message) =>
          Some (adopt (catch ref message now cleanup st) (delete k ts))
      | _ => None
      end
  | DuplicateCheck_done k outcome now cleanup =>
      match ts !! k, outcome with
      | Some (AtDuplicateCheck ref extractedData validation), Resolved prisma =>
          let duplicateCheck :=
            Ocr.checkDuplicateInvoice (Ocr.invoiceNumber extractedData)
                                      (Ocr.supplierName extractedData) prisma in
          let st := update_job ref (set_progress 85) st in
          (* Step 4: Generate correction suggestions *)
          Some (adopt st (<[k := AtCorrections ref extractedData validation duplicateCheck]> ts))
      | Some (AtDuplicateCheck ref _ _), Rejected message =>
          Some (adopt (catch ref message now cleanup st) (delete k ts))
      | _, _ => None
      end
  | Corrections_done k now cleanup =>
      match ts !! k with
      | Some (AtCorrections ref extractedData validation duplicateCheck) =>
          match Ocr.generateCorrectionSuggestions extractedData validation with
          | Resolved corrections =>
              Some (adopt (complete ref extractedData validation duplicateCheck corrections
                                    now cleanup st)
                          (delete k ts))
          | Rejected message =>
              Some (adopt (catch ref message now cleanup st) (delete k ts))
          end
      | _ => None
      end
  | Batch_settled k =>
      match ts !! k with
      | Some (AtBatch jobs) =>
          if settled jobs ts then Some (adopt (processQueue st) (delete k ts)) else None
      | _ => None
      end
  | Timer_fired k =>
      match ts !! k with
      | Some AtTimer => Some (adopt (processQueue st) (delete k ts))
      | _ => None
      end
  end.

(** A sequence of events, from the first. *)
Fixpoint run (events : list Event) (rt : Runtime) : option Runtime :=
  match events with
  | [] => Some rt
  | e :: rest =>
      match step e rt with
      | Some rt' => run rest rt'
      | None => None
      end
  end.

(** [new InvoiceQueue()] *)
Definition start (fs : gset string) : Runtime := mkRuntime (init fs) [].

(** The states of the queue in the course of any sequence of events. *)
Definition reachable (rt : Runtime) : Prop :=
  exists fs events, run events (start fs) = Some rt.

(** The progress that a job shows while its call is suspended. *)
Definition task_progress (t : Task) : Z :=
  match t with
  | AtExtraction _ => 20
  | AtValidation _ _ _ | AtRejection _ _ => 50
  | AtDuplicateCheck _ _ _ => 70
  | AtCorrections _ _ _ _ => 85
  | AtBatch _ | AtTimer => 0
  end.

(** *** Vocabulary for the statements about the queue at run time *)

(** The locals of a suspended [processJob] come from the earlier steps
    of the same call. *)
Definition task_ok (t : Task) : Prop :=
  match t with
  | AtValidation _ data validation | AtDuplicateCheck _ data validation =>
      exists amb, validation = Ocr.validateInvoiceData host amb data
  | AtCorrections _ data validation duplicateCheck =>
      (exists amb, validation = Ocr.validateInvoiceData host amb data)
      /\ exists prisma,
           duplicateCheck
           = Ocr.checkDuplicateInvoice (Ocr.invoiceNumber data) (Ocr.supplierName data) prisma
  | _ => True
  end.

(** The result of a job is the outcome of the four steps on one
    extraction. *)
Definition result_ok (job : QueueJob JobResult) (r : JobResult) : Prop :=
  (exists amb, validation r = Ocr.validateInvoiceData host amb (extractedData r))
  /\ (exists prisma,
        duplicateCheck r
        = Ocr.checkDuplicateInvoice (Ocr.invoiceNumber (extractedData r))
                                    (Ocr.supplierName (extractedData r)) prisma)
  /\ Ocr.generateCorrectionSuggestions (extractedData r) (validation r)
     = Resolved (corrections r)
  /\ result_filePath r = fileName job.

(** What the record of a job holds in each status, given the files that
    are left and the suspended calls. *)
Definition job_ok (fs : gset string) (ts : list Task) (ref : nat)
    (job : QueueJob JobResult) : Prop :=
  match status job with
  | PENDING =>
      progress job = 0 /\ result job = None /\ error job = None
      /\ completedAt job = None /\ ~ In ref (job_refs ts)
  | PROCESSING =>
      result job = None /\ error job = None /\ completedAt job = None
      /\ exists t, In t ts /\ task_job t = Some ref /\ progress job = task_progress t
  | COMPLETED =>
      progress job = 100 /\ (exists r, result job = Some r /\ result_ok job r)
      /\ error job = None /\ is_Some (completedAt job) /\ ~ In ref (job_refs ts)
  | FAILED =>
      In (progress job) [0; 20; 50; 70; 85] /\ result job = None /\ is_Some (error job)
      /\ is_Some (completedAt job) /\ (filePath job ∉ fs) /\ ~ In ref (job_refs ts)
  end.

(** The state [st1] is [st] with the job at [ref] changed by [f], and
    possibly with fewer files. *)
Definition changed_at (ref : nat) (f : QueueJob JobResult -> QueueJob JobResult)
    (st st1 : State JobResult) : Prop :=
  (forall r, heap st1 !! r = if decide (r = ref) then f <$> heap st !! ref else heap st !! r)
  /\ next_ref st1 = next_ref st /\ queue st1 = queue st
  /\ processing st1 = processing st /\ maxConcurrent st1 = maxConcurrent st
  /\ activeJobs st1 = activeJobs st /\ files st1 ⊆ files st
  /\ awaiting st1 = awaiting st.

(** What holds of the queue object [st] and the suspended calls [ts]
    between any two segments. *)
Record core (st : State JobResult) (ts : list Task) : Prop := mkCore {
  core_awaiting : awaiting st = [];
  core_max : maxConcurrent st = 3;
  core_active : activeJobs st = Z.of_nat (length (job_refs ts));
  core_distinct : List.NoDup (job_refs ts);
  core_jobs :
    forall ref job, heap st !! ref = Some job -> job_ok (files st) ts ref job;
  core_tasks :
    forall ref,
      In ref (job_refs ts) -> In ref (queue st) /\ has_status st PROCESSING ref = true;
  core_payload : forall t, In t ts -> task_ok t;
  core_queue :
    List.NoDup (queue st)
    /\ forall ref, In ref (queue st) ->
                   (ref < next_ref st)%nat /\ is_Some (heap st !! ref);
  core_heap : forall ref, is_Some (heap st !! ref) -> (ref < next_ref st)%nat;
  core_live :
    forall ref job, heap st !! ref = Some job -> status job = PENDING -> In ref (queue st)
}.

(** While [processing] is set, one [processQueue] call is suspended, at
    a batch that holds every job in work; otherwise no call is suspended
    and no job of the queue is pending. *)
Definition loop_ok (st : State JobResult) (ts : list Task) : Prop :=
  if processing st then
    exists jobs,
      List.filter is_loop ts = [AtBatch jobs]
      /\ (forall ref, In ref (job_refs ts) -> In ref jobs)
      /\ (length jobs <= 3)%nat
  else
    ts = [] /\ forall ref, In ref (queue st) -> has_status st PENDING ref = false.

Record invariant (rt : Runtime) : Prop := mkInvariant {
  inv_core : core (this rt) (tasks rt);
  inv_loop : loop_ok (this rt) (tasks rt)
}.

End Runtime.

Arguments Extracted : clear implicits.
Arguments JobResult : clear implicits.
Arguments Task : clear implicits.
Arguments Runtime : clear implicits.
Arguments Event : clear implicits.

End QueueRuntime.

(** ** Automatic reorders (services/autoReorderService) *)

Module AutoReorder.

Inductive Priority := URGENT | HIGH | MEDIUM | LOW.

(** A reorder suggestion; [product] stands for the fields that the
    selection carries along. *)
Record Suggestion {num P : Type} := mkSuggestion {
  product : P;
  suggestedQty : num;
  estimatedCost : num;
  priority : Priority
}.
Arguments Suggestion : clear implicits.
Arguments mkSuggestion {num P}.

(** [priorityWeights] *)
Definition priorityWeight (p : Priority) : Z :=
  match p with
  | URGENT => 4
  | HIGH => 3
  | MEDIUM => 2
  | LOW => 1
  end.

Section Reorder.
Context {num : Type} `{JsNumber num} {P : Type}.

#[local] Open Scope num_scope.

(** [a === 0] *)
Definition is_zero (a : num) : bool := (a <=? of_Z 0) && (of_Z 0 <=? a).

(* Determine reorder priority *)
Definition determinePriority (currentStock minLevel : num) : Priority :=
  if is_zero currentStock then URGENT
  else if currentStock <=? minLevel * decimal 25 100 then URGENT
  else if currentStock <=? minLevel * decimal 5 10 then HIGH
  else if currentStock <=? minLevel * decimal 75 100 then MEDIUM
  else LOW.

(** The [value] that the selection sorts by. *)
Definition value (s : Suggestion num P) : num :=
  (of_Z (priorityWeight (priority s)) * suggestedQty s) / estimatedCost s.

(** The sign of what a comparator returns; [None] when it is NaN. *)
Definition sign (x : num) : option Z :=
  if x <? of_Z 0 then Some (-1)%Z
  else if of_Z 0 <? x then Some 1%Z
  else if x <=? of_Z 0 then Some 0%Z
  else None.

(** [(a, b) => b.value - a.value] *)
Definition by_value (a b : Suggestion num P * num) : option Z := sign (snd b - snd a).

(** [Array.prototype.sort] of the engine, on the suggestions with their
    values. *)
Definition Sort : Type :=
  (Suggestion num P * num -> Suggestion num P * num -> option Z)
  -> list (Suggestion num P * num) -> list (Suggestion num P * num).

(** Greedy selection within budget *)
Fixpoint select (sorted : list (Suggestion num P * num)) (remainingBudget : num)
  : list (Suggestion num P * num) :=
  match sorted with
  | [] => []
  | item :: rest =>
      if estimatedCost (fst item) <=? remainingBudget then
        item :: select rest (remainingBudget - estimatedCost (fst item))
      else select rest remainingBudget
  end.

(* Optimize product selection within budget using knapsack algorithm *)
Definition optimizeWithinBudget (Array_sort : Sort)
    (suggestions : list (Suggestion num P)) (budget : num)
  : list (Suggestion num P * num) :=
  let sorted := Array_sort by_value (map (fun s => (s, value s)) suggestions) in
  select sorted budget.

(** *** Vocabulary for the statements about the selection *)

(** What ECMAScript asks of the sort when the comparator is consistent
    on the elements. *)
Definition sorts (Array_sort : Sort) : Prop :=
  forall cmp l, TemplateService.consistent cmp l ->
                Array_sort cmp l = TemplateService.stable_sort_by cmp l.

(** The sort returns the elements that it was given, in some order. *)
Definition rearranges (Array_sort : Sort) : Prop :=
  forall cmp l, Permutation (Array_sort cmp l) l.

(** Each of the items, in turn, costs no more than what the ones before
    it have left of the budget, as the program computes it. *)
Fixpoint fits (items : list (Suggestion num P * num)) (budget : num) : bool :=
  match items with
  | [] => true
  | item :: rest =>
      (estimatedCost (fst item) <=? budget)
      && fits rest (budget - estimatedCost (fst item))
  end.

End Reorder.

(** The cost of a selection, in exact arithmetic. *)
Definition total_cost {P} (l : list (Suggestion Q P * Q)) : Q :=
  fold_right (fun item sum => (estimatedCost (fst item) + sum)%Q) 0%Q l.

End AutoReorder.

(** ** Concrete inputs *)

Module Examples.

Definition f (z : Z) : float := of_Z z.

(** Ten widgets at 100 each. *)
Definition widget : Ocr.Item float :=
  Ocr.mkItem "Widget" (Some "8471") (f 10) (f 100) (f 18) (f 1000).

Definition invoice (number : string) (gstin : option string) (subtotal : Z)
    (cgst sgst igst : option Z) (total : Z) (items : list (Ocr.Item float))
    : Ocr.ExtractedInvoiceData float :=
  Ocr.mkData number "2024-06-01" "Acme Traders" gstin None (f subtotal)
             (f <$> cgst) (f <$> sgst) (f <$> igst) (f total) items (f 85) None.

(** 1000 + 90 + 90 = 1180, from a supplier in Karnataka. *)
Definition clean : Ocr.ExtractedInvoiceData float :=
  invoice "INV-2024-001" (Some "29AAAAA0000A1Z5") 1000 (Some 90) (Some 90) None 1180 [widget].

(** The declared subtotal is 500 against line items of 1000, while the
    grand totals agree. *)
Definition bumped : Ocr.ExtractedInvoiceData float :=
  invoice "INV-2024-001" (Some "29AAAAA0000A1Z5") 500 (Some 90) (Some 90) None 1180 [widget].

(** The declared subtotal is 995 against line items of 1000, while the
    grand totals agree. *)
Definition bumped_small : Ocr.ExtractedInvoiceData float :=
  invoice "INV-2024-001" (Some "29AAAAA0000A1Z5") 995 (Some 90) (Some 90) None 1180 [widget].

(** The same goods billed with IGST. *)
Definition igst_invoice : Ocr.ExtractedInvoiceData float :=
  invoice "INV-2024-001" (Some "29AAAAA0000A1Z5") 1000 None None (Some 180) 1180 [widget].

Definition no_items : Ocr.ExtractedInvoiceData float :=
  invoice "INV-2024-002" (Some "29AAAAA0000A1Z5") 1000 (Some 90) (Some 90) None 1180 [].

(** 2024-05-01 and 2024-06-21, with [COMPANY_STATE_CODE] unset. *)
Definition may_2024 : Ocr.Ambient :=
  Ocr.mkAmbient 1714521600000 1714521600000 None UtcHost.utc.
Definition june_2024 : Ocr.Ambient :=
  Ocr.mkAmbient 1719000000000 1719000000000 None UtcHost.utc.

(** The same instant for a company in Karnataka and one in Maharashtra. *)
Definition in_karnataka : Ocr.Ambient :=
  Ocr.mkAmbient 1719000000000 1719000000000 (Some "29") UtcHost.utc.
Definition in_maharashtra : Ocr.Ambient :=
  Ocr.mkAmbient 1719000000000 1719000000000 (Some "27") UtcHost.utc.

(** The evening of 29 February 2024 (20:00 UTC), when it is already
    1 March in Kolkata; and an invoice of 1 March 2023. *)
Definition leap_evening (zone : Ocr.Zone) : Ocr.Ambient :=
  Ocr.mkAmbient 1709236800000 1709236800000 None zone.

Definition year_old : Ocr.ExtractedInvoiceData float :=
  Ocr.mkData "INV-2023-007" "2023-03-01" "Acme Traders" (Some "29AAAAA0000A1Z5") None
             (f 1000) (Some (f 90)) (Some (f 90)) None (f 1180) [widget] (f 85) None.

(** Invoices of one supplier, in exact arithmetic. *)
Definition line (name : string) : Ocr.Item Q :=
  Ocr.mkItem name (Some "8471") 1%Q 100%Q 18%Q 100%Q.

Definition bill (total : Z) (names : list string) : Ocr.ExtractedInvoiceData Q :=
  Ocr.mkData "INV-2024-001" "2024-06-01" "Acme Traders" (Some "29AAAAA0000A1Z5") None
             (inject_Z total) None None None (inject_Z total) (line <$> names) 90%Q None.

(** A store with a row for supplier [s1] and no template. *)
Definition store0 {num} : TemplateService.Store num :=
  TemplateService.mkStore ∅ {[ "s1" := None ]}.

(** An engine for patterns in which every special character is escaped:
    it looks for the text that the pattern stands for; its sort is the
    stable sort. *)
Definition literal {num} : TemplateService.Engine num :=
  TemplateService.mkEngine (fun p s => includes s (TemplateService.unescape p))
                           (fun _ => "")
                           TemplateService.stable_sort_by.

(** A call at a time when every request is answered. *)
Definition learned {num} (now : Z) (data : Ocr.ExtractedInvoiceData num) (accurate : bool)
  : TemplateService.Call num :=
  TemplateService.mkCall TemplateService.all_well TemplateService.all_well now data accurate.

(** Item A on four invoices, then item B twice on a fifth. *)
Definition history : list (TemplateService.Call Q) :=
  [ learned 1 (bill 100 ["A"]) true; learned 2 (bill 200 ["A"]) true;
    learned 3 (bill 300 ["A"]) true; learned 4 (bill 400 ["A"]) true;
    learned 5 (bill 500 ["B"; "B"]) true ].

Definition calls : list (string * TemplateService.Call Q) :=
  [ ("s1", learned 1 (bill 100 ["A"]) true); ("s1", learned 2 (bill 200 ["B"]) true) ].

(** Invoices of one supplier on binary64, with a total in hundredths. *)
Definition float_bill (hundredths : Z) : Ocr.ExtractedInvoiceData float :=
  Ocr.mkData "INV-2024-001" "2024-06-01" "Acme Traders" (Some "29AAAAA0000A1Z5") None
             (decimal hundredths 100) None None None (decimal hundredths 100)
             [widget] (f 90) None.

(** Totals of 100.10, 200.20, 300.30 and 400.40. *)
Definition float_history : list (TemplateService.Call float) :=
  [ learned 1 (float_bill 10010) true; learned 2 (float_bill 20020) true;
    learned 3 (float_bill 30030) true; learned 4 (float_bill 40040) true ].


(** An invoice whose total is [Infinity], as [JSON.parse] reads [1e999]. *)
Definition unbounded_bill : Ocr.ExtractedInvoiceData float :=
  Ocr.mkData "INV-2024-001" "2024-06-01" "Acme Traders" (Some "29AAAAA0000A1Z5") None
             (f 1000) None None None (f 1 / f 0)%num [widget] (f 90) None.

(** Forty invoices, of which the first four were not accurate. *)
Definition forty : list (TemplateService.Call float) :=
  map (fun k => learned (Z.of_nat k) (float_bill 10000) (4 <=? k)%nat) (seq 0 40).

(** A new queue, and two submissions in a row. *)
Definition idle : InvoiceQueue.State unit :=
  InvoiceQueue.init {[ "/uploads/a.png"; "/uploads/b.png" ]}.

Definition first : string * InvoiceQueue.State unit :=
  InvoiceQueue.addJob 1700000000000 "k3x9a" 1700000000000
                      "/uploads/a.png" "a.png" "u1" idle.

Definition second : string * InvoiceQueue.State unit :=
  InvoiceQueue.addJob 1700000000001 "p0q7z" 1700000000001
                      "/uploads/b.png" "b.png" "u1" (snd first).

(** The second job as it is when [addJob] returns. *)
Definition jobB : InvoiceQueue.QueueJob unit :=
  InvoiceQueue.mkJob "job_1700000000001_p0q7z" "/uploads/b.png" "b.png" "u1"
                     InvoiceQueue.PENDING 0 None None 1700000000001 None.

End Examples.

(** ** More concrete inputs *)

Module Scenarios.
Import Examples.

(** Three files submitted at once. *)
Definition three_files : list InvoiceQueue.BatchFile :=
  [ InvoiceQueue.mkBatchFile 1700000000000 "k3x9a" 1700000000000 "/uploads/a.png" "a.png";
    InvoiceQueue.mkBatchFile 1700000000001 "p0q7z" 1700000000001 "/uploads/b.png" "b.png";
    InvoiceQueue.mkBatchFile 1700000000002 "m2n4b" 1700000000002 "/uploads/c.png" "c.png" ].

(** A database that knows no bill. *)
Definition no_rows : Ocr.Prisma unit := Ocr.mkPrisma (fun _ _ => None).

(** Two submissions; the first job runs through its four steps. *)
Definition first_job_done : list (QueueRuntime.Event float unit) :=
  [ QueueRuntime.Call_addJob 1700000000000 "k3x9a" 1700000000000
                             "/uploads/a.png" "a.png" "u1";
    QueueRuntime.Call_addJob 1700000000001 "p0q7z" 1700000000001
                             "/uploads/b.png" "b.png" "u1";
    QueueRuntime.Extraction_done 0 (Resolved (QueueRuntime.Typed clean)) june_2024
                                 1700000003000 1700000003000;
    QueueRuntime.Validation_done 0;
    QueueRuntime.DuplicateCheck_done 0 (Resolved no_rows)
                                     1700000004000 1700000004000;
    QueueRuntime.Corrections_done 0 1700000005000 1700000005000 ].

(** Then the batch is settled, and the extraction of the second job
    fails. *)
Definition second_job_failed : list (QueueRuntime.Event float unit) :=
  (first_job_done ++
   [ QueueRuntime.Batch_settled 0;
     QueueRuntime.Extraction_done 0 (Rejected "Failed to extract invoice data")
                                  june_2024 1700000006000 1700000006000 ])%list.

(** One submission; what the extraction returns has no [items], and the
    validation throws. *)
Definition validation_thrown : list (QueueRuntime.Event float unit) :=
  [ QueueRuntime.Call_addJob 1700000000000 "k3x9a" 1700000000000
                             "/uploads/a.png" "a.png" "u1";
    QueueRuntime.Extraction_done
      0 (Resolved (QueueRuntime.Untyped
                     "Cannot read properties of undefined (reading 'reduce')"))
      june_2024 1700000003000 1700000003000;
    QueueRuntime.Validation_rejected 0 1700000003000 1700000003000 ].

(** The state after a sequence of events on a new queue. *)
Definition after (events : list (QueueRuntime.Event float unit))
  : QueueRuntime.Runtime float unit :=
  let rt0 := QueueRuntime.start {[ "/uploads/a.png"; "/uploads/b.png" ]} in
  match QueueRuntime.run UtcHost.host events rt0 with
  | Some rt => rt
  | None => rt0
  end.

(** Reorder suggestions for three products. *)
Definition reorders : list (AutoReorder.Suggestion Q string) :=
  [ AutoReorder.mkSuggestion "bolts" 100%Q 500%Q AutoReorder.LOW;
    AutoReorder.mkSuggestion "nuts" 50%Q 100%Q AutoReorder.URGENT;
    AutoReorder.mkSuggestion "washers" 10%Q 450%Q AutoReorder.HIGH ].

(** Two urgent reorders that cost 0.1 and 0.9. *)
Definition tenths : list (AutoReorder.Suggestion float string) :=
  [ AutoReorder.mkSuggestion "a" (of_Z 1) (decimal 1 10) AutoReorder.URGENT;
    AutoReorder.mkSuggestion "b" (of_Z 1) (decimal 9 10) AutoReorder.URGENT ].

End Scenarios.

(** ** Proof automation *)

(** Every branch of a check, spelled out. *)
Ltac branches :=
  repeat match goal with
         | |- context [if ?b then _ else _] => destruct b
         | |- context [match ?x with Some _ => _ | None => _ end] => destruct x
         end.

(** The same after unfolding the assignments to the locals. *)
Ltac cases :=
  unfold Ocr.push_error, Ocr.push_warning, Ocr.push_suggestion, Ocr.set_invoiceNumber,
    Ocr.set_amounts, Ocr.set_items, Ocr.set_gstin, Ocr.set_fc;
  branches; cbn.

(** Membership in a list of messages that was only appended to. *)
Ltac grows_tac := split; intros ? ?; cbn; rewrite ?in_app_iff; auto.

(** Two locals with the same [core], taken apart. *)
Ltac same_core :=
  match goal with
  | E : Ocr.core ?a = Ocr.core ?b |- _ =>
      destruct a, b; unfold Ocr.core in E; cbn in E; inversion E; subst; clear E
  end.

(** A fact about every character, by enumeration. *)
Ltac by_ascii c :=
  destruct c as [[] [] [] [] [] [] [] []];
  vm_compute; try reflexivity; try discriminate; auto.

(** * Properties of the validation service *)

Section ValidateFacts.
Context {num : Type} `{JsNumber num}.
Variable host : Ocr.Host num.

Import Ocr.

Lemma grows_refl st : grows st st.
Proof. split; auto. Qed.

Lemma grows_trans a b c : grows a b -> grows b c -> grows a c.
Proof. intros [? ?] [? ?]; split; auto. Qed.

Lemma deduct_error_grows st c p m acc :
  grows st (snd acc) -> grows st (snd (deduct c p (push_error m) acc)).
Proof. intros [? ?]. unfold deduct. destruct c; grows_tac. Qed.

Lemma deduct_warning_grows st c p m acc :
  grows st (snd acc) -> grows st (snd (deduct c p (push_warning m) acc)).
Proof. intros [? ?]. unfold deduct. destruct c; grows_tac. Qed.

Lemma deduct_error_fc c p m acc :
  Locals.fieldConfidence (snd (deduct c p (push_error m) acc))
  = Locals.fieldConfidence (snd acc).
Proof. unfold deduct. now destruct c. Qed.

Lemma deduct_warning_fc c p m acc :
  Locals.fieldConfidence (snd (deduct c p (push_warning m) acc))
  = Locals.fieldConfidence (snd acc).
Proof. unfold deduct. now destruct c. Qed.

Lemma deduct_score c p f acc bound :
  0 <= p -> fst acc <= bound -> fst (deduct c p f acc) <= bound.
Proof. unfold deduct. destruct c; cbn; lia. Qed.

Lemma check_item_grows i item acc :
  grows (snd acc) (snd (check_item i item acc)).
Proof.
  unfold check_item. cbv zeta.
  repeat first [apply deduct_error_grows | apply deduct_warning_grows].
  apply grows_refl.
Qed.

Lemma check_item_fc i item acc :
  Locals.fieldConfidence (snd (check_item i item acc)) = Locals.fieldConfidence (snd acc).
Proof.
  unfold check_item. cbv zeta.
  now rewrite !deduct_warning_fc, !deduct_error_fc.
Qed.

Lemma check_item_score i item acc : fst (check_item i item acc) <= fst acc.
Proof.
  unfold check_item. cbv zeta.
  repeat (apply deduct_score; [lia|]). lia.
Qed.

Lemma forEach_item_grows l : forall i acc,
  grows (snd acc) (snd (forEach_item i l acc)).
Proof.
  induction l as [|item l IH]; intros i acc; cbn.
  - apply grows_refl.
  - eapply grows_trans; [apply check_item_grows | apply IH].
Qed.

Lemma forEach_item_fc l : forall i acc,
  Locals.fieldConfidence (snd (forEach_item i l acc)) = Locals.fieldConfidence (snd acc).
Proof.
  induction l as [|item l IH]; intros i acc; cbn; [reflexivity|].
  rewrite IH. apply check_item_fc.
Qed.

Lemma forEach_item_score l : forall i acc, fst (forEach_item i l acc) <= fst acc.
Proof.
  induction l as [|item l IH]; intros i acc; cbn; [lia|].
  etransitivity; [apply IH | apply check_item_score].
Qed.

Lemma check_items_grows data st : grows st (check_items data st).
Proof.
  unfold check_items. destruct (_ =? 0).
  - grows_tac.
  - pose proof (forEach_item_grows (items data) 0%nat (100, st)) as G.
    destruct (forEach_item 0 (items data) (100, st)) as [s st1]. cbn in *.
    destruct G; split; auto.
Qed.

Lemma check_items_amounts data st :
  FC.amounts (Locals.fieldConfidence (check_items data st))
  = FC.amounts (Locals.fieldConfidence st).
Proof.
  unfold check_items. destruct (_ =? 0); [reflexivity|].
  pose proof (forEach_item_fc (items data) 0%nat (100, st)) as G.
  destruct (forEach_item 0 (items data) (100, st)) as [s st1]. cbn in *.
  now rewrite G.
Qed.

Lemma check_gst_grows data st : grows st (check_gst data st).
Proof. unfold check_gst; cases; grows_tac. Qed.

Lemma check_gst_fc data st :
  Locals.fieldConfidence (check_gst data st) = Locals.fieldConfidence st.
Proof. unfold check_gst; cases; reflexivity. Qed.

Lemma check_gstin_grows amb data st : grows st (check_gstin amb data st).
Proof. unfold check_gstin; cases; grows_tac. Qed.

Lemma check_gstin_amounts amb data st :
  FC.amounts (Locals.fieldConfidence (check_gstin amb data st))
  = FC.amounts (Locals.fieldConfidence st).
Proof. unfold check_gstin; cases; reflexivity. Qed.

Lemma check_gstin_items amb data st :
  FC.items (Locals.fieldConfidence (check_gstin amb data st))
  = FC.items (Locals.fieldConfidence st).
Proof. unfold check_gstin; cases; reflexivity. Qed.

(** The result record in terms of the locals after the checks. *)
Lemma result_errors amb data :
  errors (validateInvoiceData host amb data) = Locals.errors (run_checks host amb data).
Proof. unfold validateInvoiceData. cbv zeta. branches; reflexivity. Qed.

Lemma result_warnings amb data :
  warnings (validateInvoiceData host amb data) = Locals.warnings (run_checks host amb data).
Proof. unfold validateInvoiceData. cbv zeta. branches; reflexivity. Qed.

Lemma result_fieldConfidence amb data :
  fieldConfidence (validateInvoiceData host amb data)
  = Locals.fieldConfidence (run_checks host amb data).
Proof. unfold validateInvoiceData. cbv zeta. branches; reflexivity. Qed.

Lemma result_canAutoApprove amb data :
  canAutoApprove (validateInvoiceData host amb data)
  = auto_approval data (run_checks host amb data).
Proof. reflexivity. Qed.

Lemma result_confidenceScore amb data :
  confidenceScore (validateInvoiceData host amb data)
  = overallConfidence (Locals.fieldConfidence (run_checks host amb data)).
Proof. reflexivity. Qed.

Lemma length_zero_nil {A} (l : list A) : (Z.of_nat (length l) =? 0) = true <-> l = [].
Proof.
  rewrite Z.eqb_eq. destruct l; cbn; split; intros; try congruence; try lia.
Qed.

(** C1. [canAutoApprove] is the five-way conjunction: no error, aggregate
    confidence at least 85, extraction confidence at least 85, amounts
    score at least 90 and items score at least 80; hence it implies that
    there is no error. *)
Theorem canAutoApprove_five_way_and (amb : Ambient) (data : ExtractedInvoiceData num) :
  let r := validateInvoiceData host amb data in
  (canAutoApprove r = true <->
     errors r = []
     /\ 85 <= confidenceScore r
     /\ (confidence data >=? of_Z 85)%num = true
     /\ 90 <= FC.amounts (fieldConfidence r)
     /\ 80 <= FC.items (fieldConfidence r))
  /\ (canAutoApprove r = true -> errors r = []).
Proof.
  cbv zeta.
  rewrite result_errors, result_fieldConfidence, result_canAutoApprove,
    result_confidenceScore.
  set (st := run_checks host amb data).
  assert (E : auto_approval data st = true <->
              Locals.errors st = []
              /\ 85 <= overallConfidence (Locals.fieldConfidence st)
              /\ (confidence data >=? of_Z 85)%num = true
              /\ 90 <= FC.amounts (Locals.fieldConfidence st)
              /\ 80 <= FC.items (Locals.fieldConfidence st)).
  { unfold auto_approval.
    rewrite !andb_true_iff, length_zero_nil, !Z.leb_le. tauto. }
  split; [exact E | intros C; apply E in C; tauto].
Qed.


(** *** What each check does to [fieldConfidence] *)

Lemma check_invoiceNumber_fc (data : ExtractedInvoiceData num) st :
  exists v, In v [0; 60; 95] /\
    Locals.fieldConfidence (check_invoiceNumber data st)
    = let fc := Locals.fieldConfidence st in FC.mk v (FC.amounts fc) (FC.items fc) (FC.gstin fc).
Proof.
  unfold check_invoiceNumber; cases;
    [exists 0 | exists 95 | exists 60]; cbn; intuition.
Qed.

Lemma check_date_fc amb (data : ExtractedInvoiceData num) st :
  Locals.fieldConfidence (check_date amb data st) = Locals.fieldConfidence st.
Proof. unfold check_date; cases; reflexivity. Qed.

Lemma check_supplier_fc (data : ExtractedInvoiceData num) st :
  Locals.fieldConfidence (check_supplier data st) = Locals.fieldConfidence st.
Proof. unfold check_supplier; cases; reflexivity. Qed.

Lemma check_amounts_fc data st :
  exists v, In v [0; 40; 75; 90; 95] /\
    Locals.fieldConfidence (check_amounts host data st)
    = let fc := Locals.fieldConfidence st in FC.mk (FC.invoiceNumber fc) v (FC.items fc) (FC.gstin fc).
Proof.
  unfold check_amounts; cases; eexists; (split; [|reflexivity]); cbn; intuition.
Qed.

Lemma check_items_fc data st :
  exists v, 0 <= v <= 100 /\
    Locals.fieldConfidence (check_items data st)
    = let fc := Locals.fieldConfidence st in FC.mk (FC.invoiceNumber fc) (FC.amounts fc) v (FC.gstin fc).
Proof.
  unfold check_items. destruct (_ =? 0).
  - exists 0. split; [lia | reflexivity].
  - pose proof (forEach_item_fc (items data) 0%nat (100, st)) as G.
    pose proof (forEach_item_score (items data) 0%nat (100, st)) as S.
    destruct (forEach_item 0 (items data) (100, st)) as [s st1]. cbn in *.
    exists (Z.max 0 s). split; [lia | now rewrite G].
Qed.

Lemma check_gstin_fc amb data st :
  exists v, In v [0; 30; 95] /\
    Locals.fieldConfidence (check_gstin amb data st)
    = let fc := Locals.fieldConfidence st in FC.mk (FC.invoiceNumber fc) (FC.amounts fc) (FC.items fc) v.
Proof.
  unfold check_gstin; cases; eexists; (split; [|reflexivity]); cbn; intuition.
Qed.

(** The four field scores after all checks range over small sets. *)
Lemma run_checks_fc amb data :
  exists a b c d,
    Locals.fieldConfidence (run_checks host amb data) = FC.mk a b c d
    /\ In a [0; 60; 95] /\ In b [0; 40; 75; 90; 95]
    /\ 0 <= c <= 100 /\ In d [0; 30; 95].
Proof.
  unfold run_checks.
  destruct (check_gstin_fc amb data
              (check_gst data (check_items data (check_amounts host data
                 (check_supplier data (check_date amb data
                    (check_invoiceNumber data empty_locals))))))) as (d & Hd & ->).
  rewrite check_gst_fc.
  destruct (check_items_fc data
              (check_amounts host data (check_supplier data
                 (check_date amb data (check_invoiceNumber data empty_locals)))))
    as (c & Hc & ->).
  destruct (check_amounts_fc data
              (check_supplier data (check_date amb data
                 (check_invoiceNumber data empty_locals)))) as (b & Hb & ->).
  rewrite check_supplier_fc, check_date_fc.
  destruct (check_invoiceNumber_fc data empty_locals) as (a & Ha & ->).
  cbn. exists a, b, c, d. auto.
Qed.

(** *** Records without line items *)

(** C9. A record without line items gets the hard error
    'No line items found' and an items score of 0, and is never
    auto-approved. *)
Theorem no_line_items (amb : Ambient) (data : ExtractedInvoiceData num) :
  items data = [] ->
  let r := validateInvoiceData host amb data in
  In "No line items found" (errors r)
  /\ FC.items (fieldConfidence r) = 0
  /\ canAutoApprove r = false.
Proof.
  intros E. cbv zeta.
  rewrite result_errors, result_fieldConfidence, result_canAutoApprove.
  unfold run_checks.
  set (st := check_amounts host data _).
  assert (I : FC.items (Locals.fieldConfidence
                (check_gstin amb data (check_gst data (check_items data st)))) = 0).
  { rewrite check_gstin_items, check_gst_fc. unfold check_items. now rewrite E. }
  split; [|split].
  - apply check_gstin_grows, check_gst_grows.
    unfold check_items. rewrite E. change (Z.of_nat (length []) =? 0) with true.
    cbn. rewrite in_app_iff. right. now left.
  - exact I.
  - unfold auto_approval. rewrite I. cbn. now rewrite !andb_false_r.
Qed.

(** *** The amounts score *)

Lemma check_amounts_grows data st : grows st (check_amounts host data st).
Proof. unfold check_amounts; cases; grows_tac. Qed.

Lemma later_checks_keep amb data st :
  let st' := check_gstin amb data (check_gst data (check_items data st)) in
  grows st st'
  /\ FC.amounts (Locals.fieldConfidence st') = FC.amounts (Locals.fieldConfidence st).
Proof.
  cbv zeta. split.
  - eapply grows_trans; [apply check_items_grows|].
    eapply grows_trans; [apply check_gst_grows | apply check_gstin_grows].
  - now rewrite check_gstin_amounts, check_gst_fc, check_items_amounts.
Qed.

(** C2 (as amended). With a declared total that passes the guard of
    the amounts check (on binary64: a total greater than 0), the amounts
    score starts from the subtotal comparison (95 within 1; 75 and a
    warning naming both values within 10; 40 and a hard error otherwise)
    and is then raised to at least 90 when the grand totals agree
    within 1. *)
Theorem amounts_score (amb : Ambient) (data : ExtractedInvoiceData num) :
  invalid_total data = false ->
  let r := validateInvoiceData host amb data in
  let score := FC.amounts (fieldConfidence r) in
  let bump := (totalDiff data <=? of_Z 1)%num in
  if (subtotalDiff data <=? of_Z 1)%num then score = 95
  else if (subtotalDiff data <=? of_Z 10)%num then
    In (subtotal_warning host data) (warnings r)
    /\ score = (if bump then 90 else 75)
  else
    In (subtotal_error host data) (errors r)
    /\ score = (if bump then 90 else 40).
Proof.
  intros V. cbv zeta.
  rewrite result_errors, result_warnings, result_fieldConfidence.
  unfold run_checks.
  set (st0 := check_supplier data _).
  destruct (later_checks_keep amb data (check_amounts host data st0)) as [[GE GW] ->].
  unfold check_amounts in *. rewrite V in *.
  destruct (subtotalDiff data <=? of_Z 1)%num;
    [|destruct (subtotalDiff data <=? of_Z 10)%num];
    destruct (totalDiff data <=? of_Z 1)%num;
    try destruct (totalDiff data >? of_Z 10)%num; cbn in *;
    try reflexivity;
    (split; [| reflexivity]);
    first [apply GW | apply GE]; cbn; rewrite ?in_app_iff; cbn; auto.
Qed.


(** *** What depends on the clock and the environment *)

Lemma check_invoiceNumber_core (data : ExtractedInvoiceData num) st1 st2 :
  core st1 = core st2 ->
  core (check_invoiceNumber data st1) = core (check_invoiceNumber data st2).
Proof. intros E. same_core. unfold check_invoiceNumber; cases; reflexivity. Qed.

Lemma check_date_core amb1 amb2 (data : ExtractedInvoiceData num) st1 st2 :
  same_reading amb1 amb2 data ->
  core st1 = core st2 ->
  core (check_date amb1 data st1) = core (check_date amb2 data st2).
Proof.
  intros [R1 R2] E. same_core. unfold check_date.
  destruct (negb (str_truthy (invoiceDate data))); [reflexivity|].
  destruct (Date_parse (zone amb1) (invoiceDate data)) as [t1|],
           (Date_parse (zone amb2) (invoiceDate data)) as [t2|].
  - cases; reflexivity.
  - destruct R1 as [? ?]; [eauto | discriminate].
  - destruct R2 as [? ?]; [eauto | discriminate].
  - reflexivity.
Qed.

Lemma check_supplier_core (data : ExtractedInvoiceData num) st1 st2 :
  core st1 = core st2 ->
  core (check_supplier data st1) = core (check_supplier data st2).
Proof. intros E. same_core. unfold check_supplier; cases; reflexivity. Qed.

Lemma check_amounts_core data st1 st2 :
  core st1 = core st2 ->
  core (check_amounts host data st1) = core (check_amounts host data st2).
Proof. intros E. same_core. unfold check_amounts; cases; reflexivity. Qed.

Lemma deduct_error_core c p m acc1 acc2 :
  fst acc1 = fst acc2 /\ core (snd acc1) = core (snd acc2) ->
  fst (deduct c p (push_error m) acc1) = fst (deduct c p (push_error m) acc2)
  /\ core (snd (deduct c p (push_error m) acc1))
     = core (snd (deduct c p (push_error m) acc2)).
Proof.
  destruct acc1 as [s1 st1], acc2 as [s2 st2]. cbn [fst snd]. intros [-> E].
  same_core. unfold deduct. destruct c; split; reflexivity.
Qed.

Lemma deduct_warning_core c p m acc1 acc2 :
  fst acc1 = fst acc2 /\ core (snd acc1) = core (snd acc2) ->
  fst (deduct c p (push_warning m) acc1) = fst (deduct c p (push_warning m) acc2)
  /\ core (snd (deduct c p (push_warning m) acc1))
     = core (snd (deduct c p (push_warning m) acc2)).
Proof.
  destruct acc1 as [s1 st1], acc2 as [s2 st2]. cbn [fst snd]. intros [-> E].
  same_core. unfold deduct. destruct c; split; reflexivity.
Qed.

Lemma check_item_core i item acc1 acc2 :
  fst acc1 = fst acc2 -> core (snd acc1) = core (snd acc2) ->
  fst (check_item i item acc1) = fst (check_item i item acc2)
  /\ core (snd (check_item i item acc1)) = core (snd (check_item i item acc2)).
Proof.
  intros Ef Ec. unfold check_item. cbv zeta.
  repeat first [apply deduct_error_core | apply deduct_warning_core].
  auto.
Qed.

Lemma forEach_item_core l : forall i acc1 acc2,
  fst acc1 = fst acc2 -> core (snd acc1) = core (snd acc2) ->
  fst (forEach_item i l acc1) = fst (forEach_item i l acc2)
  /\ core (snd (forEach_item i l acc1)) = core (snd (forEach_item i l acc2)).
Proof.
  induction l as [|item l IH]; intros i acc1 acc2 Ef Ec; cbn; [auto|].
  destruct (check_item_core i item acc1 acc2 Ef Ec). now apply IH.
Qed.

Lemma check_items_core data st1 st2 :
  core st1 = core st2 ->
  core (check_items data st1) = core (check_items data st2).
Proof.
  intros E. unfold check_items. destruct (_ =? 0).
  - same_core. reflexivity.
  - destruct (forEach_item_core (items data) 0%nat (100, st1) (100, st2) eq_refl E)
      as [Ef Ec].
    destruct (forEach_item 0 (items data) (100, st1)) as [s1 t1].
    destruct (forEach_item 0 (items data) (100, st2)) as [s2 t2].
    cbn in Ef, Ec. subst s2. same_core. reflexivity.
Qed.

Lemma check_gst_core data st1 st2 :
  core st1 = core st2 ->
  core (check_gst data st1) = core (check_gst data st2).
Proof. intros E. same_core. unfold check_gst; cases; reflexivity. Qed.

Lemma check_gstin_core amb1 amb2 data st1 st2 :
  core st1 = core st2 ->
  core (check_gstin amb1 data st1) = core (check_gstin amb2 data st2).
Proof. intros E. same_core. unfold check_gstin; cases; reflexivity. Qed.

Lemma run_checks_core amb1 amb2 data :
  same_reading amb1 amb2 data ->
  core (run_checks host amb1 data) = core (run_checks host amb2 data).
Proof.
  intros R. unfold run_checks.
  apply check_gstin_core, check_gst_core, check_items_core, check_amounts_core,
    check_supplier_core, check_date_core, check_invoiceNumber_core;
    [exact R | reflexivity].
Qed.

(** C3 (as amended). The result is a function of the record, the
    clock, [COMPANY_STATE_CODE] and the time zone of the process.  Two
    evaluations, at any two times, under any two settings of
    [COMPANY_STATE_CODE] and in any two time zones, that read the invoice
    date alike (as a date, or as none) agree on every field but
    [warnings]. *)
Theorem validate_core_independent_of_ambient
    (amb1 amb2 : Ambient) (data : ExtractedInvoiceData num) :
  same_reading amb1 amb2 data ->
  let r1 := validateInvoiceData host amb1 data in
  let r2 := validateInvoiceData host amb2 data in
  valid r1 = valid r2
  /\ errors r1 = errors r2
  /\ suggestions r1 = suggestions r2
  /\ canAutoApprove r1 = canAutoApprove r2
  /\ confidenceScore r1 = confidenceScore r2
  /\ fieldConfidence r1 = fieldConfidence r2.
Proof.
  intros R. cbv zeta. unfold validateInvoiceData. cbv zeta.
  pose proof (run_checks_core amb1 amb2 data R) as E.
  unfold auto_approval.
  destruct (run_checks host amb1 data) as [e1 w1 s1 f1].
  destruct (run_checks host amb2 data) as [e2 w2 s2 f2].
  unfold core in E. cbn in E. inversion E; subst.
  cbn. cases; auto 10.
Qed.

End ValidateFacts.

(** *** On binary64: the aggregate confidence and the total guard *)

Section Binary64Facts.
Import Ocr.

Lemma score_table_ok : forallb score_ok score_table = true.
Proof. vm_compute. reflexivity. Qed.

Lemma in_score_table a b c d :
  In a [0; 60; 95] -> In b [0; 40; 75; 90; 95] -> 0 <= c <= 100 -> In d [0; 30; 95] ->
  In (FC.mk a b c d) score_table.
Proof.
  intros Ha Hb Hc Hd. unfold score_table.
  apply in_flat_map. exists a. split; [exact Ha|].
  apply in_flat_map. exists b. split; [exact Hb|].
  apply in_flat_map. exists c. split.
  - apply in_map_iff. exists (Z.to_nat c). split; [lia|]. apply in_seq. lia.
  - apply in_map_iff. exists d. auto.
Qed.

(** C4. On binary64 the aggregate confidence is [Math.round] of the
    weighted sum of the four field scores; it is an integer nearest to
    the exact weighted sum (at most one half away from it) and lies
    between 0 and 100. *)
Theorem confidenceScore_weighted_sum
    (host : Host float) (amb : Ambient) (data : ExtractedInvoiceData float) :
  let r := validateInvoiceData host amb data in
  let fc := fieldConfidence r in
  confidenceScore r = Math_round (weighted_sum (num := float) fc)
  /\ Z.abs (100 * confidenceScore r - exact_weight fc) <= 50
  /\ 0 <= confidenceScore r <= 100.
Proof.
  cbv zeta.
  rewrite result_fieldConfidence, result_confidenceScore.
  destruct (run_checks_fc host amb data) as (a & b & c & d & -> & Ha & Hb & Hc & Hd).
  pose proof (in_score_table a b c d Ha Hb Hc Hd) as I.
  pose proof score_table_ok as T. rewrite forallb_forall in T.
  specialize (T _ I). unfold score_ok in T. cbv zeta in T.
  apply andb_true_iff in T as [T T3]. apply andb_true_iff in T as [T1 T2].
  split; [reflexivity|]. lia.
Qed.

(** On binary64 the guard [!x || x <= 0] fails exactly when [x > 0], so
    that a record passes [invalid_total] exactly when its declared total
    is a positive number. *)
Lemma SFeqb_finite_refl s m e : SFeqb (S754_finite s m e) (S754_finite s m e) = true.
Proof.
  unfold SFeqb, SFcompare. rewrite Z.compare_refl, Pos.compare_cont_refl.
  destruct s; reflexivity.
Qed.

Lemma guard_binary64 (x : float) :
  negb (truthy x) || (x <=? of_Z 0)%num = negb (x >? of_Z 0)%num.
Proof.
  change (truthy x) with (float_truthy x).
  change (x <=? of_Z 0)%num with (PrimFloat.leb x (float_of_Z 0)).
  change (x >? of_Z 0)%num with (PrimFloat.ltb (float_of_Z 0) x).
  unfold float_truthy, PrimFloat.is_nan, PrimFloat.is_zero.
  rewrite !FloatAxioms.eqb_spec, leb_spec, ltb_spec.
  replace (Prim2SF (float_of_Z 0)) with (S754_zero false) by (vm_compute; reflexivity).
  replace (Prim2SF PrimFloat.zero) with (S754_zero false) by (vm_compute; reflexivity).
  destruct (Prim2SF x) as [s|s| |s m e].
  - reflexivity.
  - destruct s; reflexivity.
  - reflexivity.
  - rewrite SFeqb_finite_refl. destruct s; reflexivity.
Qed.

Lemma invalid_total_binary64 (data : ExtractedInvoiceData float) :
  invalid_total data = negb (totalAmount data >? of_Z 0)%num.
Proof. apply guard_binary64. Qed.

(** In exact arithmetic the score is the weighted sum rounded half up. *)
Lemma overallConfidence_exact (fc : FC.t) :
  overallConfidence (num := Q) fc = (exact_weight fc + 50) / 100.
Proof.
  destruct fc as [a b c d].
  change (overallConfidence (num := Q) (FC.mk a b c d))
    with (Qfloor (inject_Z a * (inject_Z 2 / inject_Z 10)
                  + inject_Z b * (inject_Z 35 / inject_Z 100)
                  + inject_Z c * (inject_Z 3 / inject_Z 10)
                  + inject_Z d * (inject_Z 15 / inject_Z 100) + (1 # 2))%Q).
  change (exact_weight (FC.mk a b c d)) with (20 * a + 35 * b + 30 * c + 15 * d).
  transitivity (Qfloor ((20 * a + 35 * b + 30 * c + 15 * d + 50) # 100)); [|reflexivity].
  apply Qfloor_comp.
  unfold Qeq. cbv - [Z.mul Z.add]. lia.
Qed.

(** On an exact tie binary64 can fall on the lower neighbour: the scores
    0, 90, 0, 0 weigh 31.5 exactly and [90 * 0.35] is just below it. *)
Example tie_rounds_down_on_binary64 :
  overallConfidence (num := float) (FC.mk 0 90 0 0) = 31
  /\ overallConfidence (num := Q) (FC.mk 0 90 0 0) = 32.
Proof. split; vm_compute; reflexivity. Qed.

End Binary64Facts.

(** * Properties of the template service *)

Section StoreFacts.
Context {num : Type} `{JsNumber num}.
Import TemplateService.
Implicit Types (st : Store num) (t : InvoiceTemplate num) (c : Conditions).

Lemma cachePrefix_inj a b : cachePrefix ++ a = cachePrefix ++ b -> a = b.
Proof. unfold cachePrefix. cbn. intros E. now inversion E. Qed.

Lemma expire_lookup c st k :
  redis (expire c st) !! k = None \/ redis (expire c st) !! k = redis st !! k.
Proof.
  unfold expire. cbn. induction (expired c) as [|x l IH]; cbn; [now right|].
  destruct (decide (x = k)) as [->|Ne]; [left; apply lookup_delete_eq|].
  rewrite lookup_delete_ne by exact Ne. exact IH.
Qed.

Lemma expire_coherent_at c sid st : coherent_at sid st -> coherent_at sid (expire c st).
Proof.
  intros C t L.
  destruct (expire_lookup c st (cachePrefix ++ sid)) as [E|E]; rewrite E in L;
    [discriminate | now apply C].
Qed.

Lemma getTemplate_suppliers c sid st :
  suppliers (snd (getTemplate c sid st)) = suppliers st.
Proof.
  unfold getTemplate. cbv zeta.
  destruct (negb (get_answers c)); [reflexivity|].
  destruct (redis (expire c st) !! _); [reflexivity|].
  destruct (negb (database_answers c)); [reflexivity|].
  destruct (suppliers (expire c st) !! sid) as [[t|]|]; [|reflexivity..].
  destruct (setex_answers c); reflexivity.
Qed.

(** Reading never puts the cache at odds with the table. *)
Lemma getTemplate_coherent_at c sid sid' st :
  coherent_at sid' st -> coherent_at sid' (snd (getTemplate c sid st)).
Proof.
  intros C. apply (expire_coherent_at c) in C.
  unfold getTemplate. cbv zeta.
  destruct (negb (get_answers c)); [exact C|].
  destruct (redis (expire c st) !! _); [exact C|].
  destruct (negb (database_answers c)); [exact C|].
  destruct (suppliers (expire c st) !! sid) as [[t|]|] eqn:Es; [|exact C..].
  destruct (setex_answers c); [|exact C].
  intros t' L. cbn in *.
  destruct (decide (cachePrefix ++ sid = cachePrefix ++ sid')) as [E|Ne].
  - apply cachePrefix_inj in E. subst sid'.
    rewrite lookup_insert_eq in L. inversion L; subst. exact Es.
  - rewrite lookup_insert_ne in L by exact Ne. now apply C.
Qed.

(** When every request is answered and the cache agrees with the table,
    [getTemplate] returns what the table holds. *)
Lemma getTemplate_stored c sid st :
  reliable c = true -> coherent_at sid st ->
  fst (getTemplate c sid st) = stored sid st.
Proof.
  unfold reliable. rewrite !andb_true_iff. intros [[G S] D] C.
  apply (expire_coherent_at c) in C.
  unfold getTemplate, stored. cbv zeta. rewrite G, S, D. cbn [negb].
  change (suppliers st) with (suppliers (expire c st)).
  destruct (redis (expire c st) !! _) as [cached|] eqn:Er.
  - now rewrite (C cached Er).
  - destruct (suppliers (expire c st) !! sid) as [[t|]|]; reflexivity.
Qed.

Lemma saveTemplate_row c sid sid' t st :
  is_Some (suppliers st !! sid') -> is_Some (suppliers (saveTemplate c sid t st) !! sid').
Proof.
  intros S. unfold saveTemplate. cbv zeta.
  destruct (negb (database_answers c)); [exact S|].
  change (suppliers (expire c st)) with (suppliers st).
  destruct (suppliers st !! sid) eqn:E; [|exact S].
  assert (S' : is_Some (<[sid := Some (JSON_template t)]> (suppliers st) !! sid')).
  { destruct (decide (sid = sid')) as [->|Ne];
      [rewrite lookup_insert_eq; eauto | now rewrite lookup_insert_ne]. }
  destruct (setex_answers c); exact S'.
Qed.

(** Writing when the database and Redis answer. *)
Lemma saveTemplate_stored c sid t st :
  database_answers c = true -> setex_answers c = true ->
  is_Some (suppliers st !! sid) ->
  stored sid (saveTemplate c sid t st) = Some (JSON_template t)
  /\ coherent_at sid (saveTemplate c sid t st).
Proof.
  intros D S [x Hx]. unfold saveTemplate, stored, coherent_at. cbv zeta.
  rewrite D, S. cbn [negb].
  change (suppliers (expire c st)) with (suppliers st). rewrite Hx. cbn.
  rewrite !lookup_insert_eq. split; [reflexivity|]. now intros t' [= <-].
Qed.

Variable host : Engine num.

(** One call of [learnFromInvoice] whose writing is answered, for a
    supplier with a row. *)
Lemma learn_found sid (c : Call num) st :
  database_answers (call_writing c) = true -> setex_answers (call_writing c) = true ->
  is_Some (suppliers st !! sid) ->
  let st' := learn host sid c st in
  stored sid st'
  = Some (learned_template host sid c (fst (getTemplate (call_reading c) sid st)))
  /\ coherent_at sid st'.
Proof.
  intros D S R. cbv zeta. unfold learn, learnFromInvoice, learned_template.
  pose proof (getTemplate_suppliers (call_reading c) sid st) as E.
  destruct (getTemplate (call_reading c) sid st) as [found st1]. cbn [fst snd] in *.
  apply saveTemplate_stored; [exact D | exact S | now rewrite E].
Qed.

Lemma learn_row sid sid' (c : Call num) st :
  is_Some (suppliers st !! sid') -> is_Some (suppliers (learn host sid c st) !! sid').
Proof.
  intros R. unfold learn, learnFromInvoice.
  pose proof (getTemplate_suppliers (call_reading c) sid st) as E.
  destruct (getTemplate (call_reading c) sid st) as [found st1]. cbn [snd] in E.
  apply saveTemplate_row. now rewrite E.
Qed.

(** One call of [learnFromInvoice] when every request is answered. *)
Lemma learn_step sid (c : Call num) st :
  reliable_call c = true -> coherent_at sid st -> is_Some (suppliers st !! sid) ->
  let st' := learn host sid c st in
  stored sid st' = Some (learned_template host sid c (stored sid st))
  /\ coherent_at sid st'
  /\ is_Some (suppliers st' !! sid).
Proof.
  unfold reliable_call. rewrite andb_true_iff. intros [Rr Rw] C R. cbv zeta.
  pose proof Rw as Rw'. unfold reliable in Rw'. rewrite !andb_true_iff in Rw'.
  destruct Rw' as [[_ S] D].
  destruct (learn_found sid c st D S R) as [E C'].
  rewrite (getTemplate_stored _ sid st Rr C) in E.
  split; [exact E | split; [exact C' | now apply learn_row]].
Qed.

Lemma fresh_stored sid st :
  fresh sid st -> stored sid st = None /\ coherent_at sid st /\ is_Some (suppliers st !! sid).
Proof.
  intros [Hr Hs]. unfold stored, coherent_at. rewrite Hr, Hs.
  split; [reflexivity | split; [discriminate | eauto]].
Qed.

Lemma replay_snoc sid (calls : list (Call num)) (c : Call num) st :
  replay host sid (calls ++ [c]) st = learn host sid c (replay host sid calls st).
Proof. unfold replay. now rewrite fold_left_app. Qed.

Lemma replay_keeps sid (calls : list (Call num)) : forall st,
  forallb reliable_call calls = true ->
  coherent_at sid st -> is_Some (suppliers st !! sid) ->
  coherent_at sid (replay host sid calls st)
  /\ is_Some (suppliers (replay host sid calls st) !! sid).
Proof.
  induction calls as [|c calls IH]; intros st F C R; [now split|].
  cbn in F. apply andb_true_iff in F as [Fc F].
  destruct (learn_step sid c st Fc C R) as (_ & C' & R').
  cbn. now apply IH.
Qed.

End StoreFacts.

Section TemplateFacts.
Context {num : Type} `{JsNumber num}.
Import TemplateService.
Variable host : Engine num.
Implicit Types (t : InvoiceTemplate num) (data : Ocr.ExtractedInvoiceData num).

Lemma check_format_score t data st :
  matchScore st - 10 <= matchScore (check_format host t data st) <= matchScore st.
Proof. unfold check_format, anomaly, suggest; branches; cbn; lia. Qed.

Lemma check_itemCount_score t data st :
  matchScore st - 5 <= matchScore (check_itemCount t data st) <= matchScore st.
Proof. unfold check_itemCount, anomaly, suggest; branches; cbn; lia. Qed.

Lemma check_totalAmount_score t data st st' :
  check_totalAmount host t data st = Resolved st' ->
  matchScore st - 15 <= matchScore st' <= matchScore st.
Proof.
  unfold check_totalAmount, anomaly, suggest.
  destruct (_ >? _)%num; [destruct (avgTotalAmount (patterns t))|];
    intros [= <-]; cbn; lia.
Qed.

(** The check of the total amount throws only on an average that is
    [null]. *)
Lemma check_totalAmount_resolves t data st :
  is_Some (avgTotalAmount (patterns t)) ->
  exists st', check_totalAmount host t data st = Resolved st'.
Proof.
  intros [a E]. unfold check_totalAmount. rewrite E.
  destruct (_ >? _)%num; eauto.
Qed.

Lemma check_totalAmount_rejects t data st message :
  check_totalAmount host t data st = Rejected message ->
  avgTotalAmount (patterns t) = None /\ message = toLocaleString_of_null.
Proof.
  unfold check_totalAmount.
  destruct (_ >? _)%num; [|discriminate].
  destruct (avgTotalAmount (patterns t)); [discriminate|].
  intros [= <-]. auto.
Qed.

Lemma check_gstType_score t data st :
  matchScore st - 10 <= matchScore (check_gstType t data st) <= matchScore st.
Proof. unfold check_gstType, anomaly, suggest; branches; cbn; lia. Qed.

Lemma check_hsn_score t data st :
  matchScore st - 10 <= matchScore (check_hsn t data st) <= matchScore st.
Proof. unfold check_hsn, anomaly, suggest; branches; cbn; lia. Qed.

Lemma check_names_score (t : InvoiceTemplate num) (data : Ocr.ExtractedInvoiceData num) st :
  matchScore st - 15 <= matchScore (check_names t data st) <= matchScore st.
Proof. unfold check_names, anomaly, suggest; branches; cbn; lia. Qed.

Lemma final_suggestions_score (t : InvoiceTemplate num) st :
  matchScore (final_suggestions t st) = matchScore st.
Proof. unfold final_suggestions, suggest; branches; reflexivity. Qed.

Lemma later_checks_score t data st :
  matchScore st - (10 + 10 + 15) <= matchScore (later_checks t data st) <= matchScore st.
Proof.
  unfold later_checks. rewrite final_suggestions_score.
  pose proof (check_gstType_score t data st).
  set (s4 := check_gstType t data st) in *.
  pose proof (check_hsn_score t data s4).
  set (s5 := check_hsn t data s4) in *.
  pose proof (check_names_score t data s5). lia.
Qed.

(** The six penalties take at most 65 points from 100. *)
Lemma run_template_checks_score t data l :
  run_template_checks host t data = Resolved l ->
  100 - (10 + 5 + 15 + 10 + 10 + 15) <= matchScore l <= 100.
Proof.
  unfold run_template_checks. cbv zeta.
  set (s0 := mkLocals [] [] 100).
  pose proof (check_format_score t data s0).
  set (s1 := check_format host t data s0) in *.
  pose proof (check_itemCount_score t data s1).
  set (s2 := check_itemCount t data s1) in *.
  destruct (check_totalAmount host t data s2) as [s3|] eqn:E; [|discriminate].
  intros [= <-].
  pose proof (check_totalAmount_score t data s2 s3 E).
  pose proof (later_checks_score t data s3).
  change (matchScore s0) with 100 in *. lia.
Qed.

Lemma run_template_checks_resolves t data :
  is_Some (avgTotalAmount (patterns t)) ->
  exists l, run_template_checks host t data = Resolved l.
Proof.
  intros A. unfold run_template_checks. cbv zeta.
  destruct (check_totalAmount_resolves t data
              (check_itemCount t data (check_format host t data (mkLocals [] [] 100))) A)
    as [st' ->].
  eauto.
Qed.

Lemma run_template_checks_rejects t data message :
  run_template_checks host t data = Rejected message ->
  avgTotalAmount (patterns t) = None /\ message = toLocaleString_of_null.
Proof.
  unfold run_template_checks. cbv zeta.
  destruct (check_totalAmount host t data _) as [st'|m] eqn:E; [discriminate|].
  intros [= <-]. now apply check_totalAmount_rejects in E.
Qed.

(** C10. The confidence returned by [validateAgainstTemplate] lies in
    [35, 100]: it is 50 without a template, and with one it is the match
    score itself, which the six penalties (65 points in all) keep at or
    above 35, so that the clamp to [0, 100] changes nothing.  The call
    returns unless the average total of the template is [null] (a total
    that was not finite has been through JSON), on which
    [toLocaleString] throws. *)
Theorem match_confidence_range
    (c : Conditions) (data : Ocr.ExtractedInvoiceData num) (sid : string) (st : Store num) :
  match fst (validateAgainstTemplate host c data sid st) with
  | Resolved r =>
      35 <= confidence r <= 100
      /\ match fst (getTemplate c sid st) with
         | None => confidence r = 50
         | Some t =>
             exists l, run_template_checks host t data = Resolved l
                       /\ confidence r = matchScore l
                       /\ 100 - (10 + 5 + 15 + 10 + 10 + 15) <= matchScore l <= 100
         end
  | Rejected message =>
      message = toLocaleString_of_null
      /\ exists t, fst (getTemplate c sid st) = Some t
                   /\ avgTotalAmount (patterns t) = None
  end
  /\ (match fst (getTemplate c sid st) with
      | Some t => is_Some (avgTotalAmount (patterns t))
      | None => True
      end ->
      exists r, fst (validateAgainstTemplate host c data sid st) = Resolved r).
Proof.
  unfold validateAgainstTemplate.
  destruct (getTemplate c sid st) as [[t|] st1]; cbn [fst snd].
  - destruct (run_template_checks host t data) as [l|message] eqn:E; cbn [fst].
    + pose proof (run_template_checks_score t data l E).
      split; [|eauto]. cbn [confidence]. split; [lia|].
      exists l. split; [reflexivity|]. split; lia.
    + apply run_template_checks_rejects in E as [E ->].
      split; [eauto|]. rewrite E. intros [? ?]. discriminate.
  - split; [|eauto]. cbn. split; [lia | reflexivity].
Qed.

End TemplateFacts.

(** *** The moving averages *)

Section OnlineMean.
Context {num : Type} `{JsNumber num}.
Import TemplateService.
Variable host : Engine num.

Lemma online_from_snoc (avg : option num) n vs v :
  online_from avg n (vs ++ [v])
  = online_step (online_from avg n vs) (n + Z.of_nat (length vs)) v.
Proof.
  revert avg n. induction vs as [|x vs IH]; intros avg n; cbn [online_from app length].
  - now rewrite Z.add_0_r.
  - rewrite IH.
    now replace (n + 1 + Z.of_nat (length vs)) with (n + Z.of_nat (S (length vs))) by lia.
Qed.

Lemma online_mean_snoc (v0 : num) vs v :
  online_mean ((v0 :: vs) ++ [v])
  = online_step (online_mean (v0 :: vs)) (Z.of_nat (length (v0 :: vs))) v.
Proof.
  cbn [online_mean app]. rewrite online_from_snoc.
  now replace (1 + Z.of_nat (length vs)) with (Z.of_nat (length (v0 :: vs)))
    by (cbn [length]; lia).
Qed.

(** The template after learning [k >= 1] invoices, every request being
    answered: the count is [k] and the three averages are the moving
    averages of the source. *)
Lemma replay_online sid (calls : list (Call num)) : forall st : Store num,
  fresh sid st -> forallb reliable_call calls = true -> calls <> [] ->
  exists t,
    stored sid (replay host sid calls st) = Some t
    /\ totalInvoicesProcessed (statistics t) = Z.of_nat (length calls)
    /\ avgTotalAmount (patterns t) = online_mean (map total_of calls)
    /\ avgItemCount (patterns t) = online_mean (map count_of calls)
    /\ accuracyRate (statistics t) = online_mean (map accuracy_of calls).
Proof.
  induction calls as [|c calls IH] using rev_ind; intros st F R NE; [congruence|].
  destruct (fresh_stored sid st F) as (S0 & C0 & R0).
  rewrite forallb_app in R. apply andb_true_iff in R as [R Rc].
  cbn in Rc. rewrite andb_true_r in Rc.
  rewrite replay_snoc.
  destruct (replay_keeps host sid calls st R C0 R0) as [C1 R1].
  destruct (learn_step host sid c _ Rc C1 R1) as (E & _ & _).
  rewrite E. clear E.
  destruct calls as [|c0 calls'].
  - (* the first invoice: a new template *)
    cbn [replay fold_left]. rewrite S0. eexists. split; [reflexivity|].
    cbn. unfold total_of, count_of, accuracy_of, itemCount.
    destruct (call_accurate c); auto.
  - (* a later invoice: the update *)
    destruct (IH st F R ltac:(discriminate)) as (t & St & Hn & HT & HC & HA).
    rewrite St. eexists. split; [reflexivity|].
    set (calls := c0 :: calls') in *.
    cbn [learned_template JSON_template updateTemplate statistics patterns
           totalInvoicesProcessed avgTotalAmount avgItemCount accuracyRate].
    rewrite Hn, HT, HC, HA. rewrite !map_app. cbn [map].
    unfold calls. cbn [map]. rewrite !online_mean_snoc.
    cbn [length]. rewrite !length_map, length_app. cbn [length].
    split; [lia|]. unfold online_step, itemCount, count_of, accuracy_of.
    destruct (call_accurate c); auto.
Qed.

End OnlineMean.

Section ExactMean.
Import TemplateService.
#[local] Open Scope Q_scope.

Lemma Qsum_snoc l v : Qsum (l ++ [v]) == Qsum l + v.
Proof.
  induction l as [|x l IH]; cbn.
  - ring.
  - unfold Qsum in *. rewrite IH. ring.
Qed.




End ExactMean.

Section LearnOnline.
Context {num : Type} `{JsNumber num}.
Import TemplateService.
Variable host : Engine num.


End LearnOnline.

(** *** The frequency lists *)

Section FrequencyFacts.
Import TemplateService.

(** *** Stable insertion sort *)

Section SortFacts.
Context {A : Type} (before : A -> A -> bool).

Lemma insert_In x l e : In e (insert before x l) <-> e = x \/ In e l.
Proof.
  induction l as [|y ys IH]; cbn.
  - intuition.
  - destruct (before x y); cbn; [intuition|]. rewrite IH. intuition.
Qed.

Lemma stable_sort_In l e : In e (stable_sort before l) <-> In e l.
Proof.
  induction l as [|x xs IH]; cbn; [reflexivity|].
  rewrite insert_In, IH. intuition.
Qed.

Lemma insert_length x l : length (insert before x l) = S (length l).
Proof.
  induction l as [|y ys IH]; cbn; [reflexivity|].
  destruct (before x y); cbn; congruence.
Qed.

(** The sort looks at its comparator on the elements of the list only. *)
Lemma insert_ext (before' : A -> A -> bool) x l :
  (forall y, In y l -> before x y = before' x y) ->
  insert before x l = insert before' x l.
Proof.
  induction l as [|y ys IH]; intros E; cbn; [reflexivity|].
  rewrite <- (E y) by now left. destruct (before x y); [reflexivity|].
  f_equal. apply IH. intros z Hz. apply E. now right.
Qed.

Lemma stable_sort_ext (before' : A -> A -> bool) l :
  (forall x y, In x l -> In y l -> before x y = before' x y) ->
  stable_sort before l = stable_sort before' l.
Proof.
  induction l as [|x xs IH]; intros E; cbn; [reflexivity|].
  rewrite <- IH by (intros; apply E; now right).
  apply insert_ext. intros y Hy. apply E; [now left|].
  right. exact (proj1 (stable_sort_In xs y) Hy).
Qed.

Variable key : A -> Z.
Hypothesis before_key : forall x y, before x y = (key y <=? key x).

Lemma insert_sorted x l :
  StronglySorted (fun a b => key b <= key a) l ->
  StronglySorted (fun a b => key b <= key a) (insert before x l).
Proof.
  induction 1 as [|y ys S IH F]; cbn.
  - repeat constructor.
  - rewrite before_key. destruct (key y <=? key x) eqn:C.
    + apply Z.leb_le in C. constructor; [constructor; assumption|].
      constructor; [assumption|].
      eapply List.Forall_impl; [|exact F]. cbn. intros; lia.
    + apply Z.leb_gt in C. constructor; [assumption|].
      apply List.Forall_forall. intros e He. apply insert_In in He as [->|He]; [lia|].
      rewrite List.Forall_forall in F. now apply F.
Qed.

Lemma stable_sort_sorted l :
  StronglySorted (fun a b => key b <= key a) (stable_sort before l).
Proof.
  induction l as [|x xs IH]; cbn; [constructor | now apply insert_sorted].
Qed.
End SortFacts.

Lemma StronglySorted_take {A} (R : A -> A -> Prop) n l :
  StronglySorted R l -> StronglySorted R (take n l).
Proof.
  intros S. revert n. induction S as [|x xs S IH F]; intros [|n]; cbn; try constructor.
  - apply IH.
  - rewrite List.Forall_forall in *. intros e He. apply F.
    apply list_elem_of_In. eapply subseteq_take. apply list_elem_of_In. exact He.
Qed.

(** *** The frequency table *)

Lemma bump_plain val fr :
  plain val = true -> numeric fr -> numeric (bump val fr).
Proof.
  unfold plain. intros P. induction fr as [|[k c] rest IH]; cbn; intros N.
  - destruct (Object_prototype val); try discriminate.
    intros e [<-|[]]. now exists 1.
  - destruct (String.eqb k val).
    + intros e [<-|He]; [|apply N; now right].
      destruct (N (k, c) ltac:(now left)) as [n Hn]. cbn in Hn. subst c. cbn. eauto.
    + intros e [<-|He]; [apply N; now left|].
      apply IH; [|exact He]. intros e' He'. apply N. now right.
Qed.

Lemma frequency_of_bump val fr key :
  plain val = true -> numeric fr ->
  frequency_of (bump val fr) key
  = frequency_of fr key + (if String.eqb val key then 1 else 0).
Proof.
  unfold plain, frequency_of. intros P. induction fr as [|[k c] rest IH]; cbn; intros N.
  - destruct (Object_prototype val); try discriminate. cbn.
    destruct (String.eqb val key); reflexivity.
  - destruct (N (k, c) ltac:(now left)) as [n Hn]. cbn in Hn. subst c.
    destruct (String.eqb k val) eqn:Ekv; cbn.
    + apply String.eqb_eq in Ekv. subst k.
      destruct (String.eqb val key); [|lia].
      cbn. destruct (n =? 0) eqn:N0; [apply Z.eqb_eq in N0|]; lia.
    + destruct (String.eqb k key) eqn:Ek; cbn.
      * apply String.eqb_eq in Ek. subst k. rewrite String.eqb_sym, Ekv. lia.
      * apply IH. intros e He. apply N. now right.
Qed.

Lemma bump_keys val fr :
  List.NoDup (map fst fr) -> List.NoDup (map fst (bump val fr)).
Proof.
  induction fr as [|[k n] rest IH]; cbn; intros N.
  - destruct (Object_prototype val); cbn; repeat constructor; intros [].
  - destruct (String.eqb k val) eqn:E; cbn; [exact N|].
    apply List.NoDup_cons_iff in N as [Nk N]. apply List.NoDup_cons_iff. split; [|auto].
    intros I. apply Nk. clear - I E.
    induction rest as [|[k' n'] rest IH]; cbn in *.
    + destruct (Object_prototype val); cbn in I; try contradiction;
        destruct I as [->|[]]; now rewrite String.eqb_refl in E.
    + destruct (String.eqb k' val); cbn in I; [exact I|].
      destruct I as [->|I]; [now left | right; auto].
Qed.

Lemma occurrences_cons v x l :
  occurrences v (x :: l) = (if String.eqb x v then 1 else 0) + occurrences v l.
Proof.
  unfold occurrences. cbn. rewrite (String.eqb_sym v x).
  destruct (String.eqb x v); cbn [length]; lia.
Qed.

Lemma count_existing l : forall fr,
  forallb plain l = true -> numeric fr -> List.NoDup (map fst fr) ->
  let fr' := fold_left (fun fr val => bump val fr) l fr in
  numeric fr' /\ List.NoDup (map fst fr')
  /\ forall key, frequency_of fr' key = frequency_of fr key + occurrences key l.
Proof.
  induction l as [|x l IH]; intros fr P Nu N; cbn.
  - split; [exact Nu|]. split; [exact N|]. intros. unfold occurrences. cbn. lia.
  - cbn in P. apply andb_true_iff in P as [Px P].
    destruct (IH (bump x fr) P (bump_plain x fr Px Nu) (bump_keys x fr N)) as (Nu' & N' & F).
    split; [exact Nu'|]. split; [exact N'|].
    intros key. rewrite F, frequency_of_bump, occurrences_cons by assumption. lia.
Qed.

Lemma count_new l : forall fr,
  forallb plain l = true -> numeric fr -> List.NoDup (map fst fr) ->
  let fr' := fold_left (fun fr val => if str_truthy val then bump val fr else fr) l fr in
  numeric fr' /\ List.NoDup (map fst fr')
  /\ forall key, frequency_of fr' key
                 = frequency_of fr key + occurrences key (List.filter str_truthy l).
Proof.
  induction l as [|x l IH]; intros fr P Nu N; cbn.
  - split; [exact Nu|]. split; [exact N|]. intros. unfold occurrences. cbn. lia.
  - cbn in P. apply andb_true_iff in P as [Px P]. destruct (str_truthy x).
    + destruct (IH (bump x fr) P (bump_plain x fr Px Nu) (bump_keys x fr N))
        as (Nu' & N' & F).
      split; [exact Nu'|]. split; [exact N'|].
      intros key. rewrite F, frequency_of_bump, occurrences_cons by assumption. lia.
    + now apply IH.
Qed.

Lemma count_values_spec existing newValues :
  forallb plain (existing ++ newValues) = true ->
  numeric (count_values existing newValues)
  /\ List.NoDup (map fst (count_values existing newValues))
  /\ forall key, frequency_of (count_values existing newValues) key
                 = merged_count existing newValues key.
Proof.
  rewrite forallb_app, andb_true_iff. intros [Pe Pn].
  unfold count_values, merged_count.
  destruct (count_existing existing [] Pe ltac:(intros e []) (List.NoDup_nil _))
    as (Nu1 & N1 & F1).
  destruct (count_new newValues _ Pn Nu1 N1) as (Nu2 & N2 & F2).
  split; [exact Nu2|]. split; [exact N2|]. intros key. rewrite F2, F1. reflexivity.
Qed.

Lemma frequency_of_In fr k c :
  List.NoDup (map fst fr) -> In (k, c) fr -> frequency_of fr k = number_of c.
Proof.
  unfold frequency_of. induction fr as [|[k' n'] rest IH]; cbn; intros N I; [easy|].
  apply List.NoDup_cons_iff in N as [Nk N].
  destruct I as [E|I].
  - inversion E; subst. rewrite String.eqb_refl. reflexivity.
  - destruct (String.eqb k' k) eqn:E; [|auto].
    apply String.eqb_eq in E. subst k'. exfalso. apply Nk.
    apply in_map_iff. exists (k, c). auto.
Qed.

Lemma Object_entries_In fr e : In e (Object_entries fr) <-> In e fr.
Proof.
  unfold Object_entries. rewrite in_app_iff, stable_sort_In, !filter_In.
  destruct (bool_decide _); cbn; intuition congruence.
Qed.

(** On numbers the comparator of the source is a consistent one. *)
Lemma by_frequency_consistent l :
  (forall e, In e l -> exists n, snd e = Number n) -> consistent by_frequency l.
Proof.
  intros N. unfold consistent, by_frequency. repeat split.
  - intros a b Ha Hb. destruct (N a Ha) as [x ->], (N b Hb) as [y ->]. eauto.
  - intros a Ha. destruct (N a Ha) as [x ->]. f_equal. lia.
  - intros a b Ha Hb. destruct (N a Ha) as [x ->], (N b Hb) as [y ->].
    intros [= E]. f_equal. lia.
  - destruct (N a H) as [x Ex], (N b H0) as [y Ey], (N c H1) as [z Ez].
    rewrite Ex, Ey in H2. rewrite Ey, Ez in H3. rewrite Ex, Ez in H4.
    inversion H2; inversion H3; inversion H4. lia.
  - destruct (N a H) as [x Ex], (N b H0) as [y Ey], (N c H1) as [z Ez].
    rewrite Ex, Ey in H2. rewrite Ey, Ez in H3. rewrite Ex, Ez in H4.
    inversion H2; inversion H3; inversion H4. lia.
  - destruct (N a H) as [x Ex], (N b H0) as [y Ey], (N c H1) as [z Ez].
    rewrite Ex, Ey in H2. rewrite Ey, Ez in H3. rewrite Ex, Ez in H4.
    inversion H2; inversion H3; inversion H4. lia.
Qed.

Lemma stable_sort_by_frequency l :
  (forall e, In e l -> exists n, snd e = Number n) ->
  StronglySorted (fun a b => number_of (snd b) <= number_of (snd a))
                 (stable_sort_by by_frequency l).
Proof.
  intros N. unfold stable_sort_by.
  rewrite (stable_sort_ext _ (fun x y => number_of (snd y) <=? number_of (snd x))).
  - apply stable_sort_sorted. reflexivity.
  - intros x y Hx Hy. unfold by_frequency.
    destruct (N x Hx) as [a ->], (N y Hy) as [b ->]. cbn.
    destruct (b - a <=? 0) eqn:E1, (b <=? a) eqn:E2; try reflexivity; lia.
Qed.

Context {num : Type} `{JsNumber num}.
Variable host : Engine num.

Lemma updateCommonValues_length existing newValues maxSize :
  (length (updateCommonValues host existing newValues maxSize) <= maxSize)%nat.
Proof. unfold updateCommonValues. rewrite length_map, length_take. lia. Qed.

(** The list that [updateCommonValues] returns for values that name no
    property of [Object.prototype], when the engine sorts: it is in
    descending order of the counts of the merged table. *)
Lemma updateCommonValues_ranked existing newValues maxSize :
  sorts host ->
  forallb plain (existing ++ newValues) = true ->
  ranked (merged_count existing newValues)
         (updateCommonValues host existing newValues maxSize).
Proof.
  intros So P. unfold updateCommonValues, ranked.
  destruct (count_values_spec existing newValues P) as (Nu & N & F).
  set (fr := count_values existing newValues) in *.
  assert (Ne : forall e, In e (Object_entries fr) -> exists n, snd e = Number n).
  { intros e He. apply Nu. now apply Object_entries_In. }
  rewrite (So by_frequency _ (by_frequency_consistent _ Ne)).
  set (sorted := stable_sort_by by_frequency (Object_entries fr)).
  assert (S : StronglySorted (fun a b => number_of (snd b) <= number_of (snd a))
                             (take maxSize sorted)).
  { apply StronglySorted_take. now apply stable_sort_by_frequency. }
  assert (I : forall e, In e (take maxSize sorted) ->
                        number_of (snd e) = merged_count existing newValues (fst e)).
  { intros [k n] He. cbn. rewrite <- F. symmetry. apply frequency_of_In; [exact N|].
    apply Object_entries_In. unfold sorted, stable_sort_by in He.
    eapply stable_sort_In. apply list_elem_of_In.
    eapply subseteq_take. apply list_elem_of_In. exact He. }
  induction S as [|e es S IH Fa]; cbn; constructor.
  - apply IH. intros e' He'. apply I. now right.
  - rewrite List.Forall_forall in *. intros k Hk.
    apply in_map_iff in Hk as (e' & <- & He').
    rewrite <- (I e) by now left. rewrite <- (I e') by now right.
    now apply Fa.
Qed.

(** *** Through [learnFromInvoice] *)

Lemma expire_bounded c (st : Store num) : store_bounded st -> store_bounded (expire c st).
Proof.
  intros [Br Bs]. split; [|exact Bs]. intros k t L.
  destruct (expire_lookup c st k) as [E|E]; rewrite E in L; [discriminate | eauto].
Qed.

Lemma getTemplate_bounded c sid (st : Store num) :
  store_bounded st ->
  store_bounded (snd (getTemplate c sid st))
  /\ forall t, fst (getTemplate c sid st) = Some t -> bounded t.
Proof.
  intros B. apply (expire_bounded c) in B.
  unfold getTemplate. cbv zeta.
  set (st1 := expire c st) in *. clearbody st1. destruct B as [Br Bs].
  destruct (negb (get_answers c)); [split; [split; assumption | discriminate]|].
  destruct (redis st1 !! (cachePrefix ++ sid)) as [cached|] eqn:Er; cbn.
  - split; [split; assumption|]. intros t [= <-]. eauto.
  - destruct (negb (database_answers c)); [split; [split; assumption | discriminate]|].
    destruct (suppliers st1 !! sid) as [[t0|]|] eqn:Es; cbn.
    + destruct (setex_answers c); cbn; [|split; [split; assumption | discriminate]].
      split.
      * split; [|assumption]. cbn. intros k t L.
        destruct (decide (cachePrefix ++ sid = k)) as [<-|Ne].
        -- rewrite lookup_insert_eq in L. inversion L; subst. eauto.
        -- rewrite lookup_insert_ne in L by assumption. eauto.
      * intros t [= <-]. eauto.
    + split; [split; assumption | discriminate].
    + split; [split; assumption | discriminate].
Qed.

Lemma saveTemplate_bounded c sid t (st : Store num) :
  bounded t -> store_bounded st -> store_bounded (saveTemplate c sid t st).
Proof.
  intros B S. apply (expire_bounded c) in S.
  assert (B' : bounded (JSON_template t)) by exact B.
  unfold saveTemplate. cbv zeta.
  set (st1 := expire c st) in *. clearbody st1. destruct S as [Br Bs].
  destruct (negb (database_answers c)); [split; assumption|].
  destruct (suppliers st1 !! sid); [|split; assumption].
  assert (Bs' : forall k t', <[sid := Some (JSON_template t)]> (suppliers st1) !! k
                             = Some (Some t') -> bounded t').
  { intros k t' L. destruct (decide (sid = k)) as [<-|Ne].
    - rewrite lookup_insert_eq in L. now inversion L; subst.
    - rewrite lookup_insert_ne in L by assumption. eauto. }
  destruct (setex_answers c); split; cbn; try assumption.
  intros k t' L. destruct (decide (cachePrefix ++ sid = k)) as [<-|Ne].
  - rewrite lookup_insert_eq in L. now inversion L; subst.
  - rewrite lookup_insert_ne in L by assumption. eauto.
Qed.

Lemma newTemplate_bounded now (data : Ocr.ExtractedInvoiceData num) sid acc :
  bounded (newTemplate now data sid acc).
Proof. split; cbn; lia. Qed.

Lemma updateTemplate_bounded now (data : Ocr.ExtractedInvoiceData num) acc t :
  bounded (updateTemplate host now data acc t).
Proof. split; cbn; apply updateCommonValues_length. Qed.

Lemma learn_bounded sid (c : Call num) (st : Store num) :
  store_bounded st -> store_bounded (learn host sid c st).
Proof.
  intros B. unfold learn, learnFromInvoice.
  destruct (getTemplate_bounded (call_reading c) sid st B) as [B1 _].
  destruct (getTemplate (call_reading c) sid st) as [[t|] st1]; cbn [snd] in B1;
    apply saveTemplate_bounded; auto using newTemplate_bounded, updateTemplate_bounded.
Qed.

Lemma learn_all_bounded calls : forall st : Store num,
  store_bounded st -> store_bounded (learn_all host calls st).
Proof.
  induction calls as [|c calls IH]; intros st B; [exact B|].
  cbn. apply IH. now apply learn_bounded.
Qed.

(** C6 (as amended). Each call of [updateCommonValues] returns at most
    20 values; when the engine sorts as ECMAScript asks and no value
    names a property of [Object.prototype], they are in descending order
    of their count in the table that the call builds (occurrences in the
    previous list plus occurrences among the new values);
    [learnFromInvoice] stores these lists in a template that it has
    found; and after any number of calls, under any conditions, the
    lists of a template have at most 20 entries. *)
Theorem frequency_lists_bounded_and_ranked :
  (forall existing newValues,
      (length (updateCommonValues host existing newValues 20) <= 20)%nat)
  /\ (sorts host ->
      forall existing newValues,
        forallb plain (existing ++ newValues) = true ->
        ranked (merged_count existing newValues)
               (updateCommonValues host existing newValues 20))
  /\ (forall sid (c : Call num) (st : Store num) t,
        fst (getTemplate (call_reading c) sid st) = Some t ->
        database_answers (call_writing c) = true ->
        setex_answers (call_writing c) = true ->
        is_Some (suppliers st !! sid) ->
        exists t',
          (forall c', reliable c' = true ->
                      fst (getTemplate c' sid (learn host sid c st)) = Some t')
          /\ commonHSNCodes (patterns t')
             = updateCommonValues host (commonHSNCodes (patterns t))
                                  (hsnCodes (call_data c)) 20
          /\ commonItemNames (patterns t')
             = updateCommonValues host (commonItemNames (patterns t))
                                  (map Ocr.name (Ocr.items (call_data c))) 20)
  /\ (forall calls (st : Store num),
        store_bounded st ->
        forall c sid t,
          fst (getTemplate c sid (learn_all host calls st)) = Some t ->
          (length (commonHSNCodes (patterns t)) <= 20)%nat
          /\ (length (commonItemNames (patterns t)) <= 20)%nat).
Proof.
  split; [|split; [|split]].
  - intros. apply updateCommonValues_length.
  - intros So existing newValues P. now apply updateCommonValues_ranked.
  - intros sid c st t G D S R.
    destruct (learn_found host sid c st D S R) as [E C]. rewrite G in E.
    eexists. split.
    + intros c' Rc'. rewrite (getTemplate_stored c' sid _ Rc' C). exact E.
    + split; reflexivity.
  - intros calls st B c sid t G.
    destruct (getTemplate_bounded c sid _ (learn_all_bounded calls st B)) as [_ Bt].
    exact (Bt t G).
Qed.

End FrequencyFacts.

(** * Properties of the invoice queue *)

Section QueueFacts.
Context {R : Type}.
Import InvoiceQueue.
Implicit Types (st : State R) (job : QueueJob R).

(** *** [cancelJob] *)

Lemma getJob_Some jobId st job :
  getJob jobId st = Some job ->
  exists ref, find_ref jobId st = Some ref /\ heap st !! ref = Some job.
Proof.
  unfold getJob. destruct (find_ref jobId st) as [ref|]; [|discriminate]. eauto.
Qed.

(** Updating fields other than [id] does not change what [find] finds. *)
Lemma find_ref_update jobId ref0 f st :
  (forall job, id (f job) = id job) ->
  find_ref jobId (update_job ref0 f st) = find_ref jobId st.
Proof.
  intros Hid. unfold find_ref. cbn [queue update_job].
  assert (E : forall ref, has_id (update_job ref0 f st) jobId ref = has_id st jobId ref).
  { intros ref. unfold has_id. cbn. rewrite lookup_alter.
    case_decide as D; [subst ref|reflexivity].
    destruct (heap st !! ref0); cbn; [now rewrite Hid | reflexivity]. }
  induction (queue st) as [|r l IH]; cbn; [reflexivity|].
  rewrite E. destruct (has_id st jobId r); [reflexivity | exact IH].
Qed.

Lemma Status_eqb_eq a b : Status_eqb a b = true <-> a = b.
Proof. destruct a, b; cbn; split; congruence. Qed.

Lemma find_ref_deleteFile jobId path st :
  find_ref jobId (deleteFile path st) = find_ref jobId st.
Proof. reflexivity. Qed.

Lemma getJob_cancelled now jobId ref job st :
  find_ref jobId st = Some ref -> heap st !! ref = Some job ->
  getJob jobId
    (deleteFile (filePath job)
       (update_job ref (set_completedAt (Some now))
          (update_job ref (set_error (Some "Cancelled by user"))
             (update_job ref (set_status FAILED) st))))
  = Some (cancelled now job).
Proof.
  intros F L. unfold getJob.
  rewrite find_ref_deleteFile, !find_ref_update, F by reflexivity.
  cbn [heap deleteFile update_job].
  rewrite !lookup_alter, !decide_True by reflexivity.
  rewrite L. reflexivity.
Qed.

(** C8. [cancelJob] returns [true] exactly when the job
    found under the id is PENDING; that job then becomes FAILED with the
    error 'Cancelled by user' and a completion time, keeps its other
    fields, and its file is deleted.  For a job in any other status, such
    as PROCESSING, it returns [false] and changes nothing. *)
Theorem cancelJob_spec (now : Z) (jobId : string) (st : State R) :
  let ok := fst (cancelJob now jobId st) in
  let st' := snd (cancelJob now jobId st) in
  (ok = true <-> exists job, getJob jobId st = Some job /\ status job = PENDING)
  /\ (forall job,
        getJob jobId st = Some job -> status job = PENDING ->
        getJob jobId st' = Some (cancelled now job)
        /\ filePath job ∉ files st')
  /\ (forall job,
        getJob jobId st = Some job -> status job <> PENDING ->
        ok = false /\ st' = st).
Proof.
  cbv zeta.
  destruct (getJob jobId st) as [job|] eqn:G.
  2:{ unfold cancelJob. unfold getJob in G.
      destruct (find_ref jobId st) as [ref|]; [rewrite G|]; cbn.
      all: split; [|split]; try discriminate.
      all: split; [discriminate | intros (? & ? & _); discriminate]. }
  destruct (getJob_Some jobId st job G) as (ref & F & L).
  unfold cancelJob. rewrite F, L.
  destruct (Status_eqb (status job) PENDING) eqn:S; cbn [fst snd].
  - apply Status_eqb_eq in S. split; [|split].
    + split; eauto.
    + intros job' [= <-] _. split.
      * now apply getJob_cancelled.
      * cbn. intros [_ C]%elem_of_difference. apply C. now apply elem_of_singleton.
    + intros job' [= <-] C. congruence.
  - assert (NP : status job <> PENDING).
    { intros C. apply Status_eqb_eq in C. congruence. }
    split; [|split].
    + split; [discriminate|]. intros (job' & [= <-] & C). congruence.
    + intros job' [= <-] C. congruence.
    + auto.
Qed.


(** *** [addJob] *)

Lemma processJob_heap_other ref ref' st :
  ref' <> ref -> heap (processJob ref st) !! ref' = heap st !! ref'.
Proof.
  intros Ne. unfold processJob. cbn. now rewrite !lookup_alter_ne by congruence.
Qed.

Lemma processJob_heap_same ref st job :
  heap st !! ref = Some job ->
  heap (processJob ref st) !! ref
  = Some (set_progress 20 (set_progress 10 (set_status PROCESSING job))).
Proof.
  intros L. unfold processJob. cbn.
  rewrite !lookup_alter, !decide_True by reflexivity. now rewrite L.
Qed.

Lemma processJob_queue ref st : queue (processJob ref st) = queue st.
Proof. reflexivity. Qed.

Lemma processJob_awaiting ref st :
  awaiting (processJob ref st) = (awaiting st ++ [AwaitExtraction ref])%list.
Proof. reflexivity. Qed.

Lemma start_all_heap l : forall st ref,
  ~ In ref l ->
  heap (fold_left (fun st ref => processJob ref st) l st) !! ref = heap st !! ref.
Proof.
  induction l as [|r l IH]; intros st ref N; cbn; [reflexivity|].
  rewrite IH by (intros C; apply N; now right).
  apply processJob_heap_other. intros ->. apply N. now left.
Qed.

Lemma start_all_queue l : forall st,
  queue (fold_left (fun st ref => processJob ref st) l st) = queue st.
Proof. induction l as [|r l IH]; intros st; cbn; [reflexivity | now rewrite IH]. Qed.

Lemma slice0_snoc {A} (e : Z) (l : list A) (x : A) :
  if Z.of_nat (length l) <? e then slice0 e (l ++ [x])%list = (l ++ [x])%list
  else exists n, slice0 e (l ++ [x])%list = take n l.
Proof.
  unfold slice0. rewrite length_app. cbn [length].
  destruct (Z.of_nat (length l) <? e) eqn:C.
  - apply Z.ltb_lt in C. destruct (e <? 0) eqn:E; [apply Z.ltb_lt in E; lia|].
    apply firstn_all2. rewrite length_app. cbn. lia.
  - apply Z.ltb_ge in C.
    match goal with |- context [Z.to_nat ?k] => set (n := Z.to_nat k) end.
    exists n. apply take_app_le.
    unfold n. destruct (e <? 0) eqn:E; [apply Z.ltb_lt in E | apply Z.ltb_ge in E]; lia.
Qed.

(** The pending jobs of the queue once the new job is pushed. *)
Lemma pending_after_push st job ref :
  wf st ->
  ref = next_ref st ->
  status job = PENDING ->
  forall st1,
    heap st1 = <[ref := job]> (heap st) ->
    List.filter (has_status st1 PENDING) (queue st ++ [ref])%list
    = (List.filter (has_status st PENDING) (queue st) ++ [ref])%list.
Proof.
  intros W -> SP st1 H1.
  rewrite List.filter_app. f_equal.
  - apply List.filter_ext_in. intros r Hr. unfold has_status. rewrite H1.
    rewrite lookup_insert_ne; [reflexivity|]. specialize (W r Hr). lia.
  - cbn. unfold has_status. rewrite H1, lookup_insert_eq, SP. reflexivity.
Qed.

(** C7 (as amended). [addJob] returns without waiting for any
    extraction; at that moment the new job is in the queue under the
    returned id.  Its status is PENDING (progress 0) when a
    [processQueue] loop is already running or no worker slot is left;
    otherwise [addJob] has already started it: it is PROCESSING with
    progress 20 and its extraction is outstanding. *)
Theorem addJob_spec (now : Z) (rnd : string) (created : Z)
    (path name user : string) (st : State R) :
  wf st ->
  let jobId := fst (addJob now rnd created path name user st) in
  let st' := snd (addJob now rnd created path name user st) in
  let ref := next_ref st in
  let started := starts_at_once st in
  jobId = make_id now rnd
  /\ queue st' = (queue st ++ [ref])%list
  /\ heap st' !! ref
     = Some (mkJob jobId path name user
                   (if started then PROCESSING else PENDING)
                   (if started then 20 else 0)
                   None None created None)
  /\ (if started then In (AwaitExtraction ref) (awaiting st')
      else awaiting st' = awaiting st
           \/ exists a, awaiting st' = (awaiting st ++ a)%list /\ ~ In (AwaitExtraction ref) a).
Proof.
  intros W. cbv zeta. unfold addJob. cbn [fst snd].
  set (jobId := make_id now rnd).
  set (job := mkJob jobId path name user PENDING 0 None None created None).
  set (ref := next_ref st).
  set (st1 := mkState _ _ _ _ _ _ _ _).
  split; [reflexivity|].
  unfold starts_at_once.
  change (processing st1) with (processing st).
  destruct (processing st) eqn:Pr; cbn [negb andb].
  { (* a loop is running: nothing is started *)
    split; [reflexivity|]. split; [|now left].
    unfold st1. cbn. now rewrite lookup_insert_eq. }
  unfold processQueue.
  set (st2 := set_processing true st1).
  assert (H2 : heap st2 = <[ref := job]> (heap st)) by reflexivity.
  change (queue st2) with (queue st ++ [ref])%list.
  change (maxConcurrent st2) with (maxConcurrent st).
  change (activeJobs st2) with (activeJobs st).
  rewrite (pending_after_push st job ref W eq_refl eq_refl st2 H2).
  assert (Ex : existsb (has_status st2 PENDING) (queue st ++ [ref])%list = true).
  { rewrite existsb_app. cbn. unfold has_status at 2.
    rewrite H2, lookup_insert_eq. cbn. now rewrite orb_true_r. }
  rewrite Ex. cbn [orb].
  set (P := List.filter (has_status st PENDING) (queue st)).
  assert (NP : forall n, ~ In ref (take n P)).
  { intros n C. apply list_elem_of_In in C. apply subseteq_take in C.
    apply list_elem_of_In in C. unfold P in C. apply filter_In in C as [C _].
    specialize (W ref C). unfold ref in W. lia. }
  pose proof (slice0_snoc (maxConcurrent st - activeJobs st) P ref) as Sl.
  unfold pending_count. fold P.
  destruct (Z.of_nat (length P) <? maxConcurrent st - activeJobs st) eqn:C.
  - (* the new job is in the batch *)
    rewrite Sl. rewrite length_app. cbn [length].
    replace (Z.of_nat (length P + 1) =? 0) with false by (symmetry; apply Z.eqb_neq; lia).
    rewrite fold_left_app. cbn [fold_left].
    set (st3 := fold_left _ P st2).
    assert (L3 : heap st3 !! ref = Some job).
    { unfold st3. rewrite start_all_heap.
      - rewrite H2. apply lookup_insert_eq.
      - specialize (NP (length P)). now rewrite firstn_all in NP. }
    split; [|split].
    + cbn [queue suspend]. rewrite processJob_queue. unfold st3.
      now rewrite start_all_queue.
    + cbn [heap suspend]. rewrite (processJob_heap_same ref st3 job L3). reflexivity.
    + cbn [awaiting suspend]. rewrite processJob_awaiting.
      rewrite !in_app_iff. left. right. now left.
  - (* the batch, if any, is made of older jobs *)
    destruct Sl as [n Sl]. rewrite Sl.
    destruct (Z.of_nat (length (take n P)) =? 0).
    + split; [reflexivity|]. split.
      * cbn. now rewrite lookup_insert_eq.
      * right. exists [AwaitTimer]. split; [reflexivity|]. intros [C'|[]]. discriminate.
    + split; [|split].
      * cbn [queue suspend]. now rewrite start_all_queue.
      * cbn [heap suspend]. rewrite start_all_heap by apply NP.
        rewrite H2. now rewrite lookup_insert_eq.
      * right. cbn [awaiting suspend].
        assert (A : forall l st0, (forall r, In r l -> r <> ref) ->
                      exists a, awaiting (fold_left (fun st ref => processJob ref st) l st0)
                                = (awaiting st0 ++ a)%list /\ ~ In (AwaitExtraction ref) a).
        { induction l as [|r l IH]; intros st0 Hl; cbn.
          - exists []. split; [now rewrite app_nil_r | intros []].
          - destruct (IH (processJob r st0)) as (a & Ea & Na).
            { intros r' Hr'. apply Hl. now right. }
            exists (AwaitExtraction r :: a). rewrite Ea, processJob_awaiting.
            split; [now rewrite <- app_assoc|].
            intros [C'|C']; [|now apply Na].
            inversion C'. apply (Hl r); [now left | assumption]. }
        destruct (A (take n P) st2) as (a & Ea & Na).
        { intros r Hr ->. now apply (NP n). }
        exists (a ++ [AwaitBatch (take n P)])%list. rewrite Ea.
        split; [now rewrite <- app_assoc|].
        rewrite in_app_iff. intros [C'|[C'|[]]]; [now apply Na | discriminate].
Qed.


(** *** The references of the queue stay allocated *)

Lemma wf_init fs : wf (init (R := R) fs).
Proof. intros ref []. Qed.

Lemma start_all_next_ref l : forall st,
  next_ref (fold_left (fun st ref => processJob ref st) l st) = next_ref st.
Proof. induction l as [|r l IH]; intros st; cbn; [reflexivity | now rewrite IH]. Qed.

Lemma processQueue_refs st :
  queue (processQueue st) = queue st /\ next_ref (processQueue st) = next_ref st.
Proof.
  unfold processQueue.
  destruct (_ || _); [|split; reflexivity].
  destruct (_ =? 0); [split; reflexivity|].
  cbn [queue next_ref suspend].
  now rewrite start_all_queue, start_all_next_ref.
Qed.

Lemma wf_addJob now rnd created path name user st :
  wf st -> wf (snd (addJob now rnd created path name user st)).
Proof.
  intros W. unfold addJob. cbn [snd].
  set (st1 := mkState _ _ _ _ _ _ _ _).
  assert (W1 : wf st1).
  { intros ref Hr. unfold st1 in *. cbn in *.
    apply in_app_iff in Hr as [Hr|[<-|[]]]; [specialize (W ref Hr)|]; lia. }
  destruct (negb (processing st1)); [|exact W1].
  destruct (processQueue_refs st1) as [Eq En].
  intros ref Hr. rewrite Eq in Hr. rewrite En. now apply W1.
Qed.

Lemma wf_cancelJob now jobId st : wf st -> wf (snd (cancelJob now jobId st)).
Proof.
  intros W. unfold cancelJob.
  destruct (find_ref jobId st); [|exact W].
  destruct (heap st !! _); [|exact W].
  destruct (Status_eqb _ _); exact W.
Qed.

End QueueFacts.

(** * Concrete runs *)

Section Runs.
Import Examples.

(** The scenarios of the specification, run on binary64. *)

(** Subtotal 1000, one line of 1000, CGST 90, SGST 90, total 1180, a valid
    tax id of the company's own state, extraction confidence 85. *)
Example scenario_auto_approved :
  let r := Ocr.validateInvoiceData UtcHost.host june_2024 clean in
  Ocr.canAutoApprove r = true
  /\ Ocr.errors r = []
  /\ Ocr.warnings r = []
  /\ Ocr.confidenceScore r = 97
  /\ Ocr.fieldConfidence r = Ocr.FC.mk 95 95 100 95.
Proof. vm_compute. repeat split; reflexivity. Qed.

(** Total declared as 5000, lines summing to 1000, no tax component. *)
Example scenario_total_mismatch :
  let r := Ocr.validateInvoiceData UtcHost.host june_2024
             (invoice "INV-2024-003" (Some "29AAAAA0000A1Z5") 5000 None None None 5000
                      [widget]) in
  Ocr.FC.amounts (Ocr.fieldConfidence r) = 40
  /\ Ocr.errors r = ["Significant subtotal mismatch (₹4000.00 difference)"]
  /\ Ocr.canAutoApprove r = false.
Proof. vm_compute. repeat split; reflexivity. Qed.

(** The first invoice of a supplier without a template. *)
Example scenario_cold_start :
  fst (TemplateService.validateAgainstTemplate literal TemplateService.all_well
         (bill 100 ["A"]) "s1" store0)
  = Resolved
      (TemplateService.mkReport true []
         ["No template available for this supplier - this is the first invoice"] 50).
Proof. vm_compute. reflexivity. Qed.

(** C2, the claim as stated: a record with a valid total whose subtotals
    differ by more than 10 scores above 40, and one whose subtotals differ
    by 5 does not score 75, because the grand totals agree. *)
Lemma amounts_score_raised_to_90 :
  Ocr.invalid_total bumped = false
  /\ (Ocr.subtotalDiff bumped <=? of_Z 10)%num = false
  /\ ~ Ocr.FC.amounts
         (Ocr.fieldConfidence (Ocr.validateInvoiceData UtcHost.host june_2024 bumped)) <= 40
  /\ Ocr.invalid_total bumped_small = false
  /\ (Ocr.subtotalDiff bumped_small <=? of_Z 1)%num = false
  /\ (Ocr.subtotalDiff bumped_small <=? of_Z 10)%num = true
  /\ Ocr.FC.amounts
       (Ocr.fieldConfidence (Ocr.validateInvoiceData UtcHost.host june_2024 bumped_small))
     <> 75.
Proof.
  assert (E1 : Ocr.FC.amounts
                 (Ocr.fieldConfidence (Ocr.validateInvoiceData UtcHost.host june_2024 bumped))
               = 90) by (vm_compute; reflexivity).
  assert (E2 : Ocr.FC.amounts
                 (Ocr.fieldConfidence
                    (Ocr.validateInvoiceData UtcHost.host june_2024 bumped_small))
               = 90) by (vm_compute; reflexivity).
  rewrite E1, E2.
  repeat split; try (vm_compute; reflexivity); lia.
Qed.

Lemma amounts_score_witness :
  Ocr.invalid_total bumped = false
  /\ In (Ocr.subtotal_error UtcHost.host bumped)
        (Ocr.errors (Ocr.validateInvoiceData UtcHost.host june_2024 bumped))
  /\ Ocr.FC.amounts
       (Ocr.fieldConfidence (Ocr.validateInvoiceData UtcHost.host june_2024 bumped))
     = 90.
Proof.
  split; [reflexivity|].
  exact (amounts_score UtcHost.host june_2024 bumped eq_refl).
Defined.

(** C3, the claim as stated: the same record validated on two dates,
    under two values of [COMPANY_STATE_CODE], and at the same instant in
    two time zones, gives different results. *)
Lemma validate_depends_on_clock_and_environment :
  Ocr.validateInvoiceData UtcHost.host may_2024 clean
  <> Ocr.validateInvoiceData UtcHost.host june_2024 clean
  /\ Ocr.validateInvoiceData UtcHost.host in_karnataka igst_invoice
     <> Ocr.validateInvoiceData UtcHost.host in_maharashtra igst_invoice
  /\ Ocr.validateInvoiceData UtcHost.host (leap_evening UtcHost.utc) year_old
     <> Ocr.validateInvoiceData UtcHost.host (leap_evening UtcHost.kolkata) year_old.
Proof.
  repeat split; intros E; apply (f_equal Ocr.warnings) in E; vm_compute in E;
    discriminate E.
Qed.

Lemma validate_core_independent_of_ambient_witness :
  Ocr.same_reading (leap_evening UtcHost.utc) in_maharashtra year_old
  /\ Ocr.errors (Ocr.validateInvoiceData UtcHost.host (leap_evening UtcHost.utc) year_old)
     = Ocr.errors (Ocr.validateInvoiceData UtcHost.host in_maharashtra year_old)
  /\ Ocr.canAutoApprove
       (Ocr.validateInvoiceData UtcHost.host (leap_evening UtcHost.utc) year_old)
     = Ocr.canAutoApprove (Ocr.validateInvoiceData UtcHost.host in_maharashtra year_old).
Proof.
  assert (R : Ocr.same_reading (leap_evening UtcHost.utc) in_maharashtra year_old)
    by (split; intros _; vm_compute; eauto).
  split; [exact R|].
  pose proof (validate_core_independent_of_ambient UtcHost.host
                (leap_evening UtcHost.utc) in_maharashtra year_old R)
    as (_ & E & _ & A & _).
  split; [exact E | exact A].
Defined.

Lemma no_line_items_witness :
  Ocr.items no_items = []
  /\ In "No line items found"
        (Ocr.errors (Ocr.validateInvoiceData UtcHost.host june_2024 no_items))
  /\ Ocr.FC.items
       (Ocr.fieldConfidence (Ocr.validateInvoiceData UtcHost.host june_2024 no_items)) = 0
  /\ Ocr.canAutoApprove (Ocr.validateInvoiceData UtcHost.host june_2024 no_items) = false.
Proof.
  split; [reflexivity|].
  exact (no_line_items UtcHost.host june_2024 no_items eq_refl).
Defined.

Lemma store0_fresh {num} : TemplateService.fresh "s1" (store0 (num := num)).
Proof. split; reflexivity. Qed.

Lemma history_reliable :
  forallb TemplateService.reliable_call history = true.
Proof. reflexivity. Qed.



(** C6, the claim as stated: after five invoices the name list is
    [B; A], although A was seen four times and B twice. *)
Lemma names_not_ranked_by_observed_frequency :
  exists t,
    fst (TemplateService.getTemplate TemplateService.all_well "s1"
           (TemplateService.replay literal "s1" history store0))
    = Some t
    /\ TemplateService.commonItemNames (TemplateService.patterns t) = ["B"; "A"]
    /\ TemplateService.observed_names history "A" = 4
    /\ TemplateService.observed_names history "B" = 2
    /\ ~ TemplateService.ranked (TemplateService.observed_names history)
           (TemplateService.commonItemNames (TemplateService.patterns t)).
Proof.
  eexists. split; [vm_compute; reflexivity|].
  cbn [TemplateService.commonItemNames TemplateService.patterns].
  split; [reflexivity|]. split; [reflexivity|]. split; [reflexivity|].
  intros S. inversion S as [|? ? _ F]; subst.
  inversion F as [|? ? C _]; subst. vm_compute in C. apply C. reflexivity.
Qed.

Lemma store0_bounded {num} : TemplateService.store_bounded (store0 (num := num)).
Proof.
  split; cbn; intros k t L.
  - rewrite lookup_empty in L. discriminate.
  - apply lookup_singleton_Some in L as [_ L]. discriminate.
Qed.

Lemma literal_sorts {num} : TemplateService.sorts (literal (num := num)).
Proof. intros cmp l _. reflexivity. Qed.

Lemma frequency_lists_witness :
  TemplateService.sorts (literal (num := Q))
  /\ forallb TemplateService.plain (["A"] ++ ["B"; "B"])%list = true
  /\ TemplateService.ranked (TemplateService.merged_count ["A"] ["B"; "B"])
        (TemplateService.updateCommonValues (literal (num := Q)) ["A"] ["B"; "B"] 20)
  /\ TemplateService.store_bounded (store0 (num := Q))
  /\ forall c sid t,
       fst (TemplateService.getTemplate c sid
              (TemplateService.learn_all literal calls store0)) = Some t ->
       (length (TemplateService.commonHSNCodes (TemplateService.patterns t)) <= 20)%nat
       /\ (length (TemplateService.commonItemNames (TemplateService.patterns t)) <= 20)%nat.
Proof.
  assert (B : TemplateService.store_bounded (store0 (num := Q))).
  { split; cbn; intros k t L.
    - rewrite lookup_empty in L. discriminate.
    - apply lookup_singleton_Some in L as [_ L]. discriminate. }
  destruct (frequency_lists_bounded_and_ranked (num := Q) literal)
    as (_ & Ranked & _ & Bounded).
  split; [exact literal_sorts|]. split; [reflexivity|].
  split; [exact (Ranked literal_sorts ["A"] ["B"; "B"] eq_refl)|].
  split; [exact B | exact (Bounded calls store0 B)].
Defined.

(** A value that names a method of [Object.prototype] gets a text for
    its count, and [__proto__] gets no entry at all. *)
Example counts_of_inherited_names :
  TemplateService.count_values ["A"] ["constructor"; "constructor"; "__proto__"]
  = [("A", TemplateService.Number 1); ("constructor", TemplateService.Text)].
Proof. reflexivity. Qed.

(** C7, the claim as stated: the first job submitted to a new queue is
    already PROCESSING, with progress 20, when [addJob] returns. *)
Lemma first_job_is_processing_at_return :
  InvoiceQueue.status <$> InvoiceQueue.getJob (fst first) (snd first)
  = Some InvoiceQueue.PROCESSING
  /\ InvoiceQueue.progress <$> InvoiceQueue.getJob (fst first) (snd first) = Some 20
  /\ InvoiceQueue.status <$> InvoiceQueue.getJob (fst first) (snd first)
     <> Some InvoiceQueue.PENDING.
Proof.
  assert (E : InvoiceQueue.status <$> InvoiceQueue.getJob (fst first) (snd first)
              = Some InvoiceQueue.PROCESSING) by (vm_compute; reflexivity).
  rewrite E. split; [reflexivity|]. split; [vm_compute; reflexivity | discriminate].
Qed.

Lemma addJob_spec_witness :
  InvoiceQueue.wf idle
  /\ InvoiceQueue.queue (snd first) = (InvoiceQueue.queue idle ++ [InvoiceQueue.next_ref idle])%list
  /\ In (InvoiceQueue.AwaitExtraction (InvoiceQueue.next_ref idle))
        (InvoiceQueue.awaiting (snd first)).
Proof.
  assert (W : InvoiceQueue.wf idle) by (intros ref []).
  split; [exact W|].
  pose proof (addJob_spec 1700000000000 "k3x9a" 1700000000000
                          "/uploads/a.png" "a.png" "u1" idle W) as (_ & Q & _ & A).
  split; [exact Q | exact A].
Defined.

(** The reason that a cancelled job carries is the text
    'Cancelled by user'. *)
Example cancelled_job_error_text :
  fst (InvoiceQueue.cancelJob 1700000000002 (fst second) (snd second)) = true
  /\ InvoiceQueue.error
       <$> InvoiceQueue.getJob (fst second)
             (snd (InvoiceQueue.cancelJob 1700000000002 (fst second) (snd second)))
     = Some (Some "Cancelled by user").
Proof. split; vm_compute; reflexivity. Qed.

(** Cancelling the first job, which is PROCESSING, is refused. *)
Example cancel_processing_job_refused :
  InvoiceQueue.cancelJob 1700000000002 (fst first) (snd second) = (false, snd second).
Proof. vm_compute. reflexivity. Qed.

Lemma cancelJob_spec_witness :
  InvoiceQueue.getJob (fst second) (snd second) = Some jobB
  /\ InvoiceQueue.status jobB = InvoiceQueue.PENDING
  /\ InvoiceQueue.getJob (fst second)
       (snd (InvoiceQueue.cancelJob 1700000000002 (fst second) (snd second)))
     = Some (InvoiceQueue.cancelled 1700000000002 jobB)
  /\ InvoiceQueue.filePath jobB
     ∉ InvoiceQueue.files
         (snd (InvoiceQueue.cancelJob 1700000000002 (fst second) (snd second))).
Proof.
  assert (G : InvoiceQueue.getJob (fst second) (snd second) = Some jobB)
    by (vm_compute; reflexivity).
  split; [exact G|]. split; [reflexivity|].
  exact (proj1 (proj2 (cancelJob_spec 1700000000002 (fst second) (snd second)))
               jobB G eq_refl).
Defined.

End Runs.

(** * Properties of GSTIN validation and the GST breakdown *)

Section GstFacts.
Import GstValidation.


Lemma gstinRegex_pan s : gstinRegex s = true -> panRegex (substring 2 12 s) = true.
Proof.
  unfold gstinRegex, panRegex, rep. cbn [replicate app].
  do 15 (destruct s as [|? s]; [cbn; rewrite ?andb_false_r; discriminate|]).
  destruct s; [|cbn; rewrite ?andb_false_r; discriminate].
  cbn. rewrite !andb_true_iff. intuition.
Qed.

Lemma is_Z_char_eq c : is_Z_char c = true -> c = "Z"%char.
Proof. by_ascii c. Qed.

(** A string accepted by [gstinRegex] is its five parts in a row. *)
Lemma gstinRegex_parts s :
  gstinRegex s = true ->
  s = substring 0 2 s ++ substring 2 12 s ++ substring 12 13 s ++ "Z" ++ substring 14 15 s.
Proof.
  unfold gstinRegex, rep. cbn [replicate app].
  do 15 (destruct s as [|? s]; [cbn; rewrite ?andb_false_r; discriminate|]).
  destruct s; [|cbn; rewrite ?andb_false_r; discriminate].
  cbn. rewrite !andb_true_iff. intros (_&_&_&_&_&_&_&_&_&_&_&_&_&Z&_).
  apply is_Z_char_eq in Z. now subst.
Qed.

(** X1. [validateGSTINFormat] never returns the error
    'Invalid PAN in GSTIN': a text that passes the GSTIN pattern has a
    PAN part that passes the PAN pattern, so the last check cannot fail. *)
Theorem pan_error_unreachable gstin :
  error (validateGSTINFormat gstin) <> Some "Invalid PAN in GSTIN".
Proof.
  unfold validateGSTINFormat.
  destruct (negb (str_truthy gstin)); [discriminate|].
  destruct (negb (strlen _ =? 15)); [discriminate|].
  destruct (gstinRegex _) eqn:G; [|discriminate]. cbn [negb].
  destruct (STATE_CODES !! _); [|cbn; discriminate].
  rewrite (gstinRegex_pan _ G). discriminate.
Qed.

(** X2. A result of [validateGSTINFormat] is either valid, without an
    error and with details whose five parts (state code, PAN, entity
    number, the letter Z, checksum) put together are the cleaned input,
    the state code being one of the table with the name given; or
    invalid, with an error and without details. *)
Theorem validateGSTINFormat_details gstin :
  let r := validateGSTINFormat gstin in
  if valid r then
    error r = None
    /\ exists d,
         details r = Some d
         /\ clean gstin = stateCode d ++ pan d ++ entityNumber d ++ "Z" ++ checksum d
         /\ STATE_CODES !! stateCode d = Some (stateName d)
         /\ panRegex (pan d) = true
  else
    details r = None /\ is_Some (error r).
Proof.
  cbv zeta. unfold validateGSTINFormat. fold (clean gstin).
  destruct (negb (str_truthy gstin)); [cbn; eauto|].
  destruct (negb (strlen _ =? 15)); [cbn; eauto|].
  destruct (gstinRegex _) eqn:G; [|cbn; eauto]. cbn [negb].
  destruct (STATE_CODES !! _) eqn:S; [|cbn; eauto].
  rewrite (gstinRegex_pan _ G). cbn.
  split; [reflexivity|]. eexists. split; [reflexivity|]. cbn.
  split; [now apply gstinRegex_parts|]. split; [exact S | now apply gstinRegex_pan].
Qed.

Lemma is_space_upper c : is_space (upper_char c) = is_space c.
Proof. by_ascii c. Qed.

Lemma upper_char_idem c : upper_char (upper_char c) = upper_char c.
Proof. by_ascii c. Qed.

Lemma filter_map_commute (p : ascii -> bool) (f : ascii -> ascii) s :
  (forall c, p (f c) = p c) ->
  string_filter p (string_map f s) = string_map f (string_filter p s).
Proof.
  intros E. induction s as [|c s IH]; cbn; [reflexivity|].
  rewrite E. destruct (p c); cbn; now rewrite IH.
Qed.

Lemma string_filter_idem (p : ascii -> bool) s :
  string_filter p (string_filter p s) = string_filter p s.
Proof.
  induction s as [|c s IH]; cbn; [reflexivity|].
  destruct (p c) eqn:E; cbn; rewrite ?E, IH; reflexivity.
Qed.

Lemma string_map_idem (f : ascii -> ascii) s :
  (forall c, f (f c) = f c) -> string_map f (string_map f s) = string_map f s.
Proof. intros E. induction s as [|c s IH]; cbn; [reflexivity|]. now rewrite E, IH. Qed.

Lemma clean_idem s : clean (clean s) = clean s.
Proof.
  unfold clean, toUpperCase.
  rewrite filter_map_commute by (intros c; now rewrite is_space_upper).
  rewrite string_filter_idem. apply string_map_idem, upper_char_idem.
Qed.

Lemma clean_truthy s : str_truthy (clean s) = true -> str_truthy s = true.
Proof. now destruct s. Qed.

(** X3. [validateGSTINFormat] does not tell a GSTIN from its cleaned
    form (white space removed, upper case): validity and details agree,
    and the whole result agrees unless cleaning leaves nothing (then the
    error is 'GSTIN must be 15 characters long' for the input and
    'GSTIN is required' for the empty text). *)
Theorem validateGSTINFormat_normalises gstin :
  let r := validateGSTINFormat gstin in
  let r' := validateGSTINFormat (clean gstin) in
  valid r' = valid r
  /\ details r' = details r
  /\ (str_truthy (clean gstin) = true -> r' = r).
Proof.
  cbv zeta.
  destruct (str_truthy (clean gstin)) eqn:T.
  - assert (E : validateGSTINFormat (clean gstin) = validateGSTINFormat gstin).
    { unfold validateGSTINFormat. fold (clean gstin). fold (clean (clean gstin)).
      rewrite clean_idem, T, (clean_truthy _ T). reflexivity. }
    now rewrite E.
  - assert (E : clean gstin = "") by (now destruct (clean gstin)).
    unfold validateGSTINFormat. fold (clean gstin). rewrite E. cbn.
    destruct (str_truthy gstin); cbn; auto using eq_refl.
    repeat split; discriminate.
Qed.

End GstFacts.

Section BreakdownFacts.
Import GstValidation.


End BreakdownFacts.

Section InvoiceGstFacts.
Context {num : Type} `{JsNumber num}.
Import GstValidation.


Lemma digit_upper c : is_digit (upper_char c) = true -> upper_char c = c.
Proof. by_ascii c. Qed.

Lemma filter_no_space s :
  string_forallb (fun c => negb (is_space c)) s = true ->
  string_filter (fun c => negb (is_space c)) s = s.
Proof.
  induction s as [|c s IH]; cbn; [reflexivity|].
  intros [C S]%andb_true_iff. rewrite C. now rewrite IH.
Qed.

(** A valid GSTIN has at least the 15 characters that remain after cleaning. *)
Lemma string_filter_length p s : (String.length (string_filter p s) <= String.length s)%nat.
Proof. induction s as [|c s IH]; cbn; [lia|]. destruct (p c); cbn; lia. Qed.

Lemma string_map_length f s : String.length (string_map f s) = String.length s.
Proof. induction s as [|c s IH]; cbn; [reflexivity|]. now rewrite IH. Qed.

Lemma valid_inv gstin :
  valid (validateGSTINFormat gstin) = true ->
  gstinRegex (clean gstin) = true
  /\ (exists d, details (validateGSTINFormat gstin) = Some d
                /\ stateCode d = substring 0 2 (clean gstin))
  /\ (15 <= String.length gstin)%nat.
Proof.
  unfold validateGSTINFormat. fold (clean gstin).
  destruct (negb (str_truthy gstin)); [discriminate|].
  destruct (strlen _ =? 15) eqn:L; [|discriminate]. cbn [negb].
  destruct (gstinRegex _) eqn:G; [|discriminate]. cbn [negb].
  destruct (STATE_CODES !! _); [|discriminate].
  destruct (panRegex _); [|discriminate]. cbn. intros _.
  split; [reflexivity|]. split; [eauto|].
  apply Z.eqb_eq in L. unfold strlen, clean, toUpperCase in L.
  rewrite string_map_length in L.
  pose proof (string_filter_length (fun c => negb (is_space c)) gstin). lia.
Qed.

Lemma extractStateCode_long gstin :
  (2 <= String.length gstin)%nat -> extractStateCode gstin = Some (substring 0 2 gstin).
Proof.
  intros L. unfold extractStateCode, strlen.
  destruct gstin as [|c s]; [cbn in L; lia|]. cbn [str_truthy negb orb].
  destruct (Z.ltb_spec (Z.of_nat (String.length (String c s))) 2); [lia | reflexivity].
Qed.

(** Without white space, the first two characters of the raw text are the
    validated state code. *)
Lemma raw_prefix gstin d :
  string_forallb (fun c => negb (is_space c)) gstin = true ->
  gstinRegex (clean gstin) = true ->
  stateCode d = substring 0 2 (clean gstin) ->
  substring 0 2 gstin = stateCode d.
Proof.
  intros S G ->. unfold clean in *. rewrite (filter_no_space _ S) in *.
  unfold gstinRegex, rep in G.
  destruct gstin as [|c1 [|c2 s]]; cbn in G; rewrite ?andb_false_r in G; try discriminate.
  apply andb_true_iff in G as [D1 G]. apply andb_true_iff in G as [D2 _].
  cbn. rewrite (digit_upper _ D1), (digit_upper _ D2).
  destruct (toUpperCase s); destruct s; reflexivity.
Qed.

(** X5. [processInvoiceGST] succeeds exactly when both GSTINs are
    valid, and then reports the state names of the validated GSTINs,
    while the breakdown is computed from the first two characters of the
    texts as given; for texts without white space these are the
    validated state codes, so that the supply is intra-state exactly
    when the two codes are equal. *)
Theorem processInvoiceGST_regime
    (env : option string) (subtotal gstRate : num) (supplier buyer : string) :
  let r := processInvoiceGST env subtotal gstRate supplier (Some buyer) in
  let vs := validateGSTINFormat supplier in
  let vb := validateGSTINFormat buyer in
  gst_valid r = valid vs && valid vb
  /\ (gst_valid r = true ->
      exists ds db,
        details vs = Some ds /\ details vb = Some db
        /\ gstBreakdown r
           = Some (calculateGST subtotal gstRate (substring 0 2 supplier) (substring 0 2 buyer))
        /\ supplierState r = Some (stateName ds)
        /\ buyerState r = Some (stateName db)
        /\ (string_forallb (fun c => negb (is_space c)) supplier = true ->
            string_forallb (fun c => negb (is_space c)) buyer = true ->
            isSameState (calculateGST subtotal gstRate (substring 0 2 supplier)
                                      (substring 0 2 buyer))
            = String.eqb (stateCode ds) (stateCode db))).
Proof.
  cbv zeta. unfold processInvoiceGST.
  destruct (valid (validateGSTINFormat supplier)) eqn:Vs; cbn [negb andb];
    [|split; [reflexivity | discriminate]].
  destruct (valid (validateGSTINFormat buyer)) eqn:Vb; cbn [negb andb];
    [|split; [reflexivity | discriminate]].
  destruct (valid_inv _ Vs) as (Gs & (ds & Ds & Cs) & Ls).
  destruct (valid_inv _ Vb) as (Gb & (db & Db & Cb) & Lb).
  rewrite (extractStateCode_long supplier), (extractStateCode_long buyer) by lia.
  rewrite Ds, Db. cbn. split; [reflexivity|]. intros _.
  exists ds, db. repeat (split; [reflexivity|]).
  intros Ss Sb. unfold calculateGST.
  rewrite (raw_prefix _ _ Ss Gs Cs), (raw_prefix _ _ Sb Gb Cb).
  now destruct (String.eqb (stateCode ds) (stateCode db)).
Qed.

End InvoiceGstFacts.

(** White space before the digits changes the regime: both parties are
    validated as of Karnataka, and the supply is taxed as inter-state. *)
Lemma leading_space_is_inter_state :
  let r := GstValidation.processInvoiceGST (num := Q) None 1000%Q 18%Q
             " 29AAAAA0000A1Z5" (Some "29AAAAA0000A1Z5") in
  GstValidation.gst_valid r = true
  /\ GstValidation.supplierState r = Some "Karnataka"
  /\ GstValidation.buyerState r = Some "Karnataka"
  /\ (GstValidation.isSameState <$> GstValidation.gstBreakdown r) = Some false.
Proof. vm_compute. auto. Qed.

(** * Properties of the correction suggestions *)

Section CorrectionFacts.
Context {num : Type} `{JsNumber num}.
Variable host : Ocr.Host num.
Variable amb : Ocr.Ambient.

Import Ocr.
Implicit Types (data : ExtractedInvoiceData num) (c : Correction.t num).

(** The loop over the items returns what it was given, unless an item
    has no HSN code. *)
Lemma suggest_hsn_spec (l : list (Item num)) acc :
  suggest_hsn l acc
  = if existsb (fun item => negb (opt_truthy (hsnCode item))) l
    then Rejected prisma_is_not_defined else Resolved acc.
Proof.
  induction l as [|item l IH]; cbn; [reflexivity|].
  destruct (negb (opt_truthy (hsnCode item))); [reflexivity | exact IH].
Qed.

(** The amounts score that [validateInvoiceData] reports is below 90 and
    not 0 exactly when the total passes the guard and neither the
    subtotals nor the totals agree within 1. *)
Lemma amounts_guard data :
  let amounts := FC.amounts (fieldConfidence (validateInvoiceData host amb data)) in
  negb (amounts =? 0) && (amounts <? 90)
  = negb (invalid_total data)
    && negb (subtotalDiff data <=? of_Z 1)%num
    && negb (totalDiff data <=? of_Z 1)%num.
Proof.
  cbv zeta. rewrite result_fieldConfidence. unfold run_checks.
  set (st0 := check_supplier data _).
  destruct (later_checks_keep amb data (check_amounts host data st0)) as [_ ->].
  unfold check_amounts.
  destruct (invalid_total data); [reflexivity|].
  destruct (subtotalDiff data <=? of_Z 1)%num;
    [|destruct (subtotalDiff data <=? of_Z 10)%num];
    destruct (totalDiff data <=? of_Z 1)%num;
    try destruct (totalDiff data >? of_Z 10)%num; reflexivity.
Qed.

(** The GSTIN score is 30 exactly when a GSTIN is given and malformed. *)
Lemma gstin_guard data :
  let gstin := FC.gstin (fieldConfidence (validateInvoiceData host amb data)) in
  opt_truthy (supplierGSTIN data) && negb (gstin =? 0) && (gstin <? 80)
  = opt_truthy (supplierGSTIN data)
    && negb (GstValidation.valid
               (GstValidation.validateGSTINFormat (show_opt (supplierGSTIN data)))).
Proof.
  cbv zeta. rewrite result_fieldConfidence. unfold run_checks.
  set (st0 := check_gst data _).
  unfold check_gstin.
  destruct (opt_truthy (supplierGSTIN data)); [|reflexivity].
  destruct (GstValidation.valid _); [|reflexivity].
  cbn [negb andb]. branches; reflexivity.
Qed.

(** X6. For a record and the validation result computed for it,
    [generateCorrectionSuggestions] rejects with the [ReferenceError]
    'prisma is not defined' exactly when the GSTIN of the record is given
    and malformed or one of its items has no HSN code; otherwise it
    resolves with the suggestion for [totalAmount] alone (the recomputed
    total, with confidence 85) when the declared total passes the guard
    and the subtotals, the totals and the recomputed total are all off
    by more than 1, and with no suggestion when not. *)
Theorem corrections_for_own_validation data :
  generateCorrectionSuggestions data (validateInvoiceData host amb data)
  = if needs_database data then Rejected prisma_is_not_defined
    else Resolved (if total_is_off data then [total_correction data] else []).
Proof.
  unfold generateCorrectionSuggestions, suggest_gstin, needs_database.
  rewrite gstin_guard.
  destruct (opt_truthy (supplierGSTIN data) && negb (GstValidation.valid _));
    [reflexivity|].
  rewrite suggest_hsn_spec. cbn [orb].
  destruct (existsb _ (items data)); [reflexivity|].
  unfold suggest_amounts, total_is_off. rewrite amounts_guard.
  destruct (negb (invalid_total data) && negb (subtotalDiff data <=? of_Z 1)%num
            && negb (totalDiff data <=? of_Z 1)%num); [|reflexivity].
  cbn [andb]. destruct (nabs _ >? of_Z 1)%num; reflexivity.
Qed.

(** X7. Whatever validation result it is given,
    [generateCorrectionSuggestions] never returns a suggestion for
    [supplierGSTIN] or for an HSN code: when it resolves, every item of
    the record has an HSN code, and the list is empty or holds the one
    suggestion for [totalAmount]. *)
Theorem no_suggestion_from_the_database data (validation : ValidationResult) l :
  generateCorrectionSuggestions data validation = Resolved l ->
  (l = [] \/ l = [total_correction data])
  /\ forall item, In item (items data) -> opt_truthy (hsnCode item) = true.
Proof.
  unfold generateCorrectionSuggestions, suggest_gstin.
  destruct (opt_truthy (supplierGSTIN data) && _ && _); [discriminate|].
  rewrite suggest_hsn_spec.
  destruct (existsb _ (items data)) eqn:E; [discriminate|].
  intros [= <-]. split.
  - unfold suggest_amounts.
    destruct (negb _ && _); [|now left].
    destruct (nabs _ >? of_Z 1)%num; [now right | now left].
  - intros item I. destruct (opt_truthy (hsnCode item)) eqn:T; [reflexivity|].
    exfalso. assert (X : existsb (fun item => negb (opt_truthy (hsnCode item))) (items data)
                         = true).
    { apply existsb_exists. exists item. now rewrite T. }
    now rewrite X in E.
Qed.

End CorrectionFacts.

(** * More properties of the template service *)

Section LearnedOnce.
Context {num : Type} `{JsNumber num}.
Import TemplateService.
Variable host : Engine num.

(** What the first invoice of a supplier fixes, when every request is
    answered. *)
Lemma replay_first sid (c : Call num) rest : forall st : Store num,
  fresh sid st -> forallb reliable_call (c :: rest) = true ->
  exists t,
    stored sid (replay host sid (c :: rest) st) = Some t
    /\ coherent_at sid (replay host sid (c :: rest) st)
    /\ invoiceNumberFormat (patterns t)
       = Some (extractInvoiceNumberPattern (Ocr.invoiceNumber (call_data c)))
    /\ gstType (patterns t) = detectGSTType (call_data c)
    /\ supplierName t = Ocr.supplierName (call_data c).
Proof.
  induction rest as [|x rest IH] using rev_ind; intros st F R;
    destruct (fresh_stored sid st F) as (S0 & C0 & R0).
  - cbn in R. rewrite andb_true_r in R.
    destruct (learn_step host sid c st R C0 R0) as (E & C & _).
    cbn [replay fold_left]. rewrite S0 in E. eexists. split; [exact E|].
    split; [exact C|]. cbn. auto.
  - change (c :: rest ++ [x])%list with ((c :: rest) ++ [x])%list in *.
    rewrite forallb_app in R. apply andb_true_iff in R as [R Rx].
    cbn in Rx. rewrite andb_true_r in Rx.
    destruct (IH st F R) as (t & St & Ct & Ef & Eg & En).
    rewrite replay_snoc.
    destruct (replay_keeps host sid (c :: rest) st R C0 R0) as [_ R1].
    destruct (learn_step host sid x _ Rx Ct R1) as (E & C & _).
    rewrite St in E. eexists. split; [exact E|]. split; [exact C|]. cbn. auto.
Qed.

(** X9. After learning any sequence of invoices of a supplier without
    a template, every request being answered, the invoice number format,
    the GST type and the supplier name of the template are those of the
    first invoice: later invoices do not change them. *)
Theorem format_and_gst_type_learned_once sid (c : Call num) rest (st : Store num) :
  fresh sid st ->
  forallb reliable_call (c :: rest) = true ->
  exists t,
    (forall c', reliable c' = true ->
                fst (getTemplate c' sid (replay host sid (c :: rest) st)) = Some t)
    /\ invoiceNumberFormat (patterns t)
       = Some (extractInvoiceNumberPattern (Ocr.invoiceNumber (call_data c)))
    /\ gstType (patterns t) = detectGSTType (call_data c)
    /\ supplierName t = Ocr.supplierName (call_data c).
Proof.
  intros F R. destruct (replay_first sid c rest st F R) as (t & St & Ct & ? & ? & ?).
  exists t. split; [|auto].
  intros c' Rc'. now rewrite (getTemplate_stored c' sid _ Rc' Ct).
Qed.

(** X25. A call of [learnFromInvoice] whose [get] is not answered (no
    connection to Redis), while the database is and the supplier has a
    row, does not see the template that the table holds: it makes a new
    one from its invoice alone, which counts one invoice, and puts it in
    the place of the old one. *)
Theorem template_restarts_when_unreadable sid (c : Call num) (st : Store num) :
  get_answers (call_reading c) = false ->
  database_answers (call_writing c) = true ->
  is_Some (suppliers st !! sid) ->
  exists t,
    stored sid (learn host sid c st) = Some t
    /\ t = JSON_template (newTemplate (call_now c) (call_data c) sid (call_accurate c))
    /\ totalInvoicesProcessed (statistics t) = 1
    /\ avgTotalAmount (patterns t) = JSON_number (total_of c).
Proof.
  intros G D R. unfold learn, learnFromInvoice, getTemplate. cbv zeta.
  rewrite G. cbn [negb].
  unfold saveTemplate, stored. cbv zeta. rewrite D. cbn [negb].
  change (suppliers (expire (call_writing c) (expire (call_reading c) st)))
    with (suppliers st).
  destruct R as [x Hx]. rewrite Hx.
  eexists. split.
  - destruct (setex_answers (call_writing c)); cbn; rewrite lookup_insert_eq; reflexivity.
  - split; [reflexivity|]. split; reflexivity.
Qed.

(** X11. After learning [k >= 1] invoices of a supplier without a
    template, every request being answered, [accuracyRate] is the moving
    average of the flags (100 for an accurate invoice, 0 for another),
    computed on the numbers of the program.  On binary64 this is not
    always the percentage of accurate invoices: after forty invoices of
    which the first four alone were not accurate, it is below 90, and
    [getSupplierInsights] answers MEDIUM where 90 percent gives HIGH. *)
Theorem accuracy_is_moving_average :
  (forall sid (calls : list (Call num)) (st : Store num),
      fresh sid st -> forallb reliable_call calls = true -> calls <> [] ->
      exists t,
        (forall c', reliable c' = true ->
                    fst (getTemplate c' sid (replay host sid calls st)) = Some t)
        /\ totalInvoicesProcessed (statistics t) = Z.of_nat (length calls)
        /\ accuracyRate (statistics t) = online_mean (map accuracy_of calls))
  /\ exists (calls : list (Call float)) t,
       forallb reliable_call calls = true
       /\ length calls = 40%nat /\ accurate_count calls = 36
       /\ stored "s1" (replay Examples.literal "s1" calls Examples.store0) = Some t
       /\ (ToNumber (accuracyRate (statistics t)) <? of_Z 90)%num = true
       /\ reliability
            (fst (getSupplierInsights all_well "s1"
                    (replay Examples.literal "s1" calls Examples.store0)))
          = MEDIUM.
Proof.
  split.
  - intros sid calls st F R NE.
    destruct (replay_online host sid calls st F R NE) as (t & St & Hn & _ & _ & HA).
    destruct (fresh_stored sid st F) as (_ & C0 & R0).
    destruct (replay_keeps host sid calls st R C0 R0) as [C _].
    exists t. split; [|auto].
    intros c' Rc'. now rewrite (getTemplate_stored c' sid _ Rc' C).
  - exists Examples.forty. eexists.
    split; [vm_compute; reflexivity|]. split; [reflexivity|].
    split; [vm_compute; reflexivity|]. split; [vm_compute; reflexivity|].
    split; vm_compute; reflexivity.
Qed.

End LearnedOnce.

Section LearnedFormat.
Import TemplateService.

Lemma prefix_forallb p t : forall s,
  String.prefix t s = true -> string_forallb p s = true -> string_forallb p t = true.
Proof.
  induction t as [|c t IH]; intros [|d s]; cbn; try discriminate; auto.
  destruct (Ascii.ascii_dec c d) as [->|]; [|discriminate].
  intros P [-> F]%andb_true_iff. cbn. eauto.
Qed.

(** A text that occurs in [s] is made of characters of [s]. *)
Lemma includes_forallb p t : forall s,
  includes s t = true -> string_forallb p s = true -> string_forallb p t = true.
Proof.
  induction s as [|d s IH]; cbn [includes].
  - rewrite orb_false_r. apply prefix_forallb.
  - intros [P|I]%orb_true_iff F.
    + eapply prefix_forallb; eauto.
    + apply IH; [exact I|]. cbn in F. now apply andb_true_iff in F as [_ F].
Qed.

Lemma prefix_nondigits t : forall s,
  String.prefix t s = true -> (nondigits t <= nondigits s)%nat.
Proof.
  induction t as [|c t IH]; intros [|d s]; cbn; try discriminate; try lia.
  destruct (Ascii.ascii_dec c d) as [->|]; [|discriminate].
  intros P%IH. destruct (is_digit d); lia.
Qed.

Lemma includes_nondigits t : forall s,
  includes s t = true -> (nondigits t <= nondigits s)%nat.
Proof.
  induction s as [|d s IH]; cbn [includes].
  - rewrite orb_false_r. apply prefix_nondigits.
  - intros [P|I]%orb_true_iff.
    + now apply prefix_nondigits.
    + apply IH in I. cbn. destruct (is_digit d); lia.
Qed.

Lemma nondigits_app a b : nondigits (a ++ b) = (nondigits a + nondigits b)%nat.
Proof.
  induction a as [|c a IH]; [reflexivity|].
  change (String c a ++ b) with (String c (a ++ b)). cbn [nondigits].
  rewrite IH. destruct (is_digit c); lia.
Qed.

Lemma no_backslash_app a b : no_backslash (a ++ b) = no_backslash a && no_backslash b.
Proof.
  unfold no_backslash. induction a as [|c a IH]; [reflexivity|].
  change (String c a ++ b) with (String c (a ++ b)). cbn [string_forallb].
  now rewrite IH, andb_assoc.
Qed.

Lemma flush_run_nondigits r : (0 < r)%nat -> (4 <= nondigits (flush_run r))%nat.
Proof.
  destruct r; [lia|]. intros _. unfold flush_run.
  change ("\d{" ++ pretty (S r) ++ "}") with
    (String "\" (String "d" (String "{" (pretty (S r) ++ "}")))).
  cbn [nondigits]. change (is_digit "\") with false. change (is_digit "d") with false.
  change (is_digit "{") with false. rewrite nondigits_app.
  change (nondigits "}") with 1%nat. lia.
Qed.

Lemma flush_run_backslash r : (0 < r)%nat -> no_backslash (flush_run r) = false.
Proof. destruct r; [lia|]. reflexivity. Qed.

(** Each run of digits becomes a text with four more characters that are
    not digits, a backslash among them. *)
Lemma replace_digit_runs_nondigits s : forall r,
  ((if (0 <? r)%nat || has_digit s then 4 else 0) + nondigits s
   <= nondigits (replace_digit_runs r s))%nat.
Proof.
  unfold has_digit.
  induction s as [|c s IH]; intros r; cbn [replace_digit_runs string_forallb nondigits].
  - cbn [negb orb]. rewrite orb_false_r. destruct (Nat.ltb_spec 0 r); [|lia].
    pose proof (flush_run_nondigits r). lia.
  - destruct (is_digit c) eqn:D; cbn [negb andb].
    + rewrite orb_true_r. specialize (IH (S r)). cbn [Nat.ltb Nat.leb orb] in IH. exact IH.
    + specialize (IH 0%nat). cbn [Nat.ltb Nat.leb orb] in IH.
      rewrite nondigits_app. cbn [nondigits]. rewrite D.
      destruct (Nat.ltb_spec 0 r) as [R|R]; cbn [orb].
      * pose proof (flush_run_nondigits r R).
        destruct (negb (string_forallb _ s)); lia.
      * destruct (negb (string_forallb _ s)); lia.
Qed.

Lemma replace_digit_runs_backslash s : forall r,
  (0 <? r)%nat || has_digit s = true -> no_backslash (replace_digit_runs r s) = false.
Proof.
  unfold has_digit.
  induction s as [|c s IH]; intros r; cbn [replace_digit_runs string_forallb].
  - cbn [negb]. rewrite orb_false_r. intros R%Nat.ltb_lt. now apply flush_run_backslash.
  - destruct (is_digit c) eqn:D; cbn [negb andb].
    + intros _. now apply IH.
    + intros T. rewrite no_backslash_app.
      destruct (Nat.ltb_spec 0 r) as [R|R]; cbn [orb] in T.
      * now rewrite flush_run_backslash.
      * change (no_backslash (String c (replace_digit_runs 0 s)))
          with (negb (code c =? 92) && no_backslash (replace_digit_runs 0 s)).
        rewrite (IH 0%nat T). now rewrite !andb_false_r.
Qed.

(** The text with its digit runs replaced occurs neither in the invoice
    number itself nor in a number without a backslash. *)
Lemma pattern_text_not_included n m :
  has_digit n = true ->
  m = n \/ no_backslash m = true ->
  includes m (replace_digit_runs 0 n) = false.
Proof.
  intros D [->|B]; destruct (includes _ _) eqn:I; try reflexivity; exfalso.
  - apply includes_nondigits in I.
    pose proof (replace_digit_runs_nondigits n 0) as L.
    rewrite D in L. cbn [Nat.ltb Nat.leb orb] in L. lia.
  - pose proof (includes_forallb _ _ _ I B) as C.
    fold (no_backslash (replace_digit_runs 0 n)) in C.
    rewrite replace_digit_runs_backslash in C; [discriminate | rewrite D; reflexivity].
Qed.

Lemma escape_special_truthy s : str_truthy (escape_special s) = str_truthy s.
Proof.
  destruct s as [|c s]; [reflexivity|]. cbn [escape_special].
  destruct (is_special c); reflexivity.
Qed.

Lemma replace_digit_runs_truthy n :
  has_digit n = true -> str_truthy (replace_digit_runs 0 n) = true.
Proof.
  intros D. pose proof (replace_digit_runs_nondigits n 0) as L.
  rewrite D in L. cbn [Nat.ltb Nat.leb orb] in L.
  destruct (replace_digit_runs 0 n); [cbn in L; lia | reflexivity].
Qed.

End LearnedFormat.

Section FormatCheck.
Context {num : Type} `{JsNumber num}.
Variable host : TemplateService.Engine num.
Import TemplateService.
Implicit Types (t : InvoiceTemplate num) (data : Ocr.ExtractedInvoiceData num).

(** Anomalies are only appended. *)
Lemma check_itemCount_anomalies t data st m :
  In m (l_anomalies st) -> In m (l_anomalies (check_itemCount t data st)).
Proof. unfold check_itemCount, anomaly; branches; cbn; rewrite ?in_app_iff; auto. Qed.

Lemma check_totalAmount_anomalies t data st st' m :
  check_totalAmount host t data st = Resolved st' ->
  In m (l_anomalies st) -> In m (l_anomalies st').
Proof.
  unfold check_totalAmount, anomaly, suggest.
  destruct (_ >? _)%num; [destruct (avgTotalAmount (patterns t))|];
    intros [= <-]; cbn; rewrite ?in_app_iff; auto.
Qed.

Lemma check_gstType_anomalies t data st m :
  In m (l_anomalies st) -> In m (l_anomalies (check_gstType t data st)).
Proof. unfold check_gstType, anomaly, suggest; branches; cbn; rewrite ?in_app_iff; auto. Qed.

Lemma check_hsn_anomalies t data st m :
  In m (l_anomalies st) -> In m (l_anomalies (check_hsn t data st)).
Proof. unfold check_hsn, anomaly, suggest; branches; cbn; rewrite ?in_app_iff; auto. Qed.

Lemma check_names_anomalies t data st m :
  In m (l_anomalies st) -> In m (l_anomalies (check_names t data st)).
Proof. unfold check_names, anomaly; branches; cbn; rewrite ?in_app_iff; auto. Qed.

Lemma final_suggestions_anomalies t st :
  l_anomalies (final_suggestions t st) = l_anomalies st.
Proof. unfold final_suggestions, suggest; branches; reflexivity. Qed.

Lemma later_checks_anomalies t data st m :
  In m (l_anomalies st) -> In m (l_anomalies (later_checks t data st)).
Proof.
  intros I. unfold later_checks. rewrite final_suggestions_anomalies.
  now apply check_names_anomalies, check_hsn_anomalies, check_gstType_anomalies.
Qed.

(** An anomaly of the first check is in the report, and has cost its
    points. *)
Lemma run_template_checks_anomalies t data m l :
  In m (l_anomalies (check_format host t data (mkLocals [] [] 100))) ->
  run_template_checks host t data = Resolved l ->
  In m (l_anomalies l)
  /\ matchScore l <= matchScore (check_format host t data (mkLocals [] [] 100)).
Proof.
  intros I. unfold run_template_checks. cbv zeta.
  set (s1 := check_format host t data (mkLocals [] [] 100)) in *.
  pose proof (check_itemCount_score t data s1).
  pose proof (check_itemCount_anomalies t data s1 m I) as I2.
  set (s2 := check_itemCount t data s1) in *.
  destruct (check_totalAmount host t data s2) as [s3|] eqn:E; [|discriminate].
  intros [= <-].
  pose proof (check_totalAmount_score host t data s2 s3 E).
  pose proof (later_checks_score t data s3).
  split; [|lia].
  apply later_checks_anomalies. exact (check_totalAmount_anomalies t data s2 s3 m E I2).
Qed.

(** X10. With an engine that reads an escaped text as that text, and
    every request being answered: once a template was learned from a
    first invoice whose number contains a digit, every report of
    [validateAgainstTemplate], for that very number and for every number
    without a backslash, has the anomaly
    'Invoice number format differs from usual pattern', so that the
    record does not match and the confidence is at most 90.  (The digit
    runs are replaced by [\d{n}] before the special characters are
    escaped, which escapes the backslash and the braces put in.)  The
    call returns a report unless the average total of the template is
    [null]. *)
Theorem learned_format_flags_numbers sid (c : Call num) rest cv data (st : Store num) :
  literal_engine host ->
  fresh sid st ->
  forallb reliable_call (c :: rest) = true ->
  reliable cv = true ->
  has_digit (Ocr.invoiceNumber (call_data c)) = true ->
  Ocr.invoiceNumber data = Ocr.invoiceNumber (call_data c)
  \/ no_backslash (Ocr.invoiceNumber data) = true ->
  match fst (validateAgainstTemplate host cv data sid (replay host sid (c :: rest) st)) with
  | Resolved r =>
      In "Invoice number format differs from usual pattern" (anomalies r)
      /\ matches r = false
      /\ confidence r <= 90
  | Rejected message =>
      message = toLocaleString_of_null
      /\ online_mean (map total_of (c :: rest)) = None
  end.
Proof.
  intros E F R Rv D M. unfold validateAgainstTemplate.
  destruct (replay_first host sid c rest st F R) as (t & St & Ct & Ef & _).
  destruct (replay_online host sid (c :: rest) st F R ltac:(discriminate))
    as (t' & St' & _ & HT & _).
  rewrite St in St'. injection St' as <-.
  pose proof (getTemplate_stored cv sid _ Rv Ct) as G. rewrite St in G.
  destruct (getTemplate cv sid (replay host sid (c :: rest) st)) as [found st1].
  cbn in G. subst found.
  assert (C : check_format host t data (mkLocals [] [] 100)
              = mkLocals ["Invoice number format differs from usual pattern"] [] 90).
  { unfold check_format. rewrite Ef. cbn [opt_truthy Ocr.show_opt].
    unfold extractInvoiceNumberPattern.
    rewrite escape_special_truthy, (replace_digit_runs_truthy _ D), E.
    rewrite pattern_text_not_included by assumption. reflexivity. }
  destruct (run_template_checks host t data) as [l|message] eqn:Run; cbn [fst].
  - destruct (run_template_checks_anomalies t data
                "Invoice number format differs from usual pattern" l) as [I S];
      [rewrite C; now left | exact Run |].
    rewrite C in S. cbn [matchScore] in S.
    cbn [anomalies matches confidence].
    split; [exact I|]. split; [|lia].
    destruct (l_anomalies l); [destruct I | reflexivity].
  - apply (run_template_checks_rejects host) in Run as [N ->].
    split; [reflexivity|]. now rewrite <- HT.
Qed.

End FormatCheck.

Section LiteralEngine.
Import TemplateService.

Lemma special_backslash c : is_special c = false -> (code c =? 92) = false.
Proof.
  unfold is_special. cbn [existsb]. rewrite !orb_false_iff. tauto.
Qed.

Lemma unescape_escape s : unescape (escape_special s) = s.
Proof.
  induction s as [|c s IH]; [reflexivity|]. cbn [escape_special].
  destruct (is_special c) eqn:S.
  - change (unescape (String "\" (String c (escape_special s))))
      with (String c (unescape (escape_special s))). now rewrite IH.
  - cbn [unescape]. pose proof (escape_special_truthy s) as T.
    destruct (escape_special s) as [|d q] eqn:Q.
    + destruct s; [reflexivity | discriminate].
    + rewrite (special_backslash _ S). now rewrite IH.
Qed.

(** An engine for escaped texts, which looks for the text itself. *)
Lemma literal_engine_exists {num} (fmt : num -> string) sort :
  literal_engine (mkEngine (fun p s => includes s (unescape p)) fmt sort).
Proof. intros lit s. cbn. now rewrite unescape_escape. Qed.

End LiteralEngine.

Section CacheFacts.
Context {num : Type} `{JsNumber num}.
Import TemplateService.
Variable host : Engine num.

Lemma expire_coherent c (st : Store num) : coherent st -> coherent (expire c st).
Proof. intros C sid. apply expire_coherent_at, C. Qed.

Lemma getTemplate_coherent c sid (st : Store num) :
  coherent st -> coherent (snd (getTemplate c sid st)).
Proof. intros C sid'. apply getTemplate_coherent_at, C. Qed.

(** Writing the table and the cache together, or neither. *)
Lemma saveTemplate_coherent c sid t (st : Store num) :
  whole c = true -> coherent st -> coherent (saveTemplate c sid t st).
Proof.
  unfold whole. intros W C. apply (expire_coherent c) in C.
  unfold saveTemplate. cbv zeta.
  set (st1 := expire c st) in *. clearbody st1.
  destruct (database_answers c); cbn [negb orb] in *; [|exact C].
  rewrite W.
  destruct (suppliers st1 !! sid) eqn:S; [|exact C].
  intros sid' t'. cbn.
  destruct (decide (sid = sid')) as [<-|E].
  - rewrite !lookup_insert_eq. now intros [= <-].
  - rewrite !lookup_insert_ne; [apply C | exact E |].
    intros E'. now apply cachePrefix_inj in E'.
Qed.

Lemma learn_coherent sid (c : Call num) (st : Store num) :
  whole (call_writing c) = true -> coherent st -> coherent (learn host sid c st).
Proof.
  intros W C. unfold learn, learnFromInvoice.
  pose proof (getTemplate_coherent (call_reading c) sid st C) as C1.
  destruct (getTemplate (call_reading c) sid st) as [found st1]. cbn in C1.
  now apply saveTemplate_coherent.
Qed.

Lemma learn_all_coherent calls : forall st : Store num,
  forallb (fun c => whole (call_writing (snd c))) calls = true ->
  coherent st -> coherent (learn_all host calls st).
Proof.
  induction calls as [|c calls IH]; intros st W C; [exact C|].
  cbn in W. apply andb_true_iff in W as [Wc W].
  cbn. apply IH; [exact W|]. now apply learn_coherent.
Qed.

(** X13. When the cache holds nothing but what the supplier table
    holds, this stays so through any sequence of [learnFromInvoice]
    calls none of which updates the table without the cache, whatever
    runs out of the cache in between.  Then [getTemplate], under any
    conditions, leaves the table as it is and the cache in agreement
    with it, and returns what the table holds when its requests are
    answered; [validateAgainstTemplate] and [getSupplierInsights] change
    nothing else.  A call whose [setex] is not answered while the table
    is updated leaves the cache with the template of before. *)
Theorem cache_is_transparent calls (st : Store num) :
  coherent st ->
  forallb (fun c => whole (call_writing (snd c))) calls = true ->
  let st' := learn_all host calls st in
  coherent st'
  /\ (forall c sid data,
        coherent (snd (getTemplate c sid st'))
        /\ stored sid (snd (getTemplate c sid st')) = stored sid st'
        /\ (reliable c = true -> fst (getTemplate c sid st') = stored sid st')
        /\ snd (validateAgainstTemplate host c data sid st') = snd (getTemplate c sid st')
        /\ snd (getSupplierInsights c sid st') = snd (getTemplate c sid st'))
  /\ exists (before : Store float) (c : Call float),
       coherent before
       /\ whole (call_writing c) = false
       /\ ~ coherent (learn Examples.literal "s1" c before).
Proof.
  intros C W. cbv zeta. pose proof (learn_all_coherent calls st W C) as C'.
  split; [exact C'|]. split.
  - intros c sid data.
    split; [now apply getTemplate_coherent|].
    split; [unfold stored; now rewrite getTemplate_suppliers|].
    split; [intros Rc; apply getTemplate_stored; [exact Rc | apply C']|].
    unfold validateAgainstTemplate, getSupplierInsights.
    destruct (getTemplate c sid (learn_all host calls st)) as [[t|] st1]; cbn [snd].
    + split; [now destruct (run_template_checks host t data)|].
      destruct (determine_reliability t). reflexivity.
    + auto.
  - exists (replay Examples.literal "s1" Examples.float_history Examples.store0),
           (mkCall all_well table_only 5 (Examples.float_bill 50050) true).
    split; [|split; [reflexivity|]].
    + intros sid t L.
      destruct (decide (sid = "s1")) as [->|Ne].
      * vm_compute in L. inversion L; subst. vm_compute. reflexivity.
      * exfalso. revert L.
        change (redis (replay Examples.literal "s1" Examples.float_history Examples.store0))
          with (<[cachePrefix ++ "s1" :=
                    default (JSON_template (newTemplate 0 (Examples.float_bill 0) "" true))
                      (stored "s1" (replay Examples.literal "s1" Examples.float_history
                                           Examples.store0))]>
                  (∅ : gmap string (InvoiceTemplate float))).
        rewrite lookup_insert_ne, lookup_empty; [discriminate|].
        intros E. apply cachePrefix_inj in E. congruence.
    + intros Co. specialize (Co "s1").
      unfold coherent_at in Co.
      assert (X : exists t, redis (learn Examples.literal "s1"
                                     (mkCall all_well table_only 5
                                             (Examples.float_bill 50050) true)
                                     (replay Examples.literal "s1" Examples.float_history
                                             Examples.store0))
                            !! (cachePrefix ++ "s1") = Some t
                            /\ totalInvoicesProcessed (statistics t) = 4).
      { eexists. split; [vm_compute; reflexivity | reflexivity]. }
      destruct X as (t & L & N). specialize (Co t L).
      vm_compute in Co. inversion Co; subst. discriminate N.
Qed.

End CacheFacts.

(** * More properties of the invoice queue *)

Section QueueMoreFacts.
Context {R : Type}.
Import InvoiceQueue.
Implicit Types (st : State R) (job : QueueJob R).

(** *** [cleanupOldJobs] *)

Lemma filter_filter_implies {A} (p k : A -> bool) (l : list A) :
  (forall x, In x l -> p x = true -> k x = true) ->
  List.filter p (List.filter k l) = List.filter p l.
Proof.
  induction l as [|x l IH]; intros Hx; [reflexivity|]. cbn.
  assert (IH' : List.filter p (List.filter k l) = List.filter p l)
    by (apply IH; intros; apply Hx; auto; now right).
  destruct (k x) eqn:K; cbn.
  - now rewrite IH'.
  - rewrite IH'. destruct (p x) eqn:P; [|reflexivity].
    rewrite (Hx x (or_introl eq_refl) P) in K. discriminate.
Qed.

(** X14. [cleanupOldJobs] changes nothing but the queue array, from
    which it drops exactly the COMPLETED and FAILED jobs whose
    completion time is an hour old or older; the pending and the
    processing jobs of the queue stay, in their order. *)
Theorem cleanupOldJobs_spec (now : Z) st :
  let st' := cleanupOldJobs now st in
  heap st' = heap st /\ files st' = files st
  /\ activeJobs st' = activeJobs st /\ processing st' = processing st
  /\ (forall ref,
        In ref (queue st')
        <-> In ref (queue st)
            /\ forall job t,
                 heap st !! ref = Some job -> completedAt job = Some t ->
                 status job = COMPLETED \/ status job = FAILED ->
                 now - 3600000 < t)
  /\ List.filter (has_status st' PENDING) (queue st')
     = List.filter (has_status st PENDING) (queue st)
  /\ List.filter (has_status st' PROCESSING) (queue st')
     = List.filter (has_status st PROCESSING) (queue st).
Proof.
  cbv zeta. unfold cleanupOldJobs. cbn [heap files activeJobs processing queue].
  repeat (split; [reflexivity|]).
  assert (K : forall s ref, s = PENDING \/ s = PROCESSING ->
                has_status st s ref = true -> keep_job (now - 3600000) st ref = true).
  { intros s ref Hs. unfold has_status, keep_job.
    destruct (heap st !! ref) as [job|]; [|reflexivity].
    intros E%Status_eqb_eq. destruct (completedAt job); [|reflexivity].
    destruct Hs; subst s; rewrite E; reflexivity. }
  split; [|split].
  - intros ref. rewrite filter_In. unfold keep_job. split.
    + intros [I Kp]. split; [exact I|]. intros job t Hj Hc Hs.
      rewrite Hj, Hc in Kp.
      destruct Hs as [E|E]; rewrite E in Kp; cbn in Kp; now apply Z.ltb_lt.
    + intros [I Kp]. split; [exact I|].
      destruct (heap st !! ref) as [job|]; [|reflexivity].
      destruct (completedAt job) as [t|] eqn:Hc; [|reflexivity].
      destruct (status job) eqn:Sj; cbn; try reflexivity;
        apply Z.ltb_lt, (Kp job t eq_refl Hc); auto.
  - apply (filter_filter_implies (has_status st PENDING)). intros ref _. apply K. now left.
  - apply (filter_filter_implies (has_status st PROCESSING)). intros ref _. apply K. now right.
Qed.

(** *** [retryJob] *)

Lemma start_all_files l : forall st,
  files (fold_left (fun st ref => processJob ref st) l st) = files st.
Proof. induction l as [|r l IH]; intros st; cbn; [reflexivity | now rewrite IH]. Qed.

Lemma processQueue_files st : files (processQueue st) = files st.
Proof.
  unfold processQueue. destruct (_ || _); [|reflexivity].
  destruct (_ =? 0); [reflexivity|]. cbn [files suspend].
  now rewrite start_all_files.
Qed.

(** The job as [retryJob] leaves it, before the loop is looked at. *)
Lemma getJob_retried jobId ref job st :
  find_ref jobId st = Some ref -> heap st !! ref = Some job ->
  getJob jobId
    (update_job ref (set_completedAt None)
       (update_job ref (set_error None)
          (update_job ref (set_progress 0)
             (update_job ref (set_status PENDING) st))))
  = Some (mkJob (id job) (filePath job) (fileName job) (userId job) PENDING 0
                (result job) None (createdAt job) None).
Proof.
  intros F L. unfold getJob.
  rewrite !find_ref_update, F by reflexivity.
  cbn [heap update_job].
  rewrite !lookup_alter, !decide_True by reflexivity.
  rewrite L. reflexivity.
Qed.

(** X15. [retryJob] returns [true] exactly when the job found under
    the id is FAILED; that job then becomes PENDING with progress 0 and
    without error and completion time, keeping its other fields, and
    [processQueue] is called when no loop is running; no file is
    restored.  Otherwise it returns [false] and changes nothing. *)
Theorem retryJob_spec (jobId : string) st :
  let ok := fst (retryJob jobId st) in
  let st' := snd (retryJob jobId st) in
  match getJob jobId st with
  | Some job =>
      if Status_eqb (status job) FAILED then
        ok = true
        /\ files st' = files st
        /\ exists st1,
             st' = (if processing st then st1 else processQueue st1)
             /\ getJob jobId st1
                = Some (mkJob (id job) (filePath job) (fileName job) (userId job) PENDING 0
                              (result job) None (createdAt job) None)
             /\ queue st1 = queue st /\ processing st1 = processing st
             /\ activeJobs st1 = activeJobs st
      else ok = false /\ st' = st
  | None => ok = false /\ st' = st
  end.
Proof.
  cbv zeta. unfold retryJob, getJob.
  destruct (find_ref jobId st) as [ref|] eqn:F; [|auto].
  unfold has_status. destruct (heap st !! ref) as [job|] eqn:Hj; [|auto].
  destruct (Status_eqb (status job) FAILED); cbn [negb fst snd]; [|auto].
  split; [reflexivity|].
  set (st4 := update_job ref (set_completedAt None) _).
  change (processing st4) with (processing st).
  split.
  - destruct (processing st); cbn [negb]; [reflexivity|]. now rewrite processQueue_files.
  - exists st4. split; [now destruct (processing st)|].
    split; [|repeat split].
    pose proof (getJob_retried jobId ref job st F Hj) as G. unfold getJob in G. exact G.
Qed.

(** X16. While a loop is running, cancelling a pending job and then
    retrying it both succeed and leave the job pending, with progress 0
    and without error, and its file deleted. *)
Theorem retry_after_cancel (now : Z) (jobId : string) st job :
  processing st = true ->
  getJob jobId st = Some job ->
  status job = PENDING ->
  let st1 := snd (cancelJob now jobId st) in
  let st2 := snd (retryJob jobId st1) in
  fst (cancelJob now jobId st) = true
  /\ fst (retryJob jobId st1) = true
  /\ getJob jobId st2
     = Some (mkJob (id job) (filePath job) (fileName job) (userId job) PENDING 0
                   (result job) None (createdAt job) None)
  /\ filePath job ∉ files st2.
Proof.
  intros Pr G Sp. cbv zeta.
  destruct (getJob_Some jobId st job G) as (ref & F & Hj).
  assert (C : cancelJob now jobId st
              = (true, deleteFile (filePath job)
                         (update_job ref (set_completedAt (Some now))
                            (update_job ref (set_error (Some "Cancelled by user"))
                               (update_job ref (set_status FAILED) st))))).
  { unfold cancelJob. rewrite F, Hj, Sp. reflexivity. }
  rewrite C. cbn [fst snd]. split; [reflexivity|].
  set (st1 := deleteFile _ _).
  assert (F1 : find_ref jobId st1 = Some ref).
  { unfold st1. now rewrite find_ref_deleteFile, !find_ref_update by reflexivity. }
  assert (H1 : heap st1 !! ref = Some (cancelled now job)).
  { unfold st1. cbn [heap deleteFile update_job].
    rewrite !lookup_alter, !decide_True by reflexivity. now rewrite Hj. }
  assert (Rt : retryJob jobId st1
               = (true, update_job ref (set_completedAt None)
                          (update_job ref (set_error None)
                             (update_job ref (set_progress 0)
                                (update_job ref (set_status PENDING) st1))))).
  { unfold retryJob. rewrite F1. unfold has_status at 1. rewrite H1.
    cbn [negb cancelled status Status_eqb update_job processing].
    change (processing st1) with (processing st). now rewrite Pr. }
  rewrite Rt. cbn [fst snd]. split; [reflexivity|]. split.
  - rewrite (getJob_retried jobId ref (cancelled now job) st1 F1 H1). reflexivity.
  - cbn. intros [_ N]%elem_of_difference. apply N. now apply elem_of_singleton.
Qed.


(** *** [addBatchJobs] *)

(** While a loop is running, [addJob] only pushes the new job. *)
Lemma addJob_busy now rnd created path name user st :
  processing st = true ->
  addJob now rnd created path name user st
  = (make_id now rnd,
     mkState (<[next_ref st := mkJob (make_id now rnd) path name user PENDING 0
                                       None None created None]> (heap st))
             (S (next_ref st)) (queue st ++ [next_ref st]) (processing st)
             (maxConcurrent st) (activeJobs st) (files st) (awaiting st)).
Proof. intros P. unfold addJob. cbn [processing]. now rewrite P. Qed.

(** On an idle queue with a free slot, [addJob] starts the new job alone. *)
Lemma addJob_idle now rnd created path name user st :
  wf st -> processing st = false -> pending_count st = 0 ->
  activeJobs st < maxConcurrent st ->
  let st' := snd (addJob now rnd created path name user st) in
  processing st' = true
  /\ next_ref st' = S (next_ref st)
  /\ queue st' = (queue st ++ [next_ref st])%list
  /\ activeJobs st' = activeJobs st + 1
  /\ has_status st' PROCESSING (next_ref st) = true
  /\ forall r, r <> next_ref st -> heap st' !! r = heap st !! r.
Proof.
  intros W Pr Pc Sl. cbv zeta. unfold addJob. cbn [snd].
  set (job := mkJob _ path name user PENDING 0 None None created None).
  set (ref := next_ref st).
  set (st1 := mkState _ _ _ _ _ _ _ _).
  change (processing st1) with (processing st). rewrite Pr. cbn [negb].
  unfold processQueue.
  set (st2 := set_processing true st1).
  assert (H2 : heap st2 = <[ref := job]> (heap st)) by reflexivity.
  change (queue st2) with (queue st ++ [ref])%list.
  change (maxConcurrent st2) with (maxConcurrent st).
  change (activeJobs st2) with (activeJobs st).
  rewrite (pending_after_push st job ref W eq_refl eq_refl st2 H2).
  assert (E0 : List.filter (has_status st PENDING) (queue st) = []).
  { unfold pending_count in Pc. destruct (List.filter _ _); [reflexivity | cbn in Pc; lia]. }
  rewrite E0. cbn [app].
  assert (Ex : existsb (has_status st2 PENDING) (queue st ++ [ref])%list = true).
  { rewrite existsb_app. cbn. unfold has_status at 2.
    rewrite H2, lookup_insert_eq. cbn. now rewrite orb_true_r. }
  rewrite Ex. cbn [orb].
  assert (S1 : slice0 (maxConcurrent st - activeJobs st) [ref] = [ref]).
  { unfold slice0. cbn [length].
    destruct (Z.ltb_spec (maxConcurrent st - activeJobs st) 0); [lia|].
    replace (Z.to_nat _) with 1%nat by lia. reflexivity. }
  rewrite S1. change (Z.of_nat (length [ref]) =? 0) with false. cbv iota. cbn [fold_left].
  assert (L2 : heap st2 !! ref = Some job) by (rewrite H2; apply lookup_insert_eq).
  split; [reflexivity|]. split; [reflexivity|]. split; [reflexivity|].
  split; [reflexivity|]. split.
  - unfold has_status. cbn [heap suspend].
    now rewrite (processJob_heap_same ref st2 job L2).
  - intros r Ne. cbn [heap suspend]. rewrite processJob_heap_other by exact Ne.
    rewrite H2. now apply lookup_insert_ne.
Qed.

Lemma push_all user rest : forall ids st,
  processing st = true ->
  let acc :=
    fold_left
      (fun acc file =>
         let '(jobId, st) :=
           addJob (read_now file) (read_random file) (read_created file)
                  (path file) (filename file) user (snd acc) in
         ((fst acc ++ [jobId])%list, st))
      rest (ids, st) in
  fst acc = (ids ++ map (fun x => make_id (read_now x) (read_random x)) rest)%list
  /\ queue (snd acc) = (queue st ++ seq (next_ref st) (length rest))%list
  /\ processing (snd acc) = true
  /\ activeJobs (snd acc) = activeJobs st
  /\ (forall r, (r < next_ref st)%nat -> heap (snd acc) !! r = heap st !! r)
  /\ forall k, (k < length rest)%nat -> has_status (snd acc) PENDING (next_ref st + k) = true.
Proof.
  induction rest as [|f rest IH]; intros ids st P; cbv zeta; cbn [fold_left].
  - cbn. rewrite !app_nil_r. repeat split; auto. intros k Hk. lia.
  - cbn [fst snd]. rewrite addJob_busy by exact P.
    set (st1 := mkState _ _ _ _ _ _ _ _).
    destruct (IH (ids ++ [make_id (read_now f) (read_random f)])%list st1 P)
      as (Ei & Eq & Ep & Ea & Eh & Es).
    cbv zeta in *. rewrite Ei, Eq, Ep, Ea. cbn [map length seq st1 queue next_ref activeJobs].
    rewrite <- !app_assoc. cbn [app].
    repeat split; auto.
    + intros r Hr. rewrite Eh by (cbn; lia). cbn. rewrite lookup_insert_ne; [reflexivity|lia].
    + intros k Hk. destruct k as [|k].
      * rewrite Nat.add_0_r. unfold has_status. rewrite Eh by (cbn; lia).
        cbn. now rewrite lookup_insert_eq.
      * replace (next_ref st + S k)%nat with (next_ref st1 + k)%nat by (cbn; lia).
        apply Es. lia.
Qed.

(** X17. [addBatchJobs] on a queue without a running loop, without
    pending jobs and with a free slot: the jobs are queued in order
    under the ids returned, and when it returns the first one is
    PROCESSING and all the others are PENDING, with one more job
    active. *)
Theorem addBatchJobs_idle (f : BatchFile) (rest : list BatchFile) (user : string) st :
  wf st -> processing st = false -> pending_count st = 0 ->
  activeJobs st < maxConcurrent st ->
  let ids := fst (addBatchJobs (f :: rest) user st) in
  let st' := snd (addBatchJobs (f :: rest) user st) in
  ids = map (fun x => make_id (read_now x) (read_random x)) (f :: rest)
  /\ queue st' = (queue st ++ seq (next_ref st) (S (length rest)))%list
  /\ processing st' = true
  /\ activeJobs st' = activeJobs st + 1
  /\ has_status st' PROCESSING (next_ref st) = true
  /\ forall k, (0 < k <= length rest)%nat -> has_status st' PENDING (next_ref st + k) = true.
Proof.
  intros W Pr Pc Sl. cbv zeta. unfold addBatchJobs. cbn [fold_left fst snd app].
  destruct (addJob_idle (read_now f) (read_random f) (read_created f) (path f) (filename f)
              user st W Pr Pc Sl) as (P1 & N1 & Q1 & A1 & S1 & H1).
  assert (Ei : fst (addJob (read_now f) (read_random f) (read_created f) (path f)
                           (filename f) user st) = make_id (read_now f) (read_random f))
    by reflexivity.
  destruct (addJob _ _ _ _ _ user st) as [jobId st1]. cbn [fst snd] in *. subst jobId.
  destruct (push_all user rest [make_id (read_now f) (read_random f)] st1 P1)
    as (Ei & Eq & Ep & Ea & Eh & Es).
  cbv zeta in *. rewrite Ei, Eq, Ep, Ea, Q1, N1, A1. cbn [map seq app].
  rewrite <- app_assoc. cbn [app].
  repeat split; auto.
  - unfold has_status in *. rewrite Eh by lia. exact S1.
  - intros k Hk. destruct k as [|k]; [lia|].
    replace (next_ref st + S k)%nat with (next_ref st1 + k)%nat by lia.
    apply Es. lia.
Qed.

End QueueMoreFacts.

(** * Properties of the queue at run time *)

Section RuntimeFacts.
Context {num : Type} `{JsNumber num} {Bill : Type}.
Variable host : Ocr.Host num.
Import InvoiceQueue QueueRuntime.
Implicit Types (st : State (JobResult num Bill)) (job : QueueJob (JobResult num Bill)).
Implicit Types (ts : list (Task num Bill)) (t : Task num Bill) (rt : Runtime num Bill).

(** *** Tasks *)

Lemma lookup_split ts k t :
  ts !! k = Some t ->
  exists a b, ts = (a ++ t :: b)%list /\ delete k ts = (a ++ b)%list
              /\ forall t', <[k := t']> ts = (a ++ t' :: b)%list.
Proof.
  intros L. exists (take k ts), (drop (S k) ts).
  split; [symmetry; now apply take_drop_middle|].
  split; [apply delete_take_drop|].
  intros t'. apply insert_take_drop. now apply lookup_lt_Some in L.
Qed.

Lemma job_refs_app ts1 ts2 : job_refs (ts1 ++ ts2) = (job_refs ts1 ++ job_refs ts2)%list.
Proof. apply omap_app. Qed.

Lemma job_refs_In ts ref : In ref (job_refs ts) <-> exists t, In t ts /\ task_job t = Some ref.
Proof.
  unfold job_refs. rewrite <- list_elem_of_In, list_elem_of_omap.
  split; intros (t & I & E); exists t; split; auto; now apply list_elem_of_In.
Qed.

(** With distinct jobs, the task of a job is the only one. *)
Lemma task_unique a t b t0 ref :
  List.NoDup (job_refs (a ++ t :: b)) ->
  task_job t = Some ref -> task_job t0 = Some ref -> In t0 (a ++ t :: b) -> t0 = t.
Proof.
  intros N E E0 I. rewrite job_refs_app in N. cbn in N. rewrite E in N.
  apply List.NoDup_remove_2 in N.
  apply in_app_iff in I as [I|[I|I]]; [|now subst|]; exfalso; apply N, in_app_iff;
    [left | right]; apply job_refs_In; eauto.
Qed.

Lemma filter_loop_job a t b :
  is_loop t = false ->
  List.filter is_loop (a ++ t :: b) = List.filter is_loop (a ++ b).
Proof. intros E. rewrite !List.filter_app. cbn. now rewrite E. Qed.


(** *** The queue object under the updates of a segment *)

Lemma adopt_quiet st ts : awaiting st = [] -> adopt st ts = mkRuntime st ts.
Proof.
  intros E. unfold adopt. rewrite E. cbn. rewrite app_nil_r.
  destruct st; cbn in *; now subst.
Qed.

Lemma update_job_lookup ref f st ref' :
  heap (update_job ref f st) !! ref'
  = if decide (ref' = ref) then f <$> heap st !! ref else heap st !! ref'.
Proof.
  cbn. rewrite lookup_alter.
  destruct (decide (ref = ref')) as [->|D]; [now rewrite decide_True|].
  rewrite decide_False; congruence.
Qed.

Lemma update_job_is_Some ref f st ref' :
  is_Some (heap (update_job ref f st) !! ref') <-> is_Some (heap st !! ref').
Proof.
  rewrite update_job_lookup. case_decide as D; [subst|reflexivity].
  now rewrite fmap_is_Some.
Qed.

Lemma has_status_update ref f st s ref' :
  (forall job, status (f job) = status job) ->
  has_status (update_job ref f st) s ref' = has_status st s ref'.
Proof.
  intros E. unfold has_status. rewrite update_job_lookup.
  case_decide as D; [subst|reflexivity].
  destruct (heap st !! ref); cbn; [now rewrite E | reflexivity].
Qed.

(** A job record stays as it should be when other tasks advance or end. *)
Lemma job_ok_frame fs fs' ts ts' ref job :
  job_ok host fs ts ref job ->
  fs' ⊆ fs ->
  (forall r, In r (job_refs ts') -> In r (job_refs ts)) ->
  (forall t, In t ts -> task_job t = Some ref -> In t ts') ->
  job_ok host fs' ts' ref job.
Proof.
  unfold job_ok. intros J F R T.
  destruct (status job).
  - destruct J as (?&?&?&?&N). repeat split; auto.
  - destruct J as (?&?&?&t&I&E&P). repeat split; auto. exists t. auto.
  - destruct J as (?&?&?&?&N). repeat split; auto.
  - destruct J as (?&?&?&?&NF&N). repeat split; auto.
Qed.

(** *** A call moves on to its next [await] *)

Lemma advance_core st a t b t' ref :
  core host st (a ++ t :: b) ->
  task_job t = Some ref -> task_job t' = Some ref -> task_ok host t' ->
  core host (update_job ref (set_progress (task_progress t')) st) (a ++ t' :: b).
Proof.
  intros [A M C D J T P Q Hp Lv] E E' O.
  assert (R : job_refs (a ++ t' :: b) = job_refs (a ++ t :: b)).
  { rewrite !job_refs_app. cbn. now rewrite E, E'. }
  assert (S : forall s r, has_status (update_job ref (set_progress (task_progress t')) st) s r
                          = has_status st s r).
  { intros s r. now apply has_status_update. }
  constructor; cbn [update_job awaiting maxConcurrent activeJobs processing
                      queue files next_ref].
  - exact A.
  - exact M.
  - now rewrite R.
  - now rewrite R.
  - intros ref' job'. fold (update_job ref (set_progress (task_progress t')) st).
    rewrite update_job_lookup. case_decide as Dc.
    + subst ref'. destruct (heap st !! ref) as [job|] eqn:Hj; [|discriminate].
      cbn. intros [= <-]. specialize (J ref job Hj).
      destruct (T ref) as [_ St].
      { apply job_refs_In. exists t. split; [|exact E].
        apply in_app_iff. right. now left. }
      unfold has_status in St. rewrite Hj in St. apply Status_eqb_eq in St.
      unfold job_ok in *. cbn [status set_progress result error completedAt progress].
      rewrite St in *. destruct J as (?&?&?&_). repeat split; auto.
      exists t'. split; [apply in_app_iff; right; now left | auto].
    + intros Hj. apply job_ok_frame with (fs := files st) (ts := (a ++ t :: b)%list); auto.
      * now rewrite R.
      * intros t0 I0 E0. apply in_app_iff in I0 as [I0|[I0|I0]];
          [apply in_app_iff; now left | subst t0; congruence | apply in_app_iff; right; now right].
  - intros r I. rewrite R in I. rewrite S. now apply T.
  - intros t0 I0. apply in_app_iff in I0 as [I0|[I0|I0]].
    + apply P, in_app_iff. now left.
    + now subst.
    + apply P, in_app_iff. right. now right.
  - destruct Q as [Q1 Q2]. split; [exact Q1|]. intros r I. destruct (Q2 r I) as [? ?].
    split; [assumption|].
    fold (update_job ref (set_progress (task_progress t')) st). now apply update_job_is_Some.
  - intros r. fold (update_job ref (set_progress (task_progress t')) st).
    rewrite update_job_is_Some. apply Hp.
  - intros r job'. fold (update_job ref (set_progress (task_progress t')) st).
    rewrite update_job_lookup. case_decide as Dc.
    + subst r. destruct (heap st !! ref) as [job|] eqn:Hj; [|discriminate].
      cbn. intros [= <-]. cbn. now apply Lv.
    + apply Lv.
Qed.


(** *** A call ends *)

Lemma keep_job_live oneHourAgo st ref job :
  heap st !! ref = Some job ->
  status job = PENDING \/ status job = PROCESSING ->
  keep_job oneHourAgo st ref = true.
Proof.
  intros Hj S. unfold keep_job. rewrite Hj.
  destruct (completedAt job); [|reflexivity].
  destruct S as [-> | ->]; reflexivity.
Qed.

Lemma finish_core st st1 a t b ref f cleanup :
  core host st (a ++ t :: b) ->
  task_job t = Some ref ->
  changed_at ref f st st1 ->
  (forall job,
      heap st !! ref = Some job -> status job = PROCESSING ->
      result job = None -> error job = None -> completedAt job = None ->
      progress job = task_progress t ->
      ~ In ref (job_refs (a ++ b)) ->
      job_ok host (files st1) (a ++ b) ref (f job)
      /\ status (f job) <> PENDING) ->
  core host (finally cleanup st1) (a ++ b).
Proof.
  intros [A M C D J T P Q Hp Lv] E (Eh & En & Eq & Ep & Em & Ea & Ef & Ew) F.
  assert (R : job_refs (a ++ t :: b) = (job_refs a ++ ref :: job_refs b)%list).
  { rewrite job_refs_app. cbn. now rewrite E. }
  assert (R' : job_refs (a ++ b) = (job_refs a ++ job_refs b)%list) by apply job_refs_app.
  assert (Sub : forall r, In r (job_refs (a ++ b)) -> In r (job_refs (a ++ t :: b)) /\ r <> ref).
  { intros r I. rewrite R, R' in *. split.
    - apply in_app_iff in I as [I|I]; apply in_app_iff; [left | right; right]; exact I.
    - intros ->. now apply List.NoDup_remove_2 in D. }
  assert (Hl : forall r, r <> ref -> heap st1 !! r = heap st !! r).
  { intros r Ne. rewrite Eh. now rewrite decide_False. }
  assert (Hs : forall r, is_Some (heap st1 !! r) <-> is_Some (heap st !! r)).
  { intros r. rewrite Eh. case_decide as Dc; [subst|reflexivity]. apply fmap_is_Some. }
  assert (Tr : exists job, heap st !! ref = Some job /\ status job = PROCESSING).
  { destruct (T ref) as [_ St]. { rewrite R. apply in_app_iff. right. now left. }
    unfold has_status in St. destruct (heap st !! ref) as [job|]; [|discriminate].
    apply Status_eqb_eq in St. eauto. }
  destruct Tr as (job & Hj & Sj).
  assert (NI : ~ In ref (job_refs (a ++ b))).
  { rewrite R'. rewrite R in D. now apply List.NoDup_remove_2 in D. }
  assert (Jj : result job = None /\ error job = None /\ completedAt job = None
               /\ progress job = task_progress t).
  { pose proof (J _ _ Hj) as Jr. unfold job_ok in Jr. rewrite Sj in Jr.
    destruct Jr as (?&?&?&t0&I0&E0&P0). repeat split; auto.
    now rewrite <- (task_unique a t b t0 ref D E E0 I0). }
  destruct Jj as (J1 & J2 & J3 & J4).
  destruct (F job Hj Sj J1 J2 J3 J4 NI) as [Fj Fs].
  assert (Hr : heap st1 !! ref = Some (f job)).
  { rewrite Eh, decide_True, Hj by reflexivity. reflexivity. }
  constructor; cbn [finally cleanupOldJobs set_activeJobs awaiting maxConcurrent
                      activeJobs processing queue files next_ref heap].
  - congruence.
  - congruence.
  - rewrite Ea, C, R, R', !length_app. cbn [length]. lia.
  - rewrite R'. rewrite R in D. now apply List.NoDup_remove_1 in D.
  - intros r job' Hr'. destruct (decide (r = ref)) as [->|Ne].
    + rewrite Hr in Hr'. injection Hr' as <-. exact Fj.
    + rewrite Hl in Hr' by exact Ne.
      apply job_ok_frame with (fs := files st) (ts := (a ++ t :: b)%list); auto.
      * intros r' I. now apply Sub.
      * intros t0 I0 E0. apply in_app_iff in I0 as [I0|[I0|I0]];
          [apply in_app_iff; now left | subst t0; congruence | apply in_app_iff; now right].
  - intros r I. destruct (Sub r I) as [I' Ne]. destruct (T r I') as [Iq St].
    assert (St1 : has_status st1 PROCESSING r = true).
    { unfold has_status in *. now rewrite Hl. }
    split.
    + apply filter_In. split; [now rewrite Eq|].
      unfold has_status in St1.
      destruct (heap st1 !! r) as [jr|] eqn:Hjr; [|discriminate].
      apply Status_eqb_eq in St1.
      apply keep_job_live with (job := jr); [exact Hjr | now right].
    + exact St1.
  - intros t0 I0. apply P. apply in_app_iff in I0 as [I0|I0]; apply in_app_iff;
      [left | right; right]; exact I0.
  - destruct Q as [Q1 Q2]. split.
    + apply List.NoDup_filter. now rewrite Eq.
    + intros r I. apply filter_In in I as [I _]. rewrite Eq in I.
      destruct (Q2 r I). rewrite En, Hs. auto.
  - intros r. rewrite Hs, En. apply Hp.
  - intros r job' Hr' Sp. apply filter_In.
    assert (Ne : r <> ref).
    { intros ->. rewrite Hr in Hr'. injection Hr' as <-. contradiction. }
    split.
    + rewrite Eq. apply Lv with (job := job'); [now rewrite <- Hl | exact Sp].
    + apply keep_job_live with (job := job'); [exact Hr' | now left].
Qed.


Lemma catch_changed ref message now cleanup st :
  exists st1,
    catch ref message now cleanup st = finally cleanup st1
    /\ changed_at ref
         (fun job => set_completedAt (Some now) (set_error (Some message) (set_status FAILED job)))
         st st1
    /\ forall job, heap st !! ref = Some job -> files st1 = files st ∖ {[filePath job]}.
Proof.
  unfold catch.
  set (st3 := update_job ref (set_completedAt (Some now)) _).
  assert (L3 : forall r, heap st3 !! r
                 = if decide (r = ref)
                   then (fun job => set_completedAt (Some now)
                                      (set_error (Some message) (set_status FAILED job)))
                        <$> heap st !! ref
                   else heap st !! r).
  { intros r. unfold st3. rewrite !update_job_lookup.
    case_decide as Dc; [|reflexivity].
    rewrite !decide_True by reflexivity. now destruct (heap st !! ref). }
  destruct (heap st3 !! ref) as [job3|] eqn:H3.
  - exists (deleteFile (filePath job3) st3). split; [reflexivity|]. split.
    + unfold changed_at. cbn [deleteFile heap next_ref queue processing maxConcurrent
                                activeJobs files awaiting].
      repeat split; try reflexivity; [exact L3|].
      intros x Hx. apply elem_of_difference in Hx. tauto.
    + intros job Hj. cbn. rewrite L3, decide_True, Hj in H3 by reflexivity.
      injection H3 as E3. now rewrite <- E3.
  - exists st3. split; [reflexivity|]. split.
    + unfold changed_at. repeat split; try reflexivity. exact L3.
    + intros job Hj. rewrite L3, decide_True, Hj in H3 by reflexivity. discriminate.
Qed.

Lemma catch_core st a t b ref message now cleanup :
  core host st (a ++ t :: b) ->
  task_job t = Some ref ->
  In (task_progress t) [20; 50; 70; 85] ->
  core host (catch ref message now cleanup st) (a ++ b).
Proof.
  intros I E Pr.
  destruct (catch_changed ref message now cleanup st) as (st1 & -> & Ch & Fl).
  apply finish_core with (st := st) (t := t) (ref := ref)
    (f := fun job => set_completedAt (Some now) (set_error (Some message) (set_status FAILED job)));
    auto.
  intros job Hj Sj J1 J2 J3 J4 NI. split; [|discriminate].
  unfold job_ok. cbn. rewrite J4, (Fl job Hj).
  repeat split; eauto; try (now right).
  intros [_ C]%elem_of_difference. apply C. now apply elem_of_singleton.
Qed.


Lemma complete_changed ref d v dup c now cleanup st :
  exists st1,
    complete ref d v dup c now cleanup st = finally cleanup st1
    /\ changed_at ref
         (fun job =>
            set_result (mkJobResult d v dup c (fileName job))
              (set_completedAt (Some now)
                 (set_progress 100 (set_status COMPLETED (set_progress 95 job)))))
         st st1
    /\ files st1 = files st.
Proof.
  unfold complete.
  set (st4 := update_job ref (set_completedAt (Some now)) _).
  assert (L4 : forall r, heap st4 !! r
                 = if decide (r = ref)
                   then (fun job => set_completedAt (Some now)
                                      (set_progress 100
                                         (set_status COMPLETED (set_progress 95 job))))
                        <$> heap st !! ref
                   else heap st !! r).
  { intros r. unfold st4. rewrite !update_job_lookup.
    case_decide as Dc; [|reflexivity].
    rewrite !decide_True by reflexivity. now destruct (heap st !! ref). }
  destruct (heap st4 !! ref) as [job4|] eqn:H4.
  - eexists. split; [reflexivity|]. split; [|reflexivity].
    unfold changed_at. cbn [update_job next_ref queue processing maxConcurrent
                              activeJobs files awaiting].
    repeat split; try reflexivity.
    intros r. fold (update_job ref (set_result (mkJobResult d v dup c (fileName job4))) st4).
    rewrite update_job_lookup.
    case_decide as Dc; [|now rewrite L4, decide_False].
    rewrite H4. rewrite L4, decide_True in H4 by reflexivity.
    destruct (heap st !! ref) as [job|]; [|discriminate].
    cbn in *. injection H4 as E4. now rewrite <- E4.
  - exists st4. split; [reflexivity|]. split; [|reflexivity].
    unfold changed_at. repeat split; try reflexivity.
    intros r. rewrite L4. case_decide as Dc; [|reflexivity].
    rewrite L4, decide_True in H4 by reflexivity.
    now destruct (heap st !! ref).
Qed.

Lemma complete_core st a b ref d v (dup : Ocr.DuplicateCheck Bill) c now cleanup :
  core host st (a ++ AtCorrections ref d v dup :: b) ->
  Ocr.generateCorrectionSuggestions d v = Resolved c ->
  core host (complete ref d v dup c now cleanup st) (a ++ b).
Proof.
  intros I G.
  destruct (complete_changed ref d v dup c now cleanup st) as (st1 & -> & Ch & Fl).
  assert (O : task_ok host (AtCorrections ref d v dup)).
  { apply (core_payload host _ _ I). apply in_app_iff. right. now left. }
  eapply finish_core with (st := st) (t := AtCorrections ref d v dup) (ref := ref);
    [exact I | reflexivity | exact Ch |].
  intros job Hj Sj J1 J2 J3 J4 NI. split; [|discriminate].
  unfold job_ok. cbn. destruct O as [Ov Od].
  split; [reflexivity|]. split; [|repeat split; eauto].
  eexists. split; [reflexivity|]. unfold result_ok. cbn. eauto 6.
Qed.


(** *** The loop *)

Lemma loop_ok_keep st st' ts ts' :
  loop_ok st ts ->
  processing st = true \/ ts <> [] ->
  processing st' = processing st ->
  List.filter is_loop ts' = List.filter is_loop ts ->
  (forall r, In r (job_refs ts') -> In r (job_refs ts)) ->
  loop_ok st' ts'.
Proof.
  unfold loop_ok. intros L N Ep Ef R. rewrite Ep.
  destruct (processing st).
  - destruct L as (jobs & F & I & Len). exists jobs. rewrite Ef. auto.
  - destruct L as [L _]. destruct N; congruence.
Qed.

(** *** Calls from outside *)

Lemma push_core st ts jobId path name user created :
  core host st ts ->
  core host
    (mkState (<[next_ref st := mkJob jobId path name user PENDING 0 None None created None]>
                (heap st))
             (S (next_ref st)) (queue st ++ [next_ref st]) (processing st)
             (maxConcurrent st) (activeJobs st) (files st) (awaiting st))
    ts.
Proof.
  intros [A M C D J T P Q Hp Lv].
  assert (Fr : ~ In (next_ref st) (queue st)).
  { intros I. destruct Q as [_ Q]. destruct (Q _ I). lia. }
  constructor; cbn [awaiting maxConcurrent activeJobs queue files next_ref heap]; auto.
  - intros r job'. destruct (decide (r = next_ref st)) as [->|Ne].
    + rewrite lookup_insert_eq. intros [= <-]. unfold job_ok. cbn.
      repeat split; auto. intros I. apply Fr. now apply T.
    + rewrite lookup_insert_ne by congruence. apply J.
  - intros r I. destruct (T r I) as [Iq St]. split; [apply in_app_iff; now left|].
    unfold has_status in *. cbn [heap].
    rewrite lookup_insert_ne; [exact St|]. intros <-. contradiction.
  - destruct Q as [Q1 Q2]. split.
    + apply List.NoDup_app; [exact Q1 | repeat constructor; intros [] |].
      intros x Ix [<-|[]]. contradiction.
    + intros r [I|[<-|[]]]%in_app_iff.
      * destruct (Q2 r I) as [Lt S]. split; [lia|].
        rewrite lookup_insert_ne; [exact S | lia].
      * split; [lia|]. rewrite lookup_insert_eq. eauto.
  - intros r. destruct (decide (r = next_ref st)) as [->|Ne]; [lia|].
    rewrite lookup_insert_ne by congruence. intros S. specialize (Hp r S). lia.
  - intros r job'. destruct (decide (r = next_ref st)) as [->|Ne].
    + intros _ _. apply in_app_iff. right. now left.
    + rewrite lookup_insert_ne by congruence. intros Hj Sp.
      apply in_app_iff. left. eauto.
Qed.


(** A change of one job record that leaves the suspended calls alone. *)
Lemma change_core st st1 ts ref f :
  core host st ts ->
  changed_at ref f st st1 ->
  (forall job,
      heap st !! ref = Some job ->
      job_ok host (files st) ts ref job ->
      job_ok host (files st1) ts ref (f job)
      /\ (status job = PROCESSING -> status (f job) = PROCESSING)
      /\ (status (f job) = PENDING -> In ref (queue st))) ->
  core host st1 ts.
Proof.
  intros [A M C D J T P Q Hp Lv] (Eh & En & Eq & Ep & Em & Ea & Ef & Ew) F.
  assert (Hl : forall r, r <> ref -> heap st1 !! r = heap st !! r).
  { intros r Ne. rewrite Eh. now rewrite decide_False. }
  assert (Hs : forall r, is_Some (heap st1 !! r) <-> is_Some (heap st !! r)).
  { intros r. rewrite Eh. case_decide as Dc; [subst|reflexivity]. apply fmap_is_Some. }
  constructor; try congruence; try assumption.
  - intros r job' Hr'. destruct (decide (r = ref)) as [->|Ne].
    + rewrite Eh, decide_True in Hr' by reflexivity.
      destruct (heap st !! ref) as [job|] eqn:Hj; [|discriminate].
      injection Hr' as <-. now destruct (F job eq_refl (J _ _ Hj)).
    + rewrite Hl in Hr' by exact Ne.
      apply job_ok_frame with (fs := files st) (ts := ts); auto.
  - intros r I. destruct (T r I) as [Iq St]. split; [now rewrite Eq|].
    unfold has_status in *. rewrite Eh. case_decide as Dc; [subst r|exact St].
    destruct (heap st !! ref) as [job|] eqn:Hj; [|discriminate]. cbn.
    apply Status_eqb_eq in St. apply Status_eqb_eq.
    now apply (F job eq_refl (J _ _ Hj)).
  - destruct Q as [Q1 Q2]. rewrite Eq, En. split; [exact Q1|].
    intros r I. rewrite Hs. now apply Q2.
  - intros r. rewrite Hs, En. apply Hp.
  - intros r job' Hr' Sp. rewrite Eq. destruct (decide (r = ref)) as [->|Ne].
    + rewrite Eh, decide_True in Hr' by reflexivity.
      destruct (heap st !! ref) as [job|] eqn:Hj; [|discriminate].
      injection Hr' as <-. now apply (F job eq_refl (J _ _ Hj)).
    + rewrite Hl in Hr' by exact Ne. eauto.
Qed.

Lemma cancelJob_core now jobId st ts :
  core host st ts -> core host (snd (cancelJob now jobId st)) ts.
Proof.
  intros I. unfold cancelJob.
  destruct (find_ref jobId st) as [ref|]; [|exact I].
  destruct (heap st !! ref) as [job|] eqn:Hj; [|exact I].
  destruct (Status_eqb (status job) PENDING) eqn:Sp; [|exact I].
  apply Status_eqb_eq in Sp. cbn [snd].
  apply change_core with (st := st) (ref := ref)
    (f := fun job => set_completedAt (Some now)
                       (set_error (Some "Cancelled by user") (set_status FAILED job)));
    [exact I | |].
  - unfold changed_at. cbn [deleteFile heap next_ref queue processing maxConcurrent
                              activeJobs files awaiting].
    repeat split; try reflexivity.
    + intros r. rewrite !update_job_lookup. case_decide as Dc; [|reflexivity].
      rewrite !decide_True by reflexivity. now rewrite Hj.
    + intros x Hx. apply elem_of_difference in Hx. tauto.
  - intros job' Hj' Jk. rewrite Hj in Hj'. injection Hj' as <-.
    unfold job_ok in *. rewrite Sp in Jk. cbn. destruct Jk as (P0 & R0 & _ & _ & N0).
    split; [|split; [congruence | discriminate]].
    rewrite P0. repeat split; eauto; try (now left).
    intros [_ C]%elem_of_difference. apply C. now apply elem_of_singleton.
Qed.

Lemma find_ref_In jobId st ref : find_ref jobId st = Some ref -> In ref (queue st).
Proof. unfold find_ref. intros F. now apply find_some in F. Qed.

(** The assignments of [retryJob]. *)
Lemma retry_core jobId st ts ref :
  core host st ts ->
  find_ref jobId st = Some ref ->
  has_status st FAILED ref = true ->
  core host
    (update_job ref (set_completedAt None)
       (update_job ref (set_error None)
          (update_job ref (set_progress 0)
             (update_job ref (set_status PENDING) st)))) ts.
Proof.
  intros I F Sf.
  apply change_core with (st := st) (ref := ref)
    (f := fun job => set_completedAt None
                       (set_error None (set_progress 0 (set_status PENDING job))));
    [exact I | |].
  - unfold changed_at. repeat split; try reflexivity.
    intros r. rewrite !update_job_lookup. case_decide as Dc; [|reflexivity].
    rewrite !decide_True by reflexivity. now destruct (heap st !! ref).
  - intros job Hj Jk. unfold has_status in Sf. rewrite Hj in Sf.
    apply Status_eqb_eq in Sf.
    unfold job_ok in *. rewrite Sf in Jk. cbn. destruct Jk as (_ & R0 & _ & _ & _ & N0).
    split; [auto|]. split; [congruence|]. intros _. now apply find_ref_In in F.
Qed.


(** *** The top of the loop of [processQueue] *)

Lemma start_all_heap_in l : forall st ref job,
  List.NoDup l -> In ref l -> heap st !! ref = Some job ->
  heap (fold_left (fun st ref => processJob ref st) l st) !! ref
  = Some (set_progress 20 (set_progress 10 (set_status PROCESSING job))).
Proof.
  induction l as [|r l IH]; intros st ref job N I Hj; [destruct I|].
  inversion N as [|? ? Nr Nl]; subst. cbn [fold_left].
  destruct (decide (r = ref)) as [->|Ne].
  - rewrite start_all_heap by exact Nr. now apply processJob_heap_same.
  - destruct I as [->|I]; [contradiction|].
    apply IH; [exact Nl | exact I |].
    rewrite processJob_heap_other by congruence. exact Hj.
Qed.

Lemma start_all_frame l : forall st,
  let st' := fold_left (fun st ref => processJob ref st) l st in
  activeJobs st' = activeJobs st + Z.of_nat (length l)
  /\ awaiting st' = (awaiting st ++ map AwaitExtraction l)%list
  /\ files st' = files st /\ maxConcurrent st' = maxConcurrent st
  /\ processing st' = processing st.
Proof.
  induction l as [|r l IH]; intros st; cbn [fold_left length map].
  - cbn. rewrite app_nil_r. repeat split; lia.
  - destruct (IH (processJob r st)) as (Ea & Ew & Ef & Em & Ep). cbv zeta.
    rewrite Ea, Ew, Ef, Em, Ep. cbn. rewrite <- app_assoc. repeat split; lia.
Qed.

Lemma start_all_is_Some l : forall st ref,
  is_Some (heap (fold_left (fun st ref => processJob ref st) l st) !! ref)
  <-> is_Some (heap st !! ref).
Proof.
  induction l as [|r l IH]; intros st ref; cbn [fold_left]; [reflexivity|].
  rewrite IH. unfold processJob. cbn [heap suspend].
  rewrite !update_job_is_Some. reflexivity.
Qed.

Lemma job_refs_batch (l jobs : list nat) :
  job_refs (map (task_of (num := num) (Bill := Bill))
                (map AwaitExtraction l ++ [AwaitBatch jobs])) = l
  /\ List.filter is_loop
       (map (task_of (num := num) (Bill := Bill)) (map AwaitExtraction l ++ [AwaitBatch jobs]))
     = [AtBatch jobs].
Proof.
  induction l as [|r l [IH1 IH2]]; cbn; [auto|].
  split; [f_equal; exact IH1 | exact IH2].
Qed.

Lemma core_processing b st ts : core host st ts -> core host (set_processing b st) ts.
Proof. intros [A M C D J T P Q Hp Lv]. constructor; assumption. Qed.

Lemma take_In {A} n (l : list A) x : In x (take n l) -> In x l.
Proof. intros I. rewrite <- (firstn_skipn n l). apply in_app_iff. now left. Qed.

Lemma take_NoDup {A} n (l : list A) : List.NoDup l -> List.NoDup (take n l).
Proof. intros N. rewrite <- (firstn_skipn n l) in N. now apply List.NoDup_app_remove_r in N. Qed.

Lemma loop_top st :
  core host st [] -> invariant host (adopt (processQueue st) []).
Proof.
  intros I. pose proof I as [A M C D J T P Q Hp Lv]. cbn in C.
  unfold processQueue.
  set (st0 := set_processing true st).
  replace (0 <? activeJobs st0) with false by (cbn; rewrite C; reflexivity).
  rewrite orb_false_r.
  destruct (existsb (has_status st0 PENDING) (queue st0)) eqn:Ex.
  - (* a batch is started *)
    replace (maxConcurrent st0 - activeJobs st0) with 3 by (cbn; rewrite M, C; reflexivity).
    set (l := slice0 3 _).
    assert (Lp : forall r, In r l -> In r (queue st) /\ has_status st PENDING r = true).
    { intros r Ir. unfold l, slice0 in Ir. apply take_In in Ir.
      now apply filter_In in Ir. }
    assert (Ln : List.NoDup l).
    { unfold l, slice0. apply take_NoDup, List.NoDup_filter, Q. }
    assert (Ll : (length l <= 3)%nat).
    { unfold l, slice0. change (3 <? 0) with false. cbv iota. rewrite length_take. lia. }
    assert (Le : l <> []).
    { apply existsb_exists in Ex as (x & Ix & Sx).
      assert (If : In x (List.filter (has_status st0 PENDING) (queue st0)))
        by (apply filter_In; auto).
      unfold l, slice0. change (3 <? 0) with false. cbv iota.
      destruct (List.filter _ _) as [|y f]; [destruct If|]. cbn [length].
      replace (Z.to_nat _) with (S (Z.to_nat (Z.min 3 (Z.of_nat (S (length f))) - 1))).
      - discriminate.
      - cbn. lia. }
    destruct (Z.of_nat (length l) =? 0) eqn:Z0.
    { apply Z.eqb_eq in Z0. destruct l; [congruence | cbn in Z0; lia]. }
    set (st2 := fold_left _ l st0).
    destruct (start_all_frame l st0) as (Ea & Ew & Ef & Em & Ep). fold st2 in Ea, Ew, Ef, Em, Ep.
    unfold adopt. cbn [this tasks suspend heap next_ref queue processing maxConcurrent
                         activeJobs files awaiting app].
    rewrite Ew. cbn [awaiting st0 set_processing]. rewrite A. cbn [app].
    destruct (job_refs_batch l l) as [Rl Fl].
    assert (Hin : forall r, In r l -> exists job,
                    heap st !! r = Some job /\ status job = PENDING
                    /\ heap st2 !! r
                       = Some (set_progress 20 (set_progress 10 (set_status PROCESSING job)))).
    { intros r Ir. destruct (Lp r Ir) as [Iq Sp]. unfold has_status in Sp.
      destruct (heap st !! r) as [job|] eqn:Hj; [|discriminate].
      apply Status_eqb_eq in Sp. exists job. repeat split; auto.
      unfold st2. now apply start_all_heap_in. }
    assert (Hout : forall r, ~ In r l -> heap st2 !! r = heap st !! r).
    { intros r Nr. unfold st2. now rewrite start_all_heap. }
    assert (Eq2 : queue st2 = queue st) by (unfold st2; now rewrite start_all_queue).
    assert (En2 : next_ref st2 = next_ref st) by (unfold st2; now rewrite start_all_next_ref).
    assert (Hs2 : forall r, is_Some (heap st2 !! r) <-> is_Some (heap st !! r)).
    { intros r. unfold st2. now rewrite start_all_is_Some. }
    constructor; cbn [this tasks].
    + constructor; cbn [heap next_ref queue processing maxConcurrent activeJobs files awaiting].
      * reflexivity.
      * now rewrite Em.
      * rewrite Ea, Rl. cbn. rewrite C. lia.
      * now rewrite Rl.
      * intros r job' Hr. rewrite Ef. cbn [files st0 set_processing].
        destruct (in_dec Nat.eq_dec r l) as [Ir|Nr].
        -- destruct (Hin r Ir) as (job & Hj & Sp & H2). rewrite H2 in Hr. injection Hr as <-.
           pose proof (J _ _ Hj) as Jk. unfold job_ok in *. rewrite Sp in Jk.
           cbn [status set_progress set_status result error completedAt progress].
           destruct Jk as (_ & ? & ? & ? & _). repeat split; auto.
           exists (AtExtraction r). split; [|split; reflexivity].
           rewrite map_app. apply in_app_iff. left. rewrite map_map.
           now apply (in_map (fun x => task_of (AwaitExtraction x))).
        -- rewrite Hout in Hr by exact Nr. pose proof (J _ _ Hr) as Jk.
           unfold job_ok in *. rewrite Rl.
           destruct (status job').
           ++ destruct Jk as (?&?&?&?&_). repeat split; auto.
           ++ destruct Jk as (_&_&_&t&[]&_).
           ++ destruct Jk as (?&?&?&?&_). repeat split; auto.
           ++ destruct Jk as (?&?&?&?&?&_). repeat split; auto.
      * rewrite Rl. intros r Ir. rewrite Eq2.
        split; [now apply Lp|].
        destruct (Hin r Ir) as (job & _ & _ & H2). unfold has_status.
        cbn [heap]. now rewrite H2.
      * intros t It. rewrite map_app in It.
        apply in_app_iff in It as [It|[<-|[]]]; [|exact Logic.I].
        rewrite map_map in It. apply in_map_iff in It as (r & <- & _). exact Logic.I.
      * rewrite Eq2, En2.
        destruct Q as [Q1 Q2]. split; [exact Q1|]. intros r Ir.
        rewrite Hs2. now apply Q2.
      * intros r. rewrite Hs2, En2. apply Hp.
      * intros r job' Hr Sp. rewrite Eq2.
        destruct (in_dec Nat.eq_dec r l) as [Ir|Nr].
        -- now apply Lp.
        -- rewrite Hout in Hr by exact Nr. eauto.
    + unfold loop_ok. cbn [processing]. rewrite Ep. cbn [processing st0 set_processing].
      exists l. rewrite Fl, Rl. auto.
  - (* the loop ends *)
    rewrite adopt_quiet by exact A. constructor; cbn [this tasks].
    + now apply core_processing, core_processing.
    + unfold loop_ok. cbn. split; [reflexivity|]. intros r Ir.
      change (has_status (set_processing false st0) PENDING r) with (has_status st PENDING r).
      destruct (has_status st PENDING r) eqn:Sp; [|reflexivity].
      assert (Ex' : existsb (has_status st0 PENDING) (queue st0) = true)
        by (apply existsb_exists; eauto).
      congruence.
Qed.


(** *** Every segment keeps the invariant *)

Lemma catch_processing ref message now cleanup st :
  processing (catch ref message now cleanup st) = processing st.
Proof.
  destruct (catch_changed ref message now cleanup st) as (st1 & -> & Ch & _).
  destruct Ch as (_ & _ & _ & Ep & _). exact Ep.
Qed.

Lemma complete_processing ref d v dup c now cleanup st :
  processing (complete ref d v dup c now cleanup st) = processing st.
Proof.
  destruct (complete_changed ref d v dup c now cleanup st) as (st1 & -> & Ch & _).
  destruct Ch as (_ & _ & _ & Ep & _). exact Ep.
Qed.

Lemma cancelJob_frame now jobId st :
  let st' := snd (cancelJob now jobId st) in
  processing st' = processing st /\ queue st' = queue st
  /\ forall r, has_status st' PENDING r = true -> has_status st PENDING r = true.
Proof.
  cbv zeta. unfold cancelJob.
  destruct (find_ref jobId st) as [ref|]; [|auto].
  destruct (heap st !! ref) as [job|] eqn:Hj; [|auto].
  destruct (Status_eqb (status job) PENDING) eqn:Sp; [|auto].
  cbn [snd]. repeat split; try reflexivity.
  intros r. unfold has_status. cbn [deleteFile heap]. rewrite !update_job_lookup.
  case_decide as Dc; [|auto]. subst r. rewrite !decide_True by reflexivity.
  rewrite Hj. cbn. discriminate.
Qed.

Lemma no_jobs_all_loops ts : job_refs ts = [] -> List.filter is_loop ts = ts.
Proof.
  induction ts as [|t ts IH]; [reflexivity|].
  unfold job_refs. cbn [omap]. destruct t; cbn; try discriminate; intros E; f_equal; now apply IH.
Qed.

(** Without a suspended [processJob], the tasks do not matter. *)
Lemma core_no_jobs st ts : core host st ts -> job_refs ts = [] -> core host st [].
Proof.
  intros [A M C D J T P Q Hp Lv] E. rewrite E in *.
  constructor; try assumption.
  - intros r job Hj. pose proof (J _ _ Hj) as Jk. unfold job_ok in *.
    destruct (status job); cbn [job_refs omap].
    + destruct Jk as (?&?&?&?&_). repeat split; auto.
    + destruct Jk as (_&_&_&t&It&Et&_). exfalso.
      assert (Ir : In r (job_refs ts)) by (apply job_refs_In; eauto).
      now rewrite E in Ir.
    + destruct Jk as (?&?&?&?&_). repeat split; auto.
    + destruct Jk as (?&?&?&?&?&_). repeat split; auto.
  - intros t [].
Qed.

Lemma keep_result st st' ts ts' :
  core host st' ts' ->
  loop_ok st ts ->
  processing st = true \/ ts <> [] ->
  processing st' = processing st ->
  List.filter is_loop ts' = List.filter is_loop ts ->
  (forall r, In r (job_refs ts') -> In r (job_refs ts)) ->
  invariant host (mkRuntime st' ts')
  /\ (job_refs ts = [] \/ forall r, In r (job_refs ts') -> In r (job_refs ts)).
Proof.
  intros I L N Ep Ef R. split; [|now right].
  constructor; [exact I|]. now apply loop_ok_keep with (st := st) (ts := ts).
Qed.

Lemma step_preserves e rt rt' :
  invariant host rt -> step host e rt = Some rt' ->
  invariant host rt'
  /\ (job_refs (tasks rt) = []
      \/ forall r, In r (job_refs (tasks rt')) -> In r (job_refs (tasks rt))).
Proof.
  destruct rt as [st ts]. intros [I L] S. cbn [this tasks] in *.
  pose proof (core_awaiting host _ _ I) as A.
  destruct e as [now rnd created path name user | now jobId | jobId
                | k outcome amb now cleanup | k | k now cleanup | k outcome now cleanup
                | k now cleanup | k | k];
    cbn [step this tasks] in S.
  - (* addJob *)
    injection S as <-. unfold addJob. cbn [snd].
    set (st1 := mkState _ _ _ _ _ _ _ _).
    assert (I1 : core host st1 ts) by (now apply push_core).
    change (processing st1) with (processing st).
    destruct (processing st) eqn:Ep; cbn [negb].
    + rewrite adopt_quiet by exact A.
      apply keep_result with (1 := I1) (st := st) (ts := ts); auto.
    + unfold loop_ok in L. rewrite Ep in L. destruct L as [-> _].
      split; [now apply loop_top | now left].
  - (* cancelJob *)
    injection S as <-.
    pose proof (cancelJob_core now jobId st ts I) as I1.
    destruct (cancelJob_frame now jobId st) as (Ep & Eq & Sp).
    rewrite adopt_quiet by (apply (core_awaiting host _ _ I1)).
    split; [|now right].
    constructor; [exact I1|]. cbn [this tasks].
    unfold loop_ok in *. rewrite Ep. destruct (processing st); [exact L|].
    destruct L as [-> L]. split; [reflexivity|]. intros r Ir. rewrite Eq in Ir.
    specialize (L r Ir).
    destruct (has_status (snd (cancelJob now jobId st)) PENDING r) eqn:Sr; [|reflexivity].
    apply Sp in Sr. congruence.
  - (* retryJob *)
    injection S as <-. unfold retryJob.
    destruct (find_ref jobId st) as [ref|] eqn:F;
      [|cbn [snd]; rewrite adopt_quiet by exact A; split; [now constructor | now right]].
    destruct (has_status st FAILED ref) eqn:Sf; cbn [negb];
      [|cbn [snd]; rewrite adopt_quiet by exact A; split; [now constructor | now right]].
    cbn [snd]. set (st4 := update_job ref (set_completedAt None) _).
    pose proof (retry_core jobId st ts ref I F Sf) as I4. fold st4 in I4.
    change (processing st4) with (processing st).
    destruct (processing st) eqn:Ep; cbn [negb].
    + rewrite adopt_quiet by exact A.
      apply keep_result with (1 := I4) (st := st) (ts := ts); auto.
    + unfold loop_ok in L. rewrite Ep in L. destruct L as [-> _].
      split; [now apply loop_top | now left].
  - (* the extraction is done *)
    destruct (ts !! k) as [[ref| | | | | |]|] eqn:Lk;
      try (destruct outcome as [[?|?]|?]; discriminate).
    destruct (lookup_split _ _ _ Lk) as (a & b & -> & Ed & Ei).
    destruct outcome as [[data|message]|message]; injection S as <-.
    + rewrite Ei.
      pose proof (advance_core st a (AtExtraction ref) b
                    (AtValidation ref data (Ocr.validateInvoiceData host amb data)) ref I
                    eq_refl eq_refl ltac:(cbn; eauto)) as I1.
      cbn [task_progress] in I1.
      rewrite adopt_quiet by exact A.
      apply keep_result with (1 := I1) (st := st)
        (ts := (a ++ AtExtraction ref :: b)%list); auto.
      * right. now destruct a.
      * now rewrite !filter_loop_job.
      * intros r. rewrite !job_refs_app. auto.
    + rewrite Ei.
      pose proof (advance_core st a (AtExtraction ref) b (AtRejection ref message) ref I
                    eq_refl eq_refl Logic.I) as I1.
      cbn [task_progress] in I1.
      rewrite adopt_quiet by exact A.
      apply keep_result with (1 := I1) (st := st)
        (ts := (a ++ AtExtraction ref :: b)%list); auto.
      * right. now destruct a.
      * now rewrite !filter_loop_job.
      * intros r. rewrite !job_refs_app. auto.
    + rewrite Ed.
      pose proof (catch_core st a (AtExtraction ref) b ref message now cleanup I eq_refl
                    ltac:(now left)) as I1.
      rewrite adopt_quiet by (apply (core_awaiting host _ _ I1)).
      apply keep_result with (1 := I1) (st := st)
        (ts := (a ++ AtExtraction ref :: b)%list); auto.
      * right. now destruct a.
      * apply catch_processing.
      * now rewrite filter_loop_job.
      * intros r. rewrite !job_refs_app, !in_app_iff. cbn. tauto.
  - (* the validation is done *)
    destruct (ts !! k) as [[|ref data v| | | | |]|] eqn:Lk; try discriminate.
    destruct (lookup_split _ _ _ Lk) as (a & b & -> & Ed & Ei).
    injection S as <-. rewrite Ei.
    assert (O : task_ok host (AtValidation (Bill := Bill) ref data v)).
    { apply (core_payload host _ _ I), in_app_iff. right. now left. }
    pose proof (advance_core st a (AtValidation ref data v) b
                  (AtDuplicateCheck ref data v) ref I eq_refl eq_refl O) as I1.
    cbn [task_progress] in I1.
    rewrite adopt_quiet by exact A.
      apply keep_result with (1 := I1) (st := st)
        (ts := (a ++ AtValidation ref data v :: b)%list); auto.
    + right. now destruct a.
    + now rewrite !filter_loop_job.
    + intros r. rewrite !job_refs_app. auto.
  - (* the validation has thrown *)
    destruct (ts !! k) as [[| |ref message| | | |]|] eqn:Lk; try discriminate.
    destruct (lookup_split _ _ _ Lk) as (a & b & -> & Ed & Ei).
    injection S as <-. rewrite Ed.
    pose proof (catch_core st a (AtRejection ref message) b ref message now cleanup I
                  eq_refl ltac:(right; now left)) as I1.
    rewrite adopt_quiet by (apply (core_awaiting host _ _ I1)).
    apply keep_result with (1 := I1) (st := st)
      (ts := (a ++ AtRejection ref message :: b)%list); auto.
    + right. now destruct a.
    + apply catch_processing.
    + now rewrite filter_loop_job.
    + intros r. rewrite !job_refs_app, !in_app_iff. cbn. tauto.
  - (* the duplicate check is done *)
    destruct (ts !! k) as [[| | |ref data v| | |]|] eqn:Lk;
      try (destruct outcome; discriminate).
    destruct (lookup_split _ _ _ Lk) as (a & b & -> & Ed & Ei).
    assert (O : task_ok host (AtDuplicateCheck (Bill := Bill) ref data v)).
    { apply (core_payload host _ _ I), in_app_iff. right. now left. }
    destruct outcome as [prisma|message]; injection S as <-.
    + rewrite Ei.
      pose proof (advance_core st a (AtDuplicateCheck ref data v) b
                    (AtCorrections ref data v
                       (Ocr.checkDuplicateInvoice (Ocr.invoiceNumber data)
                                                  (Ocr.supplierName data) prisma))
                    ref I eq_refl eq_refl ltac:(cbn; eauto)) as I1.
      cbn [task_progress] in I1.
      rewrite adopt_quiet by exact A.
      apply keep_result with (1 := I1) (st := st)
        (ts := (a ++ AtDuplicateCheck ref data v :: b)%list);
        auto.
      * right. now destruct a.
      * now rewrite !filter_loop_job.
      * intros r. rewrite !job_refs_app. auto.
    + rewrite Ed.
      pose proof (catch_core st a (AtDuplicateCheck ref data v) b ref message now cleanup I
                    eq_refl ltac:(right; right; now left)) as I1.
      rewrite adopt_quiet by (apply (core_awaiting host _ _ I1)).
      apply keep_result with (1 := I1) (st := st)
        (ts := (a ++ AtDuplicateCheck ref data v :: b)%list);
        auto.
      * right. now destruct a.
      * apply catch_processing.
      * now rewrite filter_loop_job.
      * intros r. rewrite !job_refs_app, !in_app_iff. cbn. tauto.
  - (* the corrections are done *)
    destruct (ts !! k) as [[| | | |ref data v dup| |]|] eqn:Lk; try discriminate.
    destruct (lookup_split _ _ _ Lk) as (a & b & -> & Ed & Ei).
    destruct (Ocr.generateCorrectionSuggestions data v) as [c|message] eqn:G;
      injection S as <-; rewrite Ed.
    + pose proof (complete_core st a b ref data v dup c now cleanup I G) as I1.
      rewrite adopt_quiet by (apply (core_awaiting host _ _ I1)).
      apply keep_result with (1 := I1) (st := st)
        (ts := (a ++ AtCorrections ref data v dup :: b)%list);
        auto.
      * right. now destruct a.
      * apply complete_processing.
      * now rewrite filter_loop_job.
      * intros r. rewrite !job_refs_app, !in_app_iff. cbn. tauto.
    + pose proof (catch_core st a (AtCorrections ref data v dup) b ref message now cleanup I
                    eq_refl ltac:(right; right; right; now left)) as I1.
      rewrite adopt_quiet by (apply (core_awaiting host _ _ I1)).
      apply keep_result with (1 := I1) (st := st)
        (ts := (a ++ AtCorrections ref data v dup :: b)%list);
        auto.
      * right. now destruct a.
      * apply catch_processing.
      * now rewrite filter_loop_job.
      * intros r. rewrite !job_refs_app, !in_app_iff. cbn. tauto.
  - (* the batch is settled *)
    destruct (ts !! k) as [[| | | | |jobs|]|] eqn:Lk; try discriminate.
    destruct (settled jobs ts) eqn:St; [|discriminate]. injection S as <-.
    unfold loop_ok in L. destruct (processing st).
    2:{ destruct L as [-> _]. discriminate. }
    destruct L as (jobs' & Fl & Rj & _).
    assert (Ej : jobs' = jobs).
    { assert (Ib : In (AtBatch jobs) (List.filter is_loop ts)).
      { apply filter_In. split; [|reflexivity].
        apply list_elem_of_In, list_elem_of_lookup. eauto. }
      rewrite Fl in Ib. destruct Ib as [Eb|[]]. now injection Eb. }
    subst jobs'.
    assert (Nj : job_refs ts = []).
    { destruct (job_refs ts) as [|r rs] eqn:Er; [reflexivity|]. exfalso.
      assert (Ir : In r jobs) by (apply Rj; now left).
      unfold settled in St. rewrite forallb_forall in St. specialize (St r Ir).
      rewrite Er in St. cbn in St. now rewrite Nat.eqb_refl in St. }
    rewrite (no_jobs_all_loops ts Nj) in Fl. subst ts.
    destruct k; [|destruct k; discriminate]. cbn [delete].
    split; [|now left].
    apply loop_top. now apply core_no_jobs with (ts := [AtBatch jobs]).
  - (* the timer fires *)
    destruct (ts !! k) as [[| | | | | |]|] eqn:Lk; try discriminate.
    exfalso. unfold loop_ok in L. destruct (processing st).
    + destruct L as (jobs' & Fl & _).
      assert (Ib : In (@AtTimer num Bill) (List.filter is_loop ts)).
      { apply filter_In. split; [|reflexivity].
        apply list_elem_of_In, list_elem_of_lookup. eauto. }
      rewrite Fl in Ib. destruct Ib as [Eb|[]]. discriminate.
    + destruct L as [-> _]. discriminate.
Qed.

Lemma step_invariant e rt rt' :
  invariant host rt -> step host e rt = Some rt' -> invariant host rt'.
Proof. intros I S. now destruct (step_preserves e rt rt' I S). Qed.

Lemma start_invariant fs : invariant host (start (num := num) (Bill := Bill) fs).
Proof.
  constructor; [constructor|]; cbn [start this tasks init heap next_ref queue processing
                                     maxConcurrent activeJobs files awaiting].
  - reflexivity.
  - reflexivity.
  - reflexivity.
  - constructor.
  - intros r job. rewrite lookup_empty. discriminate.
  - intros r [].
  - intros t [].
  - split; [constructor | intros r []].
  - intros r. rewrite lookup_empty. intros [? ?]. discriminate.
  - intros r job. rewrite lookup_empty. discriminate.
  - unfold loop_ok. cbn. split; [reflexivity | intros r []].
Qed.

Lemma run_invariant events : forall rt rt',
  invariant host rt -> run host events rt = Some rt' -> invariant host rt'.
Proof.
  induction events as [|e events IH]; intros rt rt' I R; cbn in R.
  - now injection R as <-.
  - destruct (step host e rt) as [rt1|] eqn:S; [|discriminate].
    eapply IH; [|exact R]. eapply step_invariant; eauto.
Qed.

Lemma reachable_invariant rt : reachable host rt -> invariant host rt.
Proof. intros (fs & events & R). eapply run_invariant; [apply start_invariant | exact R]. Qed.


(** *** What follows for every state the queue can be in *)

(** Every job of the queue is counted under exactly one status. *)
Lemma count_partition st (l : list nat) :
  (forall ref, In ref l -> is_Some (heap st !! ref)) ->
  Z.of_nat (length l)
  = Z.of_nat (length (List.filter (has_status st PENDING) l))
    + Z.of_nat (length (List.filter (has_status st PROCESSING) l))
    + Z.of_nat (length (List.filter (has_status st COMPLETED) l))
    + Z.of_nat (length (List.filter (has_status st FAILED) l)).
Proof.
  induction l as [|r l IH]; intros A; [reflexivity|].
  assert (A' : forall ref, In ref l -> is_Some (heap st !! ref)) by (intros; apply A; now right).
  specialize (IH A'). destruct (A r ltac:(now left)) as [job Hj].
  assert (E : forall s, has_status st s r = Status_eqb (status job) s).
  { intros s. unfold has_status. now rewrite Hj. }
  cbn [List.filter]. rewrite !E.
  destruct (status job); cbn [Status_eqb length]; lia.
Qed.

Lemma same_length (l1 l2 : list nat) :
  List.NoDup l1 -> List.NoDup l2 -> (forall r, In r l1 <-> In r l2) -> length l1 = length l2.
Proof.
  intros N1 N2 E. apply Nat.le_antisymm; apply List.NoDup_incl_length; auto;
    intros r; apply E.
Qed.

(** X18. In every state that the queue can be in, the number of
    active jobs is the number of suspended [processJob] calls, at most
    three; the statistics report as many PROCESSING jobs as active jobs,
    and their four counts add up to the total. *)
Theorem at_most_three_jobs_in_work rt :
  reachable host rt ->
  let stats := getQueueStats (this rt) in
  0 <= activeJobs (this rt) <= 3
  /\ activeJobs (this rt) = Z.of_nat (length (job_refs (tasks rt)))
  /\ Stats.processing stats = Stats.activeJobs stats
  /\ Stats.total stats
     = Stats.pending stats + Stats.processing stats + Stats.completed stats
       + Stats.failed stats.
Proof.
  intros R. apply reachable_invariant in R as [[A M C D J T P Q Hp Lv] L]. cbv zeta.
  unfold getQueueStats, count_status. cbn [Stats.processing Stats.activeJobs Stats.total
    Stats.pending Stats.completed Stats.failed].
  assert (B : (length (job_refs (tasks rt)) <= 3)%nat).
  { unfold loop_ok in L. destruct (processing (this rt)).
    - destruct L as (jobs & _ & I & Len).
      pose proof (List.NoDup_incl_length D (l' := jobs) I). lia.
    - destruct L as [-> _]. cbn. lia. }
  split; [lia|]. split; [exact C|]. split.
  - rewrite C. f_equal. apply same_length; [apply List.NoDup_filter, Q | exact D |].
    intros r. rewrite filter_In. split.
    + intros [Iq St]. unfold has_status in St.
      destruct (heap (this rt) !! r) as [job|] eqn:Hj; [|discriminate].
      apply Status_eqb_eq in St. pose proof (J _ _ Hj) as Jk.
      unfold job_ok in Jk. rewrite St in Jk. destruct Jk as (_&_&_&t&It&Et&_).
      apply job_refs_In. eauto.
    + apply T.
  - apply count_partition. intros r Ir. now apply Q.
Qed.

(** X19. In every state that the queue can be in: while [processing]
    is set exactly one [processQueue] call is suspended, at a batch;
    otherwise no call is suspended and every job is COMPLETED or FAILED.
    No call ever waits at the 500 ms timer. *)
Theorem one_loop_and_no_timer rt :
  reachable host rt ->
  (if processing (this rt)
   then exists jobs, List.filter is_loop (tasks rt) = [AtBatch jobs]
   else tasks rt = []
        /\ forall ref job, heap (this rt) !! ref = Some job ->
                           status job = COMPLETED \/ status job = FAILED)
  /\ ~ In AtTimer (tasks rt).
Proof.
  intros R. apply reachable_invariant in R as [[A M C D J T P Q Hp Lv] L].
  unfold loop_ok in L. destruct (processing (this rt)).
  - destruct L as (jobs & F & _). split; [eauto|].
    intros I. assert (If : In (@AtTimer num Bill) (List.filter is_loop (tasks rt)))
      by (apply filter_In; auto).
    rewrite F in If. destruct If as [Eb|[]]. discriminate.
  - destruct L as [E L]. split; [|now rewrite E]. split; [exact E|].
    intros r job Hj. pose proof (J _ _ Hj) as Jk. unfold job_ok in Jk.
    destruct (status job) eqn:Sj; auto; exfalso.
    + pose proof (L r (Lv _ _ Hj Sj)) as Np. unfold has_status in Np.
      rewrite Hj, Sj in Np. discriminate.
    + destruct Jk as (_&_&_&t&It&_). rewrite E in It. destruct It.
Qed.

(** X20. In every state that the queue can be in, for every job: it
    has a result exactly when COMPLETED, an error exactly when FAILED, a
    completion time exactly when either; its progress is 0 when PENDING,
    20, 50, 70 or 85 when PROCESSING, 100 when COMPLETED, and 0, 20, 50,
    70 or 85 when FAILED (0 when cancelled before its start, 50 when
    [validateInvoiceData] has thrown on what the extraction returned);
    the file of a FAILED job is deleted; and it is PROCESSING exactly
    when a [processJob] call on it is suspended. *)
Theorem job_record_by_status rt ref job :
  reachable host rt ->
  heap (this rt) !! ref = Some job ->
  (is_Some (result job) <-> status job = COMPLETED)
  /\ (is_Some (error job) <-> status job = FAILED)
  /\ (is_Some (completedAt job) <-> status job = COMPLETED \/ status job = FAILED)
  /\ In (progress job)
        match status job with
        | PENDING => [0]
        | PROCESSING => [20; 50; 70; 85]
        | COMPLETED => [100]
        | FAILED => [0; 20; 50; 70; 85]
        end
  /\ (status job = FAILED -> filePath job ∉ files (this rt))
  /\ (status job = PROCESSING <-> In ref (job_refs (tasks rt))).
Proof.
  intros R Hj. apply reachable_invariant in R as [[A M C D J T P Q Hp Lv] L].
  pose proof (J _ _ Hj) as Jk. unfold job_ok in Jk.
  assert (Tp : In ref (job_refs (tasks rt)) -> status job = PROCESSING).
  { intros I. destruct (T ref I) as [_ St]. unfold has_status in St.
    rewrite Hj in St. now apply Status_eqb_eq. }
  assert (No : forall X (o : option X) (Q : Prop), o = None -> is_Some o -> Q).
  { intros X o Q0 -> [? ?]. discriminate. }
  destruct (status job) eqn:Sj.
  - destruct Jk as (Pg & Rs & Er & Ca & N). rewrite Pg.
    split; [split; [apply No, Rs | discriminate]|].
    split; [split; [apply No, Er | discriminate]|].
    split; [split; [apply No, Ca | intros [|]; discriminate]|].
    split; [now left|]. split; [discriminate|].
    split; [discriminate | intros I; now apply N in I].
  - destruct Jk as (Rs & Er & Ca & t & It & Et & Pg). rewrite Pg.
    split; [split; [apply No, Rs | discriminate]|].
    split; [split; [apply No, Er | discriminate]|].
    split; [split; [apply No, Ca | intros [|]; discriminate]|].
    split; [destruct t; cbn in *; try discriminate; auto 6|]. split; [discriminate|].
    split; [intros _; apply job_refs_In; eauto | reflexivity].
  - destruct Jk as (Pg & (r & Rs & _) & Er & Ca & N). rewrite Pg, Rs.
    split; [split; [reflexivity | eauto]|].
    split; [split; [apply No, Er | discriminate]|].
    split; [split; [auto | intros _; exact Ca]|].
    split; [now left|]. split; [discriminate|].
    split; [discriminate | intros I; apply Tp in I; discriminate].
  - destruct Jk as (Pg & Rs & Er & Ca & Nf & N).
    split; [split; [apply No, Rs | discriminate]|].
    split; [split; [reflexivity | intros _; exact Er]|].
    split; [split; [auto | intros _; exact Ca]|].
    split; [exact Pg|]. split; [intros _; exact Nf|].
    split; [discriminate | intros I; apply Tp in I; discriminate].
Qed.

(** X21. In every state that the queue can be in, a job with a result
    is COMPLETED, and its result holds the validation of the extracted
    data, the duplicate check on its number and supplier name and the
    suggestions for that data and that validation; the [filePath] of
    the result is the file name of the job. *)
Theorem completed_result_is_the_pipeline rt ref job r :
  reachable host rt ->
  heap (this rt) !! ref = Some job ->
  result job = Some r ->
  status job = COMPLETED /\ result_ok host job r.
Proof.
  intros R Hj Rs. apply reachable_invariant in R as [[A M C D J T P Q Hp Lv] L].
  pose proof (J _ _ Hj) as Jk. unfold job_ok in Jk.
  destruct (status job).
  - destruct Jk as (_ & Rn & _). congruence.
  - destruct Jk as (Rn & _). congruence.
  - destruct Jk as (_ & (r' & Rs' & Ok) & _). split; [reflexivity|]. congruence.
  - destruct Jk as (_ & Rn & _). congruence.
Qed.


(** X22. A job becomes PROCESSING only in a segment before which no
    job was active: the jobs of a batch are all finished before the next
    job is started. *)
Theorem jobs_start_only_when_idle rt e rt' ref :
  reachable host rt ->
  step host e rt = Some rt' ->
  has_status (this rt) PROCESSING ref = false ->
  has_status (this rt') PROCESSING ref = true ->
  activeJobs (this rt) = 0 /\ job_refs (tasks rt) = []
  /\ count_status PROCESSING (this rt) = 0.
Proof.
  intros R S Before After. apply reachable_invariant in R as I.
  destruct (step_preserves e rt rt' I S) as [[I' _] Sub].
  assert (In' : In ref (job_refs (tasks rt'))).
  { unfold has_status in After.
    destruct (heap (this rt') !! ref) as [job|] eqn:Hj; [|discriminate].
    apply Status_eqb_eq in After. pose proof (core_jobs host _ _ I' _ _ Hj) as Jk.
    unfold job_ok in Jk. rewrite After in Jk. destruct Jk as (_&_&_&t&It&Et&_).
    apply job_refs_In. eauto. }
  destruct I as [I L]. destruct Sub as [E|Sub].
  - pose proof (core_active host _ _ I) as C. rewrite E in C.
    split; [exact C|]. split; [exact E|].
    unfold count_status.
    destruct (List.filter _ _) as [|r l] eqn:F; [reflexivity|]. exfalso.
    assert (Ir : In r (List.filter (has_status (this rt) PROCESSING) (queue (this rt))))
      by (rewrite F; now left).
    apply filter_In in Ir as [_ St]. unfold has_status in St.
    destruct (heap (this rt) !! r) as [job|] eqn:Hj; [|discriminate].
    apply Status_eqb_eq in St. pose proof (core_jobs host _ _ I _ _ Hj) as Jk.
    unfold job_ok in Jk. rewrite St in Jk. destruct Jk as (_&_&_&t&It&Et&_).
    assert (Ij : In r (job_refs (tasks rt))) by (apply job_refs_In; eauto).
    now rewrite E in Ij.
  - destruct (core_tasks host _ _ I ref (Sub _ In')) as [_ St]. congruence.
Qed.

End RuntimeFacts.

(** * Properties of the reorder service *)

Section ReorderFacts.
Context {P : Type}.
Import AutoReorder.
#[local] Open Scope Q_scope.
Implicit Types (l sorted : list (Suggestion Q P * Q)) (item : Suggestion Q P * Q).

Lemma Q_leb_true a b : Q_leb a b = true <-> a <= b.
Proof. apply Qle_bool_iff. Qed.

Lemma Q_leb_false a b : Q_leb a b = false <-> b < a.
Proof.
  unfold Q_leb. split.
  - intros E. apply Qnot_le_lt. intros L. apply Qle_bool_iff in L. congruence.
  - intros L. destruct (Qle_bool a b) eqn:E; [|reflexivity].
    apply Qle_bool_iff in E. exfalso. now apply (Qlt_not_le _ _ L).
Qed.

(** X23. In exact arithmetic and for stock that is not negative,
    [determinePriority] is monotone: with less stock the priority is at
    least as high, for any minimum level. *)
Theorem determinePriority_monotone (stock1 stock2 minLevel : Q) :
  0 <= stock1 -> stock1 <= stock2 ->
  (priorityWeight (determinePriority stock2 minLevel)
   <= priorityWeight (determinePriority stock1 minLevel))%Z.
Proof.
  intros L0 L12. unfold determinePriority, is_zero, decimal.
  cbn [nleb nmul ndiv of_Z Q_JsNumber].
  change (inject_Z 0) with 0.
  repeat match goal with
         | |- context [Q_leb ?a ?b] =>
             let E := fresh "E" in
             destruct (Q_leb a b) eqn:E;
             [apply Q_leb_true in E | apply Q_leb_false in E]
         end;
    cbn [andb priorityWeight]; try lia; exfalso; lra.
Qed.

Lemma select_within sorted : forall budget : Q,
  0 <= budget ->
  total_cost (select sorted budget) <= budget
  /\ 0 <= budget - total_cost (select sorted budget).
Proof.
  induction sorted as [|item rest IH]; intros budget B; cbn [select total_cost fold_right].
  - split; lra.
  - cbn [nleb nsub Q_JsNumber].
    destruct (Q_leb (estimatedCost (fst item)) budget) eqn:E.
    + apply Q_leb_true in E. cbn [fold_right].
      destruct (IH (budget - estimatedCost (fst item)) ltac:(lra)) as [I1 I2].
      fold (total_cost (select rest (budget - estimatedCost (fst item)))).
      split; lra.
    + now apply IH.
Qed.

Lemma select_In sorted : forall (budget : Q) item,
  In item (select sorted budget) -> In item sorted.
Proof.
  induction sorted as [|x rest IH]; intros budget item; cbn [select]; [auto|].
  destruct (_ <=? _)%num; [intros [->|I]; [now left | right; eauto] | right; eauto].
Qed.

Lemma total_cost_nonneg l :
  (forall item, In item l -> 0 <= estimatedCost (fst item)) -> 0 <= total_cost l.
Proof.
  induction l as [|x l IH]; intros N; cbn; [lra|].
  pose proof (N x (or_introl eq_refl)).
  assert (0 <= total_cost l) by (apply IH; intros; apply N; now right).
  unfold total_cost in *. lra.
Qed.

(** What is passed over does not fit in what is left. *)
Lemma select_leftover sorted : forall budget : Q,
  (forall item, In item sorted -> 0 <= estimatedCost (fst item)) ->
  forall item, In item sorted ->
    In item (select sorted budget)
    \/ budget - total_cost (select sorted budget) < estimatedCost (fst item).
Proof.
  induction sorted as [|x rest IH]; intros budget N item I; [destruct I|].
  assert (N' : forall item, In item rest -> 0 <= estimatedCost (fst item))
    by (intros; apply N; now right).
  cbn [select]. cbn [nleb nsub Q_JsNumber].
  destruct (Q_leb (estimatedCost (fst x)) budget) eqn:E.
  - destruct I as [->|I]; [left; now left|].
    destruct (IH (budget - estimatedCost (fst x)) N' item I) as [S|S]; [left; now right|].
    right. cbn [total_cost fold_right].
    fold (total_cost (select rest (budget - estimatedCost (fst x)))). lra.
  - apply Q_leb_false in E. destruct I as [->|I].
    + right.
      assert (0 <= total_cost (select rest budget)).
      { apply total_cost_nonneg. intros i Hi. apply N'. eapply select_In; eauto. }
      lra.
    + now apply IH.
Qed.

End ReorderFacts.

Section SelectionFacts.
Context {num : Type} `{JsNumber num} {P : Type}.
Import AutoReorder.

Lemma select_fits (sorted : list (Suggestion num P * num)) : forall budget,
  fits (select sorted budget) budget = true.
Proof.
  induction sorted as [|x rest IH]; intros budget; cbn [select]; [reflexivity|].
  destruct (_ <=? _)%num eqn:E; [|apply IH].
  cbn [fits]. now rewrite E, IH.
Qed.

Lemma select_sublist (sorted : list (Suggestion num P * num)) : forall budget,
  sublist (select sorted budget) sorted.
Proof.
  induction sorted as [|x rest IH]; intros budget; cbn [select]; [constructor|].
  destruct (_ <=? _)%num; [apply sublist_skip | apply sublist_cons]; apply IH.
Qed.

Lemma select_subset (sorted : list (Suggestion num P * num)) : forall budget item,
  In item (select sorted budget) -> In item sorted.
Proof.
  induction sorted as [|x rest IH]; intros budget item; cbn [select]; [auto|].
  destruct (_ <=? _)%num; [intros [->|I]; [now left | right; eauto] | right; eauto].
Qed.

Lemma valued_In (sort : Sort) (suggestions : list (Suggestion num P)) item :
  rearranges sort ->
  In item (sort by_value (map (fun s => (s, value s)) suggestions))
  <-> exists s, In s suggestions /\ item = (s, value s).
Proof.
  intros R. rewrite <- !list_elem_of_In, (R by_value _), list_elem_of_In, in_map_iff.
  split; intros (s & A1 & A2); exists s; auto.
Qed.

Lemma insert_Permutation {A} (before : A -> A -> bool) x (l : list A) :
  Permutation (TemplateService.insert before x l) (x :: l).
Proof.
  induction l as [|y l IH]; cbn; [reflexivity|].
  destruct (before x y); [reflexivity|].
  rewrite IH. apply perm_swap.
Qed.

Lemma stable_sort_Permutation {A} (before : A -> A -> bool) (l : list A) :
  Permutation (TemplateService.stable_sort before l) l.
Proof.
  induction l as [|x l IH]; cbn; [reflexivity|].
  now rewrite insert_Permutation, IH.
Qed.

Lemma stable_sort_rearranges : rearranges (@TemplateService.stable_sort_by (Suggestion num P * num)).
Proof. intros cmp l. apply stable_sort_Permutation. Qed.

End SelectionFacts.

(** X24. [optimizeWithinBudget] goes through the sorted suggestions and
    selects those that cost no more than what is left, as the program
    computes it; when the sort returns what it was given, the selection
    is made of the given suggestions, each with its value.  In exact
    arithmetic and for a budget that is not negative, the selection
    costs at most the budget, and when no cost is negative every
    suggestion is selected or costs more than what is left at the end.
    On binary64 the selection can cost more than the budget: the
    suggestions that cost 0.1 and 0.9 are both selected within a budget
    of 1, since 1 - 0.1 is rounded to 0.9, while the two costs add up to
    more than 1. *)
Theorem optimizeWithinBudget_greedy :
  (forall (num : Type) (N : JsNumber num) (P : Type) (sort : AutoReorder.Sort)
          (suggestions : list (AutoReorder.Suggestion num P)) (budget : num),
      let selected := AutoReorder.optimizeWithinBudget sort suggestions budget in
      sublist selected
              (sort AutoReorder.by_value
                    (map (fun s => (s, AutoReorder.value s)) suggestions))
      /\ AutoReorder.fits selected budget = true
      /\ (AutoReorder.rearranges sort ->
          forall item, In item selected ->
                       In (fst item) suggestions
                       /\ snd item = AutoReorder.value (fst item)))
  /\ (forall (P : Type) (sort : AutoReorder.Sort)
             (suggestions : list (AutoReorder.Suggestion Q P)) (budget : Q),
        (0 <= budget)%Q ->
        let selected := AutoReorder.optimizeWithinBudget sort suggestions budget in
        (AutoReorder.total_cost selected <= budget)%Q
        /\ (AutoReorder.rearranges sort ->
            (forall s, In s suggestions -> (0 <= AutoReorder.estimatedCost s)%Q) ->
            forall s, In s suggestions ->
              In (s, AutoReorder.value s) selected
              \/ (budget - AutoReorder.total_cost selected
                  < AutoReorder.estimatedCost s)%Q))
  /\ exists selected costs,
       AutoReorder.optimizeWithinBudget TemplateService.stable_sort_by
                                        Scenarios.tenths (of_Z 1)
       = selected
       /\ map (fun item => AutoReorder.product (fst item)) selected = ["a"; "b"]
       /\ omap (fun item => float_value (AutoReorder.estimatedCost (fst item))) selected
          = costs
       /\ length costs = 2%nat
       /\ Qred <$> float_value (of_Z 1) = Some 1%Q
       /\ (1 < TemplateService.Qsum costs)%Q.
Proof.
  split; [|split].
  - intros num N P sort suggestions budget. cbv zeta.
    unfold AutoReorder.optimizeWithinBudget. cbv zeta.
    split; [apply select_sublist|]. split; [apply select_fits|].
    intros R item I.
    apply select_subset in I.
    apply (valued_In sort suggestions item R) in I as (s & Is & ->). auto.
  - intros P sort suggestions budget B. cbv zeta.
    unfold AutoReorder.optimizeWithinBudget. cbv zeta.
    split; [apply select_within, B|].
    intros R N s Is. apply (select_leftover _ budget).
    + intros item I. apply (valued_In sort suggestions item R) in I as (s' & Is' & ->).
      now apply N.
    + apply (valued_In sort suggestions _ R). eauto.
  - eexists. eexists.
    split; [reflexivity|]. split; [vm_compute; reflexivity|].
    split; [reflexivity|]. split; [vm_compute; reflexivity|].
    split; vm_compute; reflexivity.
Qed.

(** * More concrete runs *)

Section MoreRuns.
Import Examples Scenarios.

(** The regime of a valid pair of GSTINs without white space. *)
Example regime_of_plain_gstins :
  GstValidation.isSameState
    <$> GstValidation.gstBreakdown
          (GstValidation.processInvoiceGST (num := Q) None 1000%Q 18%Q
             "27AAAAA0000A1Z5" (Some "29AAAAA0000A1Z5"))
  = Some false.
Proof. vm_compute. reflexivity. Qed.

Lemma no_suggestion_from_the_database_witness :
  Ocr.generateCorrectionSuggestions clean (Ocr.validateInvoiceData UtcHost.host june_2024 clean)
  = Resolved []
  /\ forall item, In item (Ocr.items clean) -> opt_truthy (Ocr.hsnCode item) = true.
Proof.
  assert (G : Ocr.generateCorrectionSuggestions
                clean (Ocr.validateInvoiceData UtcHost.host june_2024 clean)
              = Resolved []) by (vm_compute; reflexivity).
  split; [exact G|].
  exact (proj2 (no_suggestion_from_the_database clean _ [] G)).
Defined.

Lemma format_and_gst_type_learned_once_witness :
  TemplateService.fresh "s1" (store0 (num := Q))
  /\ forallb TemplateService.reliable_call history = true
  /\ exists t,
       (forall c', TemplateService.reliable c' = true ->
                   fst (TemplateService.getTemplate
                          c' "s1" (TemplateService.replay literal "s1" history store0))
                   = Some t)
       /\ TemplateService.invoiceNumberFormat (TemplateService.patterns t)
          = Some (TemplateService.extractInvoiceNumberPattern "INV-2024-001")
       /\ TemplateService.gstType (TemplateService.patterns t) = TemplateService.CGST_SGST
       /\ TemplateService.supplierName t = "Acme Traders".
Proof.
  split; [exact store0_fresh|]. split; [exact history_reliable|].
  exact (format_and_gst_type_learned_once literal "s1" (learned 1 (bill 100 ["A"]) true)
           [ learned 2 (bill 200 ["A"]) true; learned 3 (bill 300 ["A"]) true;
             learned 4 (bill 400 ["A"]) true; learned 5 (bill 500 ["B"; "B"]) true ]
           store0 store0_fresh history_reliable).
Defined.

Lemma template_restarts_when_unreadable_witness :
  TemplateService.get_answers TemplateService.redis_down = false
  /\ TemplateService.database_answers TemplateService.redis_down = true
  /\ is_Some (TemplateService.suppliers
                (TemplateService.replay literal "s1" history store0) !! "s1")
  /\ exists t,
       TemplateService.stored "s1"
         (TemplateService.learn literal "s1"
            (TemplateService.mkCall TemplateService.redis_down TemplateService.redis_down
                                    6 (bill 600 ["C"]) true)
            (TemplateService.replay literal "s1" history store0))
       = Some t
       /\ TemplateService.totalInvoicesProcessed (TemplateService.statistics t) = 1.
Proof.
  assert (R : is_Some (TemplateService.suppliers
                         (TemplateService.replay literal "s1" history store0) !! "s1"))
    by (vm_compute; eauto).
  split; [reflexivity|]. split; [reflexivity|]. split; [exact R|].
  destruct (template_restarts_when_unreadable literal "s1"
              (TemplateService.mkCall TemplateService.redis_down TemplateService.redis_down
                                      6 (bill 600 ["C"]) true)
              (TemplateService.replay literal "s1" history store0)
              eq_refl eq_refl R) as (t & S & _ & N & _).
  exists t. split; [exact S | exact N].
Defined.

Lemma learned_format_flags_numbers_witness :
  TemplateService.literal_engine (literal (num := Q))
  /\ TemplateService.fresh "s1" (store0 (num := Q))
  /\ forallb TemplateService.reliable_call history = true
  /\ TemplateService.reliable TemplateService.all_well = true
  /\ TemplateService.has_digit "INV-2024-001" = true
  /\ match fst (TemplateService.validateAgainstTemplate
                  literal TemplateService.all_well (bill 100 ["A"]) "s1"
                  (TemplateService.replay literal "s1" history store0)) with
     | Resolved r =>
         In "Invoice number format differs from usual pattern" (TemplateService.anomalies r)
         /\ TemplateService.matches r = false
         /\ TemplateService.confidence r <= 90
     | Rejected message =>
         message = TemplateService.toLocaleString_of_null
         /\ TemplateService.online_mean (map TemplateService.total_of history) = None
     end.
Proof.
  assert (E : TemplateService.literal_engine (literal (num := Q)))
    by apply literal_engine_exists.
  split; [exact E|]. split; [exact store0_fresh|]. split; [exact history_reliable|].
  split; [reflexivity|]. split; [reflexivity|].
  exact (learned_format_flags_numbers literal "s1" (learned 1 (bill 100 ["A"]) true)
           [ learned 2 (bill 200 ["A"]) true; learned 3 (bill 300 ["A"]) true;
             learned 4 (bill 400 ["A"]) true; learned 5 (bill 500 ["B"; "B"]) true ]
           TemplateService.all_well (bill 100 ["A"]) store0 E store0_fresh
           history_reliable eq_refl eq_refl (or_introl eq_refl)).
Defined.

(** The report on the first invoice of the history, after the five:
    the format anomaly, and the total of 100 against an average of 300. *)
Example report_after_history :
  TemplateService.anomalies
    <$> match fst (TemplateService.validateAgainstTemplate
                     literal TemplateService.all_well (bill 100 ["A"]) "s1"
                     (TemplateService.replay literal "s1" history store0)) with
        | Resolved r => Some r
        | Rejected _ => None
        end
  = Some [ "Invoice number format differs from usual pattern";
           "Unusual total amount: ₹ (avg: ₹)" ].
Proof. vm_compute. reflexivity. Qed.

(** After an invoice with an infinite total the average is [null], and
    the validation of an invoice of 100 throws. *)
Example validation_after_unbounded_total :
  (TemplateService.avgTotalAmount ∘ TemplateService.patterns)
    <$> TemplateService.stored "s1"
          (TemplateService.replay literal "s1" [learned 1 unbounded_bill true] store0)
  = Some None
  /\ fst (TemplateService.validateAgainstTemplate
            literal TemplateService.all_well (float_bill 10000) "s1"
            (TemplateService.replay literal "s1" [learned 1 unbounded_bill true] store0))
     = Rejected TemplateService.toLocaleString_of_null.
Proof. split; vm_compute; reflexivity. Qed.

Lemma calls_whole :
  forallb (fun c => TemplateService.whole (TemplateService.call_writing (snd c))) calls
  = true.
Proof. reflexivity. Qed.

Lemma store0_coherent {num} : TemplateService.coherent (store0 (num := num)).
Proof. intros sid t L. cbn in L. rewrite lookup_empty in L. discriminate. Qed.

Lemma cache_is_transparent_witness :
  TemplateService.coherent (store0 (num := Q))
  /\ forallb (fun c => TemplateService.whole (TemplateService.call_writing (snd c))) calls
     = true
  /\ TemplateService.coherent (TemplateService.learn_all literal calls store0).
Proof.
  split; [exact store0_coherent|]. split; [exact calls_whole|].
  exact (proj1 (cache_is_transparent literal calls store0 store0_coherent calls_whole)).
Defined.

Lemma retry_after_cancel_witness :
  InvoiceQueue.processing (snd second) = true
  /\ InvoiceQueue.getJob (fst second) (snd second) = Some jobB
  /\ InvoiceQueue.status jobB = InvoiceQueue.PENDING
  /\ InvoiceQueue.filePath jobB
     ∉ InvoiceQueue.files
         (snd (InvoiceQueue.retryJob (fst second)
                 (snd (InvoiceQueue.cancelJob 1700000000002 (fst second) (snd second))))).
Proof.
  assert (P : InvoiceQueue.processing (snd second) = true) by (vm_compute; reflexivity).
  assert (G : InvoiceQueue.getJob (fst second) (snd second) = Some jobB)
    by (vm_compute; reflexivity).
  split; [exact P|]. split; [exact G|]. split; [reflexivity|].
  exact (proj2 (proj2 (proj2 (retry_after_cancel 1700000000002 (fst second) (snd second)
                                 jobB P G eq_refl)))).
Defined.

Lemma addBatchJobs_idle_witness :
  InvoiceQueue.wf idle
  /\ InvoiceQueue.processing idle = false
  /\ InvoiceQueue.pending_count idle = 0
  /\ InvoiceQueue.activeJobs idle < InvoiceQueue.maxConcurrent idle
  /\ InvoiceQueue.has_status (snd (InvoiceQueue.addBatchJobs three_files "u1" idle))
       InvoiceQueue.PROCESSING 0 = true
  /\ forall k, (0 < k <= 2)%nat ->
       InvoiceQueue.has_status (snd (InvoiceQueue.addBatchJobs three_files "u1" idle))
         InvoiceQueue.PENDING k = true.
Proof.
  assert (W : InvoiceQueue.wf idle) by (intros ref []).
  assert (L : InvoiceQueue.activeJobs idle < InvoiceQueue.maxConcurrent idle)
    by (cbn; lia).
  split; [exact W|]. split; [reflexivity|]. split; [reflexivity|]. split; [exact L|].
  pose proof (addBatchJobs_idle
                (InvoiceQueue.mkBatchFile 1700000000000 "k3x9a" 1700000000000
                                          "/uploads/a.png" "a.png")
                [ InvoiceQueue.mkBatchFile 1700000000001 "p0q7z" 1700000000001
                                           "/uploads/b.png" "b.png";
                  InvoiceQueue.mkBatchFile 1700000000002 "m2n4b" 1700000000002
                                           "/uploads/c.png" "c.png" ]
                "u1" idle W eq_refl eq_refl L) as (_ & _ & _ & _ & S & Pn).
  split; [exact S | exact Pn].
Defined.

Lemma second_job_failed_reachable :
  QueueRuntime.reachable UtcHost.host (after second_job_failed).
Proof.
  exists {[ "/uploads/a.png"; "/uploads/b.png" ]}, second_job_failed.
  vm_compute. reflexivity.
Qed.

Lemma first_job_done_reachable :
  QueueRuntime.reachable UtcHost.host (after first_job_done).
Proof.
  exists {[ "/uploads/a.png"; "/uploads/b.png" ]}, first_job_done.
  vm_compute. reflexivity.
Qed.

Lemma at_most_three_jobs_in_work_witness :
  QueueRuntime.reachable UtcHost.host (after second_job_failed)
  /\ 0 <= InvoiceQueue.activeJobs (QueueRuntime.this (after second_job_failed)) <= 3.
Proof.
  split; [exact second_job_failed_reachable|].
  exact (proj1 (at_most_three_jobs_in_work UtcHost.host (after second_job_failed)
                  second_job_failed_reachable)).
Defined.

Lemma one_loop_and_no_timer_witness :
  QueueRuntime.reachable UtcHost.host (after second_job_failed)
  /\ ~ In QueueRuntime.AtTimer (QueueRuntime.tasks (after second_job_failed)).
Proof.
  split; [exact second_job_failed_reachable|].
  destruct (one_loop_and_no_timer UtcHost.host (after second_job_failed)
              second_job_failed_reachable) as [_ N].
  exact N.
Defined.

Lemma validation_thrown_reachable :
  QueueRuntime.reachable UtcHost.host (after validation_thrown).
Proof.
  exists {[ "/uploads/a.png"; "/uploads/b.png" ]}, validation_thrown.
  vm_compute. reflexivity.
Qed.

Lemma job_record_by_status_witness :
  QueueRuntime.reachable UtcHost.host (after validation_thrown)
  /\ exists job,
       InvoiceQueue.heap (QueueRuntime.this (after validation_thrown)) !! 0%nat = Some job
       /\ InvoiceQueue.status job = InvoiceQueue.FAILED
       /\ InvoiceQueue.progress job = 50
       /\ (is_Some (InvoiceQueue.error job) <-> InvoiceQueue.status job = InvoiceQueue.FAILED).
Proof.
  split; [exact validation_thrown_reachable|].
  eexists. split; [vm_compute; reflexivity|]. split; [reflexivity|].
  split; [reflexivity|].
  exact (proj1 (proj2 (job_record_by_status UtcHost.host (after validation_thrown) 0%nat _
                         validation_thrown_reachable ltac:(vm_compute; reflexivity)))).
Defined.

Lemma completed_result_is_the_pipeline_witness :
  QueueRuntime.reachable UtcHost.host (after first_job_done)
  /\ exists job r,
       InvoiceQueue.heap (QueueRuntime.this (after first_job_done)) !! 0%nat = Some job
       /\ InvoiceQueue.result job = Some r
       /\ InvoiceQueue.status job = InvoiceQueue.COMPLETED
       /\ QueueRuntime.result_ok UtcHost.host job r.
Proof.
  split; [exact first_job_done_reachable|].
  eexists. eexists. split; [vm_compute; reflexivity|]. split; [reflexivity|].
  exact (completed_result_is_the_pipeline UtcHost.host (after first_job_done) 0%nat _ _
           first_job_done_reachable ltac:(vm_compute; reflexivity) eq_refl).
Defined.

Lemma jobs_start_only_when_idle_witness :
  QueueRuntime.reachable UtcHost.host (after first_job_done)
  /\ QueueRuntime.step UtcHost.host (QueueRuntime.Batch_settled 0) (after first_job_done)
     = Some (after (first_job_done ++ [QueueRuntime.Batch_settled 0])%list)
  /\ InvoiceQueue.has_status (QueueRuntime.this (after first_job_done))
       InvoiceQueue.PROCESSING 1 = false
  /\ InvoiceQueue.has_status
       (QueueRuntime.this (after (first_job_done ++ [QueueRuntime.Batch_settled 0])%list))
       InvoiceQueue.PROCESSING 1 = true
  /\ InvoiceQueue.activeJobs (QueueRuntime.this (after first_job_done)) = 0.
Proof.
  assert (S : QueueRuntime.step UtcHost.host (QueueRuntime.Batch_settled 0)
                (after first_job_done)
              = Some (after (first_job_done ++ [QueueRuntime.Batch_settled 0])%list))
    by (vm_compute; reflexivity).
  assert (B : InvoiceQueue.has_status (QueueRuntime.this (after first_job_done))
                InvoiceQueue.PROCESSING 1 = false) by (vm_compute; reflexivity).
  assert (A : InvoiceQueue.has_status
                (QueueRuntime.this
                   (after (first_job_done ++ [QueueRuntime.Batch_settled 0])%list))
                InvoiceQueue.PROCESSING 1 = true) by (vm_compute; reflexivity).
  split; [exact first_job_done_reachable|]. split; [exact S|].
  split; [exact B|]. split; [exact A|].
  exact (proj1 (jobs_start_only_when_idle UtcHost.host (after first_job_done)
                  (QueueRuntime.Batch_settled 0) _ 1%nat
                  first_job_done_reachable S B A)).
Defined.

Lemma determinePriority_monotone_witness :
  (0 <= 2)%Q /\ (2 <= 5)%Q
  /\ AutoReorder.priorityWeight (AutoReorder.determinePriority 5%Q 10%Q)
     <= AutoReorder.priorityWeight (AutoReorder.determinePriority 2%Q 10%Q).
Proof.
  assert (L0 : (0 <= 2)%Q) by discriminate.
  assert (L1 : (2 <= 5)%Q) by discriminate.
  split; [exact L0|]. split; [exact L1|].
  exact (determinePriority_monotone 2%Q 5%Q 10%Q L0 L1).
Defined.

(** The selection within a budget of 600: the nuts, then the bolts of low
    priority, whose quantity outweighs the washers of high priority. *)
Example selection_within_600 :
  map (fun item => AutoReorder.product (fst item))
      (AutoReorder.optimizeWithinBudget TemplateService.stable_sort_by reorders 600%Q)
  = ["nuts"; "bolts"].
Proof. vm_compute. reflexivity. Qed.

(** The run of the two jobs: the first is completed, the second failed,
    and the queue has stopped. *)
Example two_jobs_statuses :
  InvoiceQueue.getQueueStats (QueueRuntime.this (after second_job_failed))
  = InvoiceQueue.Stats.mk 2 0 0 1 1 0
  /\ InvoiceQueue.processing (QueueRuntime.this (after second_job_failed)) = true
  /\ QueueRuntime.tasks (after second_job_failed) = [QueueRuntime.AtBatch [1%nat]].
Proof. vm_compute. auto. Qed.

End MoreRuns.
